(** * macro-api: credential vault, session registry and job engine

    A shallow embedding of the core of the train-booking macro service
    ([api/core/security.py], [api/core/session.py],
    [api/models/schemas.py], [api/services/job_service.py]) together with
    the properties its specification states about it.

    Conventions.
    - A Python [str] is represented by the Rocq [string] of its UTF-8
      bytes; [bytes] are [list byte].  [str.encode("utf-8")] is then the
      conversion to a byte list, and [bytes.decode("utf-8")] is the
      converse, guarded by the well-formedness check of the strict codec.
    - [datetime] values are integers (a count of clock ticks).
    - Dictionaries keyed by strings are [gmap string _].
    - An [await] is a suspension point of the job coroutine: the booking
      loop is a resumable machine whose control states are the places
      where [_run_booking_loop] awaits.  The service runs on one event
      loop, so the code between two awaits is one step: nothing else sees
      the job in between. *)

From Stdlib Require Import ZArith NArith List Bool Lia.
From Stdlib.Strings Require Import String Ascii Byte.
From stdpp Require Import base option list gmap strings.

Local Open Scope string_scope.
Local Open Scope Z_scope.

(** ** Exceptions and results *)

(** The exceptions that matter to the control flow of the service. *)
Inductive exn : Type :=
| LoginRequired (msg : string)        (* srtgo SRTLoginError / NeedToLoginError *)
| RailServiceError (code message : string)
| InvalidToken                        (* cryptography.fernet.InvalidToken *)
| UnicodeDecodeError
| ValueError (msg : string)
| IndexError (msg : string)
| OtherException (msg : string).      (* any other subclass of Exception *)

(** [str(e)] *)
Definition exn_str (e : exn) : string :=
  match e with
  | LoginRequired m => m
  | RailServiceError _ m => m
  | InvalidToken => ""
  | UnicodeDecodeError => "'utf-8' codec can't decode bytes"
  | ValueError m => m
  | IndexError m => m
  | OtherException m => m
  end.

(** The outcome of a call: a value, or a raised exception. *)
Inductive outcome (A : Type) : Type :=
| Ok (a : A)
| Raise (e : exn).
Arguments Ok {A} a.
Arguments Raise {A} e.

Definition obind {A B} (r : outcome A) (k : A -> outcome B) : outcome B :=
  match r with
  | Ok a => k a
  | Raise e => Raise e
  end.

Notation "'try!' x <- r ; k" := (obind r (fun x => k))
  (at level 10, x pattern, r at level 100, k at level 200).

(** ** CredentialHandler ([api/core/security.py]) *)

Module Vault.

(** The Fernet primitive of the [cryptography] package.  [Fernet.encrypt]
    draws a timestamp and an IV; they are the [fernet_nonce]. *)
Class Fernet := {
  fernet_key : Type;
  fernet_nonce : Type;
  fernet_encrypt : fernet_key -> fernet_nonce -> list byte -> list byte;
  fernet_decrypt : fernet_key -> list byte -> option (list byte)
}.

(** What the library promises: a token opens under the key that made it. *)
Class FernetCorrect (F : Fernet) : Prop :=
  fernet_decrypt_encrypt :
    forall (k : fernet_key) (n : fernet_nonce) (m : list byte),
      fernet_decrypt k (fernet_encrypt k n m) = Some m.

Definition in_range (lo hi x : N) : bool := ((lo <=? x) && (x <=? hi))%N.
Definition cont (x : N) : bool := in_range 128 191 x.

(** Second byte of a three-byte sequence (no overlong forms, no
    surrogates). *)
Definition second3 (b0 b1 : N) : bool :=
  if (b0 =? 224)%N then in_range 160 191 b1
  else if (b0 =? 237)%N then in_range 128 159 b1
  else cont b1.

(** Second byte of a four-byte sequence (no overlong forms, at most
    U+10FFFF). *)
Definition second4 (b0 b1 : N) : bool :=
  if (b0 =? 240)%N then in_range 144 191 b1
  else if (b0 =? 244)%N then in_range 128 143 b1
  else cont b1.

(** Well-formed UTF-8, as the strict codec accepts it. *)
Fixpoint utf8_wf (bs : list N) : bool :=
  match bs with
  | [] => true
  | b0 :: r1 =>
    if (b0 <=? 127)%N then utf8_wf r1 else
    match r1 with
    | [] => false
    | b1 :: r2 =>
      if in_range 194 223 b0 then cont b1 && utf8_wf r2 else
      match r2 with
      | [] => false
      | b2 :: r3 =>
        if in_range 224 239 b0 then second3 b0 b1 && cont b2 && utf8_wf r3 else
        match r3 with
        | [] => false
        | b3 :: r4 =>
          in_range 240 244 b0 && second4 b0 b1 && cont b2 && cont b3
          && utf8_wf r4
        end
      end
    end
  end.

(** [s.encode("utf-8")] *)
Definition encode_utf8 (s : string) : list byte := list_byte_of_string s.

(** [b.decode("utf-8")] *)
Definition decode_utf8 (b : list byte) : outcome string :=
  if utf8_wf (map Byte.to_N b) then Ok (string_of_list_byte b)
  else Raise UnicodeDecodeError.

(** The strings that are Python [str] values. *)
Definition is_str (s : string) : Prop :=
  utf8_wf (map Byte.to_N (list_byte_of_string s)) = true.

(** The separator ["\x00"]. *)
Definition NUL : ascii := Ascii.zero.

(** Cut [s] at the first occurrence of [sep]; [None] when there is none. *)
Fixpoint split_once (sep : ascii) (s : string) : option (string * string) :=
  match s with
  | EmptyString => None
  | String c r =>
    if Ascii.eqb c sep then Some (EmptyString, r)
    else match split_once sep r with
         | Some (a, b) => Some (String c a, b)
         | None => None
         end
  end.

(** [s.split(sep, 1)] for a one-character separator. *)
Definition str_split1 (sep : ascii) (s : string) : list string :=
  match split_once sep s with
  | Some (a, b) => [a; b]
  | None => [s]
  end.

Section Handler.
Context {F : Fernet}.
(** [self._key], generated by [__init__] at process start. *)
Variable key : fernet_key.

(** [CredentialHandler.encrypt] *)
Definition encrypt (n : fernet_nonce) (user_id password : string) : list byte :=
  let combined := encode_utf8 (user_id +:+ String NUL password) in
  fernet_encrypt key n combined.

(** [CredentialHandler.decrypt]; the tuple assignment needs exactly two
    parts. *)
Definition decrypt (encrypted : list byte) : outcome (string * string) :=
  match fernet_decrypt key encrypted with
  | None => Raise InvalidToken
  | Some plain =>
    try! decrypted <- decode_utf8 plain;
    match str_split1 NUL decrypted with
    | [user_id; password] => Ok (user_id, password)
    | _ => Raise (ValueError "not enough values to unpack (expected 2, got 1)")
    end
  end.
End Handler.

(** [CredentialHandler.secure_delete]: every position is overwritten. *)
Definition secure_delete (data : list byte) : list byte :=
  map (fun _ => x00) data.

End Vault.

(** ** Enumerations ([api/models/enums.py]) *)

Inductive SeatType : Type :=
| GENERAL_FIRST | GENERAL_ONLY | SPECIAL_FIRST | SPECIAL_ONLY.

Inductive JobStatus : Type :=
| PENDING | RUNNING | SUCCESS | FAILED | CANCELLED.

Global Instance SeatType_eq_dec : EqDecision SeatType.
Proof. solve_decision. Defined.
Global Instance JobStatus_eq_dec : EqDecision JobStatus.
Proof. solve_decision. Defined.

(** [x in xs] for an enumeration or a string. *)
Definition member {A} `{EqDecision A} (x : A) (xs : list A) : bool :=
  existsb (fun y => bool_decide (x = y)) xs.

(** ** Request schemas ([api/models/schemas.py]) *)

Record PassengerCount : Type := {
  adult : Z;
  child : Z;
  senior : Z;
  disability_1_3 : Z;
  disability_4_6 : Z;
  toddler : Z
}.

(** [PassengerCount.total] *)
Definition total (p : PassengerCount) : Z :=
  adult p + child p + senior p + disability_1_3 p + disability_4_6 p + toddler p.

(** [PassengerCount.validate_total] *)
Definition validate_total (p : PassengerCount) : bool :=
  (1 <=? total p) && (total p <=? 9).

(** [Field(ge=lo, le=hi)] on an integer field. *)
Definition Field_ge_le (lo hi x : Z) : bool := (lo <=? x) && (x <=? hi).

(** The constraints pydantic enforces when it builds a [PassengerCount]:
    the six [Field] declarations, and nothing else. *)
Definition PassengerCount_accepts (p : PassengerCount) : bool :=
  Field_ge_le 0 9 (adult p) && Field_ge_le 0 9 (child p)
  && Field_ge_le 0 9 (senior p) && Field_ge_le 0 9 (disability_1_3 p)
  && Field_ge_le 0 9 (disability_4_6 p) && Field_ge_le 0 9 (toddler p).

(** [PassengerCount()] with the field defaults. *)
Definition PassengerCount_default : PassengerCount :=
  {| adult := 1; child := 0; senior := 0;
     disability_1_3 := 0; disability_4_6 := 0; toddler := 0 |}.

Definition is_digit (c : ascii) : bool :=
  let n := nat_of_ascii c in (48 <=? n)%nat && (n <=? 57)%nat.

Fixpoint all_digits (s : string) : bool :=
  match s with
  | EmptyString => true
  | String c r => is_digit c && all_digits r
  end.

(** [pattern=r"^\d{n}$"], on decimal digits. *)
Definition digits_pattern (n : nat) (s : string) : bool :=
  (String.length s =? n)%nat && all_digits s.

Record JobCreateRequest : Type := {
  req_departure : string;
  req_arrival : string;
  req_date : string;
  req_time : string;
  req_passengers : PassengerCount;
  req_seat_type : SeatType;
  req_selected_trains : list Z;
  req_prefer_window : bool;
  req_use_standby : bool;
  req_train_types : option (list string)
}.

(** The validation a [JobCreateRequest] undergoes at the boundary: the
    declared field constraints.  [create_job] validates nothing more. *)
Definition JobCreateRequest_accepts (r : JobCreateRequest) : bool :=
  digits_pattern 8 (req_date r) && digits_pattern 6 (req_time r)
  && PassengerCount_accepts (req_passengers r)
  && (1 <=? length (req_selected_trains r))%nat.

(** A searched train, as [RailService._normalize_train] reports it. *)
Record Train : Type := {
  train_name : string;
  train_number : string;
  dep_time : string;
  general_seat_available : bool;
  special_seat_available : bool;
  standby_available : bool
}.

(** A reservation, as [RailService._normalize_reservation] reports it. *)
Record Reservation : Type := {
  reservation_number : string;
  res_train_name : string;
  res_train_number : string;
  dep_station : string;
  arr_station : string;
  dep_date : string;
  res_dep_time : string;
  arr_time : string;
  seat_count : Z;
  total_cost : Z;
  is_paid : bool;
  is_waiting : bool
}.

(** ** Sessions and jobs: the data ([api/core/session.py],
       [api/services/job_service.py]) *)

(** An authenticated client handle ([SRT] or [Korail] instance). *)
Definition client : Type := nat.

Record UserInfo : Type := {
  name : option string;
  membership_number : option string
}.

(** [Session].  [jobs] holds references into [JobService._jobs]: the keys
    are kept, in insertion order. *)
Record Session : Type := {
  session_id : string;
  rail_type : string;
  encrypted_credentials : list byte;
  user_info : UserInfo;
  expires_at : Z;
  rail_client : option client;
  jobs : list string;
  websocket_connections : gset nat
}.

Definition set_rail_client (c : option client) (s : Session) : Session :=
  {| session_id := session_id s; rail_type := rail_type s;
     encrypted_credentials := encrypted_credentials s;
     user_info := user_info s; expires_at := expires_at s;
     rail_client := c; jobs := jobs s;
     websocket_connections := websocket_connections s |}.

Definition set_user_info (u : UserInfo) (s : Session) : Session :=
  {| session_id := session_id s; rail_type := rail_type s;
     encrypted_credentials := encrypted_credentials s;
     user_info := u; expires_at := expires_at s;
     rail_client := rail_client s; jobs := jobs s;
     websocket_connections := websocket_connections s |}.

Definition set_expires_at (x : Z) (s : Session) : Session :=
  {| session_id := session_id s; rail_type := rail_type s;
     encrypted_credentials := encrypted_credentials s;
     user_info := user_info s; expires_at := x;
     rail_client := rail_client s; jobs := jobs s;
     websocket_connections := websocket_connections s |}.

(** [session.jobs[job_id] = job] *)
Definition add_job (j : string) (s : Session) : Session :=
  {| session_id := session_id s; rail_type := rail_type s;
     encrypted_credentials := encrypted_credentials s;
     user_info := user_info s; expires_at := expires_at s;
     rail_client := rail_client s;
     jobs := if member j (jobs s) then jobs s else (jobs s ++ [j])%list;
     websocket_connections := websocket_connections s |}.

(** The data attributes of a [JobData] object (its [task] attribute is
    the [Task] kept next to it in [Job]). *)
Record JobData : Type := {
  job_id : string;
  job_session_id : string;
  departure : string;
  arrival : string;
  date : string;
  time : string;
  passengers : PassengerCount;
  seat_type : SeatType;
  selected_trains : list Z;
  prefer_window : bool;
  use_standby : bool;
  train_types : option (list string);
  status : JobStatus;
  attempt_count : Z;
  created_at : Z;
  started_at : option Z;
  completed_at : option Z;
  result : option Reservation;
  error : option string;
  cancelled : bool
}.

(** The attributes the service assigns after construction. *)
Record JobProgress : Type := {
  p_status : JobStatus;
  p_attempt_count : Z;
  p_started_at : option Z;
  p_completed_at : option Z;
  p_result : option Reservation;
  p_error : option string;
  p_cancelled : bool
}.

Definition progress (jd : JobData) : JobProgress :=
  {| p_status := status jd; p_attempt_count := attempt_count jd;
     p_started_at := started_at jd; p_completed_at := completed_at jd;
     p_result := result jd; p_error := error jd; p_cancelled := cancelled jd |}.

Definition with_progress (p : JobProgress) (jd : JobData) : JobData :=
  {| job_id := job_id jd; job_session_id := job_session_id jd;
     departure := departure jd; arrival := arrival jd;
     date := date jd; time := time jd; passengers := passengers jd;
     seat_type := seat_type jd; selected_trains := selected_trains jd;
     prefer_window := prefer_window jd; use_standby := use_standby jd;
     train_types := train_types jd;
     status := p_status p; attempt_count := p_attempt_count p;
     created_at := created_at jd; started_at := p_started_at p;
     completed_at := p_completed_at p; result := p_result p;
     error := p_error p; cancelled := p_cancelled p |}.

Definition set_status (x : JobStatus) (jd : JobData) : JobData :=
  with_progress
    {| p_status := x; p_attempt_count := attempt_count jd;
       p_started_at := started_at jd; p_completed_at := completed_at jd;
       p_result := result jd; p_error := error jd;
       p_cancelled := cancelled jd |} jd.

Definition set_attempt_count (x : Z) (jd : JobData) : JobData :=
  with_progress
    {| p_status := status jd; p_attempt_count := x;
       p_started_at := started_at jd; p_completed_at := completed_at jd;
       p_result := result jd; p_error := error jd;
       p_cancelled := cancelled jd |} jd.

Definition set_started_at (x : option Z) (jd : JobData) : JobData :=
  with_progress
    {| p_status := status jd; p_attempt_count := attempt_count jd;
       p_started_at := x; p_completed_at := completed_at jd;
       p_result := result jd; p_error := error jd;
       p_cancelled := cancelled jd |} jd.

Definition set_completed_at (x : option Z) (jd : JobData) : JobData :=
  with_progress
    {| p_status := status jd; p_attempt_count := attempt_count jd;
       p_started_at := started_at jd; p_completed_at := x;
       p_result := result jd; p_error := error jd;
       p_cancelled := cancelled jd |} jd.

Definition set_result (x : option Reservation) (jd : JobData) : JobData :=
  with_progress
    {| p_status := status jd; p_attempt_count := attempt_count jd;
       p_started_at := started_at jd; p_completed_at := completed_at jd;
       p_result := x; p_error := error jd;
       p_cancelled := cancelled jd |} jd.

Definition set_error (x : option string) (jd : JobData) : JobData :=
  with_progress
    {| p_status := status jd; p_attempt_count := attempt_count jd;
       p_started_at := started_at jd; p_completed_at := completed_at jd;
       p_result := result jd; p_error := x;
       p_cancelled := cancelled jd |} jd.

Definition set_cancelled (x : bool) (jd : JobData) : JobData :=
  with_progress
    {| p_status := status jd; p_attempt_count := attempt_count jd;
       p_started_at := started_at jd; p_completed_at := completed_at jd;
       p_result := result jd; p_error := error jd;
       p_cancelled := x |} jd.

(** [JobData.__init__] *)
Definition JobData_init (j sid : string) (r : JobCreateRequest) (now : Z) : JobData :=
  {| job_id := j; job_session_id := sid;
     departure := req_departure r; arrival := req_arrival r;
     date := req_date r; time := req_time r;
     passengers := req_passengers r; seat_type := req_seat_type r;
     selected_trains := req_selected_trains r;
     prefer_window := req_prefer_window r; use_standby := req_use_standby r;
     train_types := req_train_types r;
     status := PENDING; attempt_count := 0; created_at := now;
     started_at := None; completed_at := None; result := None;
     error := None; cancelled := false |}.

(** The terminal statuses. *)
Definition terminal (x : JobStatus) : bool := member x [SUCCESS; FAILED; CANCELLED].

(** ** What the service does to its surroundings *)

(** [EventTypes] ([api/core/websocket.py]) *)
Inductive EventType : Type :=
| JOB_STARTED | SEARCH_PROGRESS | RESERVE_ATTEMPT | RESERVE_SUCCESS
| RESERVE_FAILED | JOB_COMPLETED | JOB_CANCELLED | SESSION_EXPIRED
| ERROR | PONG.

(** The [data] of a broadcast (the elapsed time and the log message, which
    no property here reads, are left out). *)
Inductive payload : Type :=
| StartedData (departure arrival date : string) (selected_train_count : nat)
| ProgressData (attempt_count : Z) (found_trains : nat)
    (available_seats : list (Z * bool * bool * bool)) (available_count : nat)
| AttemptData (train_index : Z) (train_name train_number dep_time : string)
    (seat_type : string) (is_standby : bool)
| ReservationData (r : Reservation)
| SucceededData (total_attempts : Z) (r : Reservation) (is_standby : bool)
| ReserveFailedData (train_index : Z) (error_code error_message : string)
    (retryable : bool) (is_standby : bool)
| FailedData (total_attempts : Z) (final_error : string)
| CancelledData.

(** Calls that leave the service: broadcasts, provider calls through
    [RailService], notifications, the inter-attempt sleep, and the
    teardown calls of a session. *)
Inductive effect : Type :=
| Broadcast (session_id : string) (ty : EventType) (job_id : string) (data : payload)
| SearchTrains (c : option client) (departure arrival date time : string)
    (passengers : PassengerCount)
| Login (rail_type user_id password : string)
| Reserve (c : option client) (train_index : Z) (passengers : PassengerCount)
    (seat_type : SeatType) (prefer_window : bool)
| ReserveStandby (c : option client) (train_index : Z)
    (passengers : PassengerCount) (seat_type : SeatType)
| NotifySuccess (session_id : string) (r : Reservation) (is_standby : bool)
| NotifyFailed (session_id : string) (departure arrival error_message : string)
    (attempt_count : Z)
| Sleep
| CloseWebSocket (ws : nat)
| Logout (c : client).

(** ** The booking loop as a resumable machine *)

(** The locals of one pass of [for idx in job.selected_trains] at the
    moment a reservation is attempted: the search result, the index, its
    train, the kind of attempt, and the indices still to visit. *)
Record attempt : Type := {
  a_trains : list Train;
  a_idx : Z;
  a_train : Train;
  a_is_standby : bool;
  a_rest : list Z
}.

(** Where [_run_booking_loop] is suspended (source line of the [await]). *)
Inductive pc : Type :=
| NotStarted                                   (* task created, not yet run *)
| AtJobStarted                                 (* 219 broadcast JOB_STARTED *)
| AtSearch                                     (* 258 search_trains *)
| AtSearchRelogin                              (* 269 -> 193 RailService.login *)
| AtSearchRetry                                (* 275 search_trains again *)
| AtProgress (trains : list Train)             (* 314 broadcast SEARCH_PROGRESS *)
| AtReserveAttempt (a : attempt)               (* 367 broadcast RESERVE_ATTEMPT *)
| AtReserve (a : attempt)                      (* 386 / 393 *)
| AtReserveRelogin (a : attempt)               (* 403 -> 193 RailService.login *)
| AtReserveRetry (a : attempt)                 (* 410 / 416 *)
| AtReserveSuccess (r : Reservation) (is_standby : bool)   (* 434 *)
| AtJobCompleted (r : Reservation) (is_standby : bool)     (* 441 *)
| AtNotifySuccess                              (* 463 *)
| AtReserveFailed (a : attempt) (code message : string)    (* 473 *)
| AtJobFailed (message : string)               (* 497 *)
| AtNotifyFailed                               (* 515 *)
| AtSleep                                      (* 528 *)
| AtJobCrashed                                 (* 541 *)
| Finished.                                    (* task.done() *)

(** The [asyncio.Task] of a job: where the coroutine waits, whether a
    cancellation is pending for its next resumption, and its local
    [rail_service] (the client handle the service wraps). *)
Record Task : Type := {
  tpc : pc;
  must_cancel : bool;
  rail_service : option client
}.

Record Job : Type := {
  data : JobData;
  task : Task
}.

(** [task.done()] *)
Definition done (t : Task) : bool :=
  match tpc t with Finished => true | _ => false end.

(** [task.cancel()]: no effect on a finished task; otherwise the task is
    resumed with [CancelledError] the next time it runs. *)
Definition Task_cancel (t : Task) : Task :=
  if done t then t
  else {| tpc := tpc t; must_cancel := true; rail_service := rail_service t |}.

Definition at_pc (p : pc) (t : Task) : Task :=
  {| tpc := p; must_cancel := must_cancel t; rail_service := rail_service t |}.

Definition with_service (c : option client) (t : Task) : Task :=
  {| tpc := tpc t; must_cancel := must_cancel t; rail_service := c |}.

(** What the awaited call hands back when the task is resumed.  A
    broadcast returns: [broadcast_to_session] swallows delivery failures. *)
Inductive resume : Type :=
| Resumed                                      (* a broadcast or the sleep returned *)
| Searched (o : outcome (list Train))
| LoggedIn (o : outcome (client * UserInfo))
| Reserved (o : outcome Reservation)
| Notified (o : outcome unit).

(** What a step reads from its surroundings: the clock, and the session's
    notifier ([_get_session_notifier(...).enabled], which may raise). *)
Record env : Type := {
  now : Z;
  notifier_enabled : outcome bool
}.

(** [l[i]] on a Python list. *)
Definition py_getitem {A} (l : list A) (i : Z) : outcome A :=
  let n := Z.of_nat (length l) in
  let j := if i <? 0 then i + n else i in
  if (0 <=? j) && (j <? n) then
    match nth_error l (Z.to_nat j) with
    | Some x => Ok x
    | None => Raise (IndexError "list index out of range")
    end
  else Raise (IndexError "list index out of range").

(** Lines 341-351: the seat-type policy. *)
Definition can_reserve (st : SeatType) (train : Train) : bool :=
  let can_reserve := false in
  let can_reserve :=
    if member st [GENERAL_FIRST; GENERAL_ONLY]
    then general_seat_available train else can_reserve in
  let can_reserve :=
    if negb can_reserve && member st [SPECIAL_FIRST; SPECIAL_ONLY]
    then special_seat_available train else can_reserve in
  let can_reserve :=
    if negb can_reserve && bool_decide (st = GENERAL_FIRST)
    then special_seat_available train else can_reserve in
  let can_reserve :=
    if negb can_reserve && bool_decide (st = SPECIAL_FIRST)
    then general_seat_available train else can_reserve in
  can_reserve.

(** Lines 353-355: standby is looked at only without a direct seat and
    with [use_standby]. *)
Definition can_standby (st : SeatType) (use_standby : bool) (train : Train) : bool :=
  let can_standby := false in
  if negb (can_reserve st train) && use_standby
  then standby_available train else can_standby.

(** Lines 357-361: skip the index, or attempt it ([is_standby]). *)
Inductive decision : Type :=
| Skip
| Attempt (is_standby : bool).

Definition decide_attempt (st : SeatType) (use_standby : bool) (train : Train)
  : decision :=
  let cr := can_reserve st train in
  let cs := can_standby st use_standby train in
  if negb cr && negb cs then Skip
  else Attempt (negb cr && cs).

Definition seat_type_str (is_standby : bool) (train : Train) : string :=
  if is_standby then "standby"
  else if general_seat_available train then "general" else "special".

(** Lines 290-299: the availability summary of the selected indices. *)
Fixpoint available_seats (trains : list Train) (idxs : list Z)
  : outcome (list (Z * bool * bool * bool)) :=
  match idxs with
  | [] => Ok []
  | idx :: rest =>
    if idx <? Z.of_nat (length trains) then
      try! train <- py_getitem trains idx;
      try! tl <- available_seats trains rest;
      Ok ((idx, general_seat_available train, special_seat_available train,
           standby_available train) :: tl)
    else available_seats trains rest
  end.

(** Lines 302-305 *)
Definition available_count (seats : list (Z * bool * bool * bool)) : nat :=
  length (filter (fun '(_, g, sp, sb) => Is_true (g || sp || sb)) seats).

(** Lines 331-361: walk the selected indices up to the first one that is
    attempted. *)
Inductive scan_result : Type :=
| ScanAttempt (a : attempt)
| ScanEnd
| ScanRaise (e : exn).

Fixpoint scan (jd : JobData) (trains : list Train) (idxs : list Z) : scan_result :=
  match idxs with
  | [] => ScanEnd
  | idx :: rest =>
    if cancelled jd then ScanEnd
    else if Z.of_nat (length trains) <=? idx then scan jd trains rest
    else
      match py_getitem trains idx with
      | Raise e => ScanRaise e
      | Ok train =>
        match decide_attempt (seat_type jd) (use_standby jd) train with
        | Skip => scan jd trains rest
        | Attempt sb =>
          ScanAttempt {| a_trains := trains; a_idx := idx; a_train := train;
                         a_is_standby := sb; a_rest := rest |}
        end
      end
  end.

Definition SESSION_EXPIRED_message : string :=
  "세션이 만료되어 재로그인에 실패했습니다.".

Section Engine.
Context {F : Vault.Fernet}.
(** The key of [session_manager._credential_handler]. *)
Variable key : Vault.fernet_key.

(** [SessionManager.get_credentials] *)
Definition get_credentials (s : Session) : outcome (string * string) :=
  Vault.decrypt key (encrypted_credentials s).

(** [_relogin_if_needed] up to its [await]: the credentials the login is
    called with, or [None] when reading them raised (the function then
    returns [False]). *)
Definition relogin_credentials (s : Session) : option (string * string) :=
  match get_credentials s with
  | Ok c => Some c
  | Raise _ => None
  end.

(** [_relogin_if_needed] after its [await]: on success the session gets
    the new client handle and user info. *)
Definition relogin_finish (o : outcome (client * UserInfo)) (s : Session)
  : Session * bool :=
  match o with
  | Ok (c, info) => (set_user_info info (set_rail_client (Some c) s), true)
  | Raise _ => (s, false)
  end.

Definition search_call (svc : option client) (jd : JobData) : effect :=
  SearchTrains svc (departure jd) (arrival jd) (date jd) (time jd) (passengers jd).

Definition reserve_call (svc : option client) (jd : JobData) (a : attempt) : effect :=
  if a_is_standby a
  then ReserveStandby svc (a_idx a) (passengers jd) (seat_type jd)
  else Reserve svc (a_idx a) (passengers jd) (seat_type jd) (prefer_window jd).

(** Lines 526-528, then the loop test at line 252 on wake-up. *)
Definition go_sleep (jd : JobData) : JobData * pc * list effect :=
  (jd, AtSleep, [Sleep]).

(** Lines 536-553: the catch-all handler. *)
Definition on_exception (now : Z) (e : exn) (s : Session) (jd : JobData)
  : JobData * pc * list effect :=
  let jd := set_status FAILED jd in
  let jd := set_completed_at (Some now) jd in
  let jd := set_error (Some (exn_str e)) jd in
  (jd, AtJobCrashed,
   [Broadcast (session_id s) JOB_COMPLETED (job_id jd)
      (FailedData (attempt_count jd) (exn_str e))]).

(** Lines 490-524: the handler of [RailServiceError] around one attempt. *)
Definition on_rail_error (now : Z) (code message : string) (s : Session)
    (jd : JobData) : JobData * pc * list effect :=
  if negb (member code ["RESERVE_SOLD_OUT"; "TRAIN_SEARCH_NO_RESULTS"]) then
    let jd := set_status FAILED jd in
    let jd := set_completed_at (Some now) jd in
    let jd := set_error (Some message) jd in
    (jd, AtJobFailed message,
     [Broadcast (session_id s) JOB_COMPLETED (job_id jd)
        (FailedData (attempt_count jd) message)])
  else go_sleep jd.

(** Lines 471-488: the handler of [RailServiceError] around one
    reservation; the decision to re-raise is taken after the broadcast. *)
Definition on_reserve_error (code message : string) (s : Session)
    (jd : JobData) (a : attempt) : JobData * pc * list effect :=
  (jd, AtReserveFailed a code message,
   [Broadcast (session_id s) RESERVE_FAILED (job_id jd)
      (ReserveFailedData (a_idx a) code message
         (member code ["RESERVE_SOLD_OUT"; "STANDBY_NOT_AVAILABLE"])
         (a_is_standby a))]).

(** Lines 252-264: loop test, attempt counter, search. *)
Definition loop_top (svc : option client) (jd : JobData)
  : JobData * pc * list effect :=
  if cancelled jd then (jd, Finished, [])
  else
    let jd := set_attempt_count (attempt_count jd + 1) jd in
    (jd, AtSearch, [search_call svc jd]).

(** Lines 289-326: summarise and broadcast the search. *)
Definition after_search (now : Z) (trains : list Train) (s : Session)
    (jd : JobData) : JobData * pc * list effect :=
  match available_seats trains (selected_trains jd) with
  | Raise e => on_exception now e s jd
  | Ok seats =>
    (jd, AtProgress trains,
     [Broadcast (session_id s) SEARCH_PROGRESS (job_id jd)
        (ProgressData (attempt_count jd) (length trains) seats
           (available_count seats))])
  end.

(** Lines 331-379: the next index to attempt, if any. *)
Definition for_selected (now : Z) (trains : list Train) (idxs : list Z)
    (s : Session) (jd : JobData) : JobData * pc * list effect :=
  match scan jd trains idxs with
  | ScanAttempt a =>
    (jd, AtReserveAttempt a,
     [Broadcast (session_id s) RESERVE_ATTEMPT (job_id jd)
        (AttemptData (a_idx a) (train_name (a_train a))
           (train_number (a_train a)) (dep_time (a_train a))
           (seat_type_str (a_is_standby a) (a_train a)) (a_is_standby a))])
  | ScanEnd => go_sleep jd
  | ScanRaise e => on_exception now e s jd
  end.

(** Lines 429-439 *)
Definition succeed (now : Z) (r : Reservation) (a : attempt) (s : Session)
    (jd : JobData) : JobData * pc * list effect :=
  let jd := set_status SUCCESS jd in
  let jd := set_completed_at (Some now) jd in
  let jd := set_result (Some r) jd in
  (jd, AtReserveSuccess r (a_is_standby a),
   [Broadcast (session_id s) RESERVE_SUCCESS (job_id jd) (ReservationData r)]).

Definition stepped (s : Session) (t : Task) (x : JobData * pc * list effect)
  : option (Session * JobData * Task * list effect) :=
  let '(jd, p, effs) := x in Some (s, jd, at_pc p t, effs).

(** Resume the coroutine with the value of the call it awaited, and run
    it to its next [await].  [None]: the value is not one this [await]
    can produce. *)
Definition resume_task (e : env) (r : resume) (s : Session) (jd : JobData)
    (t : Task) : option (Session * JobData * Task * list effect) :=
  match tpc t, r with
  | NotStarted, Resumed =>
    (* 215-229 *)
    let jd := set_status RUNNING jd in
    let jd := set_started_at (Some (now e)) jd in
    stepped s t
      (jd, AtJobStarted,
       [Broadcast (session_id s) JOB_STARTED (job_id jd)
          (StartedData (departure jd) (arrival jd) (date jd)
             (length (selected_trains jd)))])
  | AtJobStarted, Resumed =>
    (* 231, 249, 252 *)
    let t := with_service (rail_client s) t in
    stepped s t (loop_top (rail_service t) jd)
  | AtSearch, Searched (Ok trains) => stepped s t (after_search (now e) trains s jd)
  | AtSearch, Searched (Raise (LoginRequired _)) =>
    (* 265-287 *)
    match relogin_credentials s with
    | Some (user_id, password) =>
      stepped s t (jd, AtSearchRelogin, [Login (rail_type s) user_id password])
    | None =>
      stepped s t
        (on_rail_error (now e) "SESSION_EXPIRED" SESSION_EXPIRED_message s jd)
    end
  | AtSearch, Searched (Raise (RailServiceError c m)) =>
    stepped s t (on_rail_error (now e) c m s jd)
  | AtSearch, Searched (Raise x) => stepped s t (on_exception (now e) x s jd)
  | AtSearchRelogin, LoggedIn o =>
    let '(s, ok) := relogin_finish o s in
    if ok then
      (* 271-275 *)
      let t := with_service (rail_client s) t in
      stepped s t (jd, AtSearchRetry, [search_call (rail_service t) jd])
    else
      stepped s t
        (on_rail_error (now e) "SESSION_EXPIRED" SESSION_EXPIRED_message s jd)
  | AtSearchRetry, Searched (Ok trains) =>
    stepped s t (after_search (now e) trains s jd)
  | AtSearchRetry, Searched (Raise (RailServiceError c m)) =>
    stepped s t (on_rail_error (now e) c m s jd)
  | AtSearchRetry, Searched (Raise x) => stepped s t (on_exception (now e) x s jd)
  | AtProgress trains, Resumed =>
    stepped s t (for_selected (now e) trains (selected_trains jd) s jd)
  | AtReserveAttempt a, Resumed =>
    stepped s t (jd, AtReserve a, [reserve_call (rail_service t) jd a])
  | AtReserve a, Reserved (Ok r) => stepped s t (succeed (now e) r a s jd)
  | AtReserve a, Reserved (Raise (LoginRequired _)) =>
    (* 399-427 *)
    match relogin_credentials s with
    | Some (user_id, password) =>
      stepped s t (jd, AtReserveRelogin a, [Login (rail_type s) user_id password])
    | None =>
      stepped s t
        (on_reserve_error "SESSION_EXPIRED" SESSION_EXPIRED_message s jd a)
    end
  | AtReserve a, Reserved (Raise (RailServiceError c m)) =>
    stepped s t (on_reserve_error c m s jd a)
  | AtReserve a, Reserved (Raise x) => stepped s t (on_exception (now e) x s jd)
  | AtReserveRelogin a, LoggedIn o =>
    let '(s, ok) := relogin_finish o s in
    if ok then
      (* 405-421 *)
      let t := with_service (rail_client s) t in
      stepped s t (jd, AtReserveRetry a, [reserve_call (rail_service t) jd a])
    else
      stepped s t
        (on_reserve_error "SESSION_EXPIRED" SESSION_EXPIRED_message s jd a)
  | AtReserveRetry a, Reserved (Ok r) => stepped s t (succeed (now e) r a s jd)
  | AtReserveRetry a, Reserved (Raise (RailServiceError c m)) =>
    stepped s t (on_reserve_error c m s jd a)
  | AtReserveRetry a, Reserved (Raise x) =>
    stepped s t (on_exception (now e) x s jd)
  | AtReserveSuccess r sb, Resumed =>
    (* 441-457 *)
    stepped s t
      (jd, AtJobCompleted r sb,
       [Broadcast (session_id s) JOB_COMPLETED (job_id jd)
          (SucceededData (attempt_count jd) r sb)])
  | AtJobCompleted r sb, Resumed =>
    (* 459-469 *)
    match notifier_enabled e with
    | Ok true => stepped s t (jd, AtNotifySuccess, [NotifySuccess (session_id s) r sb])
    | _ => stepped s t (jd, Finished, [])
    end
  | AtNotifySuccess, Notified _ => stepped s t (jd, Finished, [])
  | AtReserveFailed a c m, Resumed =>
    (* 486-488, then the next index *)
    if negb (member c ["RESERVE_SOLD_OUT"; "STANDBY_NOT_AVAILABLE"])
    then stepped s t (on_rail_error (now e) c m s jd)
    else stepped s t (for_selected (now e) (a_trains a) (a_rest a) s jd)
  | AtJobFailed m, Resumed =>
    (* 511-524 *)
    match notifier_enabled e with
    | Ok true =>
      stepped s t
        (jd, AtNotifyFailed,
         [NotifyFailed (session_id s) (departure jd) (arrival jd) m
            (attempt_count jd)])
    | _ => stepped s t (jd, Finished, [])
    end
  | AtNotifyFailed, Notified _ => stepped s t (jd, Finished, [])
  | AtSleep, Resumed => stepped s t (loop_top (rail_service t) jd)
  | AtJobCrashed, Resumed => stepped s t (jd, Finished, [])
  | _, _ => None
  end.

(** Resume the coroutine with [CancelledError] thrown at its [await].
    Before the first step the body never runs; the broadcasts at lines
    219 and 541 are outside the [try]; everywhere else the handler at
    lines 530-534 runs. *)
Definition throw_cancelled (now : Z) (jd : JobData) (t : Task)
  : option (JobData * Task) :=
  let fin := {| tpc := Finished; must_cancel := false;
                rail_service := rail_service t |} in
  match tpc t with
  | Finished => None
  | NotStarted | AtJobStarted | AtJobCrashed => Some (jd, fin)
  | _ =>
    if negb (cancelled jd) then
      let jd := set_status CANCELLED jd in
      let jd := set_completed_at (Some now) jd in
      Some (jd, fin)
    else Some (jd, fin)
  end.

End Engine.

(** ** The registries and their operations *)

(** [session_manager._sessions] and [job_service._jobs]. *)
Record World : Type := {
  sm_sessions : gmap string Session;
  js_jobs : gmap string Job
}.

(** [Session.is_expired] *)
Definition is_expired (now : Z) (s : Session) : bool := expires_at s <? now.

(** [SessionManager.get_session]; the registry is handed back as the call
    leaves it. *)
Definition get_session (now : Z) (sid : string) (w : World)
  : option Session * World :=
  match sm_sessions w !! sid with
  | Some session =>
    if negb (is_expired now session) then (Some session, w) else (None, w)
  | None => (None, w)
  end.

(** [SessionManager.refresh_session] *)
Definition refresh_session (ttl now : Z) (sid : string) (w : World)
  : bool * World :=
  match sm_sessions w !! sid with
  | Some session =>
    if negb (is_expired now session) then
      (true,
       {| sm_sessions := <[sid := set_expires_at (now + ttl) session]> (sm_sessions w);
          js_jobs := js_jobs w |})
    else (false, w)
  | None => (false, w)
  end.

(** [job.task.cancel()] on the job registered under [j]. *)
Definition cancel_task_of (j : string) (m : gmap string Job) : gmap string Job :=
  alter (fun job => {| data := data job; task := Task_cancel (task job) |}) j m.

(** [SessionManager._destroy_session_internal] (and [destroy_session],
    which only takes the lock around it). *)
Definition destroy_session (sid : string) (w : World)
  : bool * World * list effect :=
  match sm_sessions w !! sid with
  | None => (false, w, [])
  | Some session =>
    (true,
     {| sm_sessions := delete sid (sm_sessions w);
        js_jobs := foldr cancel_task_of (js_jobs w) (jobs session) |},
     (map CloseWebSocket (elements (websocket_connections session))
      ++ match rail_client session with
         | Some c => [Logout c]
         | None => []
         end)%list)
  end.

(** [JobService.create_job]; [j] is the fresh [uuid4], [sid] the key of the
    session the caller holds. *)
Definition create_job (sid : string) (r : JobCreateRequest) (j : string)
    (now : Z) (w : World) : option World :=
  match sm_sessions w !! sid with
  | None => None
  | Some session =>
    let job := {| data := JobData_init j (session_id session) r now;
                  task := {| tpc := NotStarted; must_cancel := false;
                             rail_service := None |} |} in
    Some {| sm_sessions := <[sid := add_job j session]> (sm_sessions w);
            js_jobs := <[j := job]> (js_jobs w) |}
  end.

(** [JobService.cancel_job] *)
Definition cancel_job (now : Z) (j : string) (w : World)
  : bool * World * list effect :=
  match js_jobs w !! j with
  | None => (false, w, [])
  | Some job =>
    if negb (member (status (data job)) [PENDING; RUNNING]) then (false, w, [])
    else
      let jd := set_cancelled true (data job) in
      let jd := set_status CANCELLED jd in
      let jd := set_completed_at (Some now) jd in
      let t := Task_cancel (task job) in
      (true,
       {| sm_sessions := sm_sessions w;
          js_jobs := <[j := {| data := jd; task := t |}]> (js_jobs w) |},
       [Broadcast (job_session_id jd) JOB_CANCELLED (job_id jd) CancelledData])
  end.

Section Steps.
Context {F : Vault.Fernet}.
Variable key : Vault.fernet_key.

(** The event loop runs the task of job [j] up to its next [await]. *)
Definition engine_step (j : string) (e : env) (r : resume) (w : World)
  : option (World * list effect) :=
  match js_jobs w !! j with
  | None => None
  | Some job =>
    if must_cancel (task job) then
      match throw_cancelled (now e) (data job) (task job) with
      | None => None
      | Some (jd, t) =>
        Some ({| sm_sessions := sm_sessions w;
                 js_jobs := <[j := {| data := jd; task := t |}]> (js_jobs w) |},
              [])
      end
    else
      match sm_sessions w !! job_session_id (data job) with
      | None => None
      | Some session =>
        match resume_task key e r session (data job) (task job) with
        | None => None
        | Some (session, jd, t, effs) =>
          Some ({| sm_sessions :=
                     <[job_session_id (data job) := session]> (sm_sessions w);
                   js_jobs := <[j := {| data := jd; task := t |}]> (js_jobs w) |},
                effs)
        end
      end
  end.

(** What can happen to the registries. *)
Inductive label : Type :=
| CreateJob (sid : string) (r : JobCreateRequest) (j : string) (now : Z)
| EngineStep (j : string) (e : env) (r : resume)
| CancelJob (j : string) (now : Z)
| DestroySession (sid : string).

Definition step (l : label) (w : World) : option (World * list effect) :=
  match l with
  | CreateJob sid r j now =>
    match create_job sid r j now w with
    | Some w => Some (w, [])
    | None => None
    end
  | EngineStep j e r => engine_step j e r w
  | CancelJob j now => let '(_, w, effs) := cancel_job now j w in Some (w, effs)
  | DestroySession sid => let '(_, w, effs) := destroy_session sid w in Some (w, effs)
  end.

(** The worlds a schedule passes through, and what it emits. *)
Fixpoint run (ls : list label) (w : World) : option (list World * list effect) :=
  match ls with
  | [] => Some ([], [])
  | l :: ls =>
    match step l w with
    | None => None
    | Some (w1, effs) =>
      match run ls w1 with
      | None => None
      | Some (ws, effs') => Some (w1 :: ws, (effs ++ effs')%list)
      end
    end
  end.
End Steps.

(** Only the engine and [cancel_job] act in the schedule. *)
Definition engine_or_cancel (l : label) : bool :=
  match l with
  | EngineStep _ _ _ | CancelJob _ _ => true
  | CreateJob _ _ _ _ | DestroySession _ => false
  end.

Definition status_of (j : string) (w : World) : option JobStatus :=
  match js_jobs w !! j with
  | Some job => Some (status (data job))
  | None => None
  end.

Definition data_of (j : string) (w : World) : option JobData :=
  match js_jobs w !! j with
  | Some job => Some (data job)
  | None => None
  end.

(** Drop repetitions of the value just seen. *)
Fixpoint squeeze (prev : JobStatus) (l : list JobStatus) : list JobStatus :=
  match l with
  | [] => []
  | x :: l => if bool_decide (x = prev) then squeeze prev l else x :: squeeze x l
  end.

(** The sequence of status values job [j] takes along the worlds [w :: ws]. *)
Definition status_sequence (j : string) (w : World) (ws : list World)
  : list JobStatus :=
  match status_of j w with
  | None => []
  | Some x => x :: squeeze x (omap (status_of j) ws)
  end.

(** [l1] is an initial segment of [l2]. *)
Definition is_prefix (l1 l2 : list JobStatus) : bool :=
  bool_decide (l1 = take (length l1) l2).

(** [sep in s] *)
Fixpoint contains (sep : ascii) (s : string) : bool :=
  match s with
  | EmptyString => false
  | String c r => Ascii.eqb c sep || contains sep r
  end.

(** A stand-in for Fernet on which the statements below can be run: a
    token is the key byte followed by the plaintext. *)
Definition toy_fernet : Vault.Fernet :=
  {| Vault.fernet_key := byte;
     Vault.fernet_nonce := unit;
     Vault.fernet_encrypt := fun k _ m => k :: m;
     Vault.fernet_decrypt := fun k t =>
       match t with
       | k' :: m => if Byte.eqb k k' then Some m else None
       | [] => None
       end |}.

(** A small world on which the statements below can be run. *)
Definition demo_session : Session :=
  {| session_id := "s-1"; rail_type := "SRT";
     encrypted_credentials :=
       Vault.encrypt (F := toy_fernet) x2a tt "1234567890" "p@ssw0rd";
     user_info := {| name := None; membership_number := Some "1234567890" |};
     expires_at := 1800; rail_client := Some 1%nat; jobs := [];
     websocket_connections := {[ 7%nat ]} |}.

Definition demo_world : World :=
  {| sm_sessions := {[ "s-1" := demo_session ]}; js_jobs := ∅ |}.

(** ** Notions used to state the properties *)

(** The attempt a suspended loop is working on. *)
Definition current_attempt (p : pc) : option attempt :=
  match p with
  | AtReserveAttempt a | AtReserve a | AtReserveRelogin a | AtReserveRetry a
  | AtReserveFailed a _ _ => Some a
  | _ => None
  end.

(** The locals of an attempt agree with the search result and with the
    decision taken for the train. *)
Definition attempt_ok (st : SeatType) (us : bool) (a : attempt) : Prop :=
  py_getitem (a_trains a) (a_idx a) = Ok (a_train a)
  /\ decide_attempt st us (a_train a) = Attempt (a_is_standby a).

Definition pc_ok (st : SeatType) (us : bool) (p : pc) : Prop :=
  forall a, current_attempt p = Some a -> attempt_ok st us a.

Definition job_ok (job : Job) : Prop :=
  pc_ok (seat_type (data job)) (use_standby (data job)) (tpc (task job)).

Definition world_ok (w : World) : Prop :=
  forall j job, js_jobs w !! j = Some job -> job_ok job.

(** The reservation calls among some effects: kind and index. *)
Definition reserve_calls (effs : list effect) : list (bool * Z) :=
  omap (fun x =>
          match x with
          | Reserve _ idx _ _ _ => Some (false, idx)
          | ReserveStandby _ idx _ _ => Some (true, idx)
          | _ => None
          end) effs.

Definition demo_passengers : PassengerCount :=
  {| adult := 2; child := 0; senior := 0; disability_1_3 := 0;
     disability_4_6 := 0; toddler := 0 |}.

Definition demo_request (st : SeatType) (standby : bool) : JobCreateRequest :=
  {| req_departure := "Suseo"; req_arrival := "Busan";
     req_date := "20250101"; req_time := "000000";
     req_passengers := demo_passengers; req_seat_type := st;
     req_selected_trains := [0]; req_prefer_window := false;
     req_use_standby := standby; req_train_types := None |}.

Definition demo_train (general special standby : bool) : Train :=
  {| train_name := "SRT"; train_number := "301"; dep_time := "053000";
     general_seat_available := general; special_seat_available := special;
     standby_available := standby |}.

Definition demo_reservation : Reservation :=
  {| reservation_number := "R-1"; res_train_name := "SRT";
     res_train_number := "301"; dep_station := "Suseo";
     arr_station := "Busan"; dep_date := "20250101";
     res_dep_time := "053000"; arr_time := "080000"; seat_count := 2;
     total_cost := 104000; is_paid := false; is_waiting := false |}.

Definition at_time (n : Z) : env := {| now := n; notifier_enabled := Ok false |}.

(** A job with [use_standby] meets a train that only offers standby: up
    to the broadcast of the attempt. *)
Definition standby_schedule : list label :=
  [ CreateJob "s-1" (demo_request GENERAL_FIRST true) "j-1" 0;
    EngineStep "j-1" (at_time 1) Resumed;
    EngineStep "j-1" (at_time 2) Resumed;
    EngineStep "j-1" (at_time 3) (Searched (Ok [demo_train false false true]));
    EngineStep "j-1" (at_time 4) Resumed ].

(** Where the loop can be waiting while the job is [RUNNING], and after it
    took the job to [SUCCESS] or to [FAILED]. *)
Definition running_pc (p : pc) : bool :=
  match p with
  | AtJobStarted | AtSearch | AtSearchRelogin | AtSearchRetry | AtProgress _
  | AtReserveAttempt _ | AtReserve _ | AtReserveRelogin _ | AtReserveRetry _
  | AtReserveFailed _ _ _ | AtSleep => true
  | _ => false
  end.

Definition success_pc (p : pc) : bool :=
  match p with
  | AtReserveSuccess _ _ | AtJobCompleted _ _ | AtNotifySuccess | Finished => true
  | _ => false
  end.

Definition failed_pc (p : pc) : bool :=
  match p with
  | AtJobFailed _ | AtNotifyFailed | AtJobCrashed | Finished => true
  | _ => false
  end.

Definition not_started (p : pc) : bool :=
  match p with NotStarted => true | _ => false end.

(** How the status of a job, its [cancelled] flag and its task fit
    together as long as only the engine and [cancel_job] act on it. *)
Definition job_inv (job : Job) : bool :=
  let jd := data job in
  let t := task job in
  match status jd with
  | PENDING => not_started (tpc t) && negb (must_cancel t) && negb (cancelled jd)
  | RUNNING => running_pc (tpc t) && negb (must_cancel t) && negb (cancelled jd)
  | SUCCESS => success_pc (tpc t) && negb (must_cancel t)
  | FAILED => failed_pc (tpc t) && negb (must_cancel t)
  | CANCELLED => cancelled jd && (must_cancel t || done t)
  end.

(** The status changes the service makes. *)
Definition moves (x y : JobStatus) : bool :=
  match x, y with
  | PENDING, RUNNING | RUNNING, SUCCESS | RUNNING, FAILED
  | RUNNING, CANCELLED | PENDING, CANCELLED => true
  | _, _ => false
  end.

(** [l] continues a status history whose last value is [x]. *)
Fixpoint continues (x : JobStatus) (l : list JobStatus) : bool :=
  match l with
  | [] => true
  | y :: l => moves x y && continues y l
  end.

(** After resuming a [RUNNING] job: it is still running, or the loop just
    took it to [SUCCESS] or [FAILED]. *)
Definition lands (x : JobData * pc * list effect) : bool :=
  let '(jd, p, _) := x in
  match status jd with
  | RUNNING => running_pc p && negb (cancelled jd)
  | SUCCESS => success_pc p
  | FAILED => failed_pc p
  | _ => false
  end.

(** A [GENERAL_FIRST] job finds a general seat at its first attempt and
    reserves it. *)
Definition success_schedule : list label :=
  [ EngineStep "j-1" (at_time 1) Resumed;
    EngineStep "j-1" (at_time 2) Resumed;
    EngineStep "j-1" (at_time 3) (Searched (Ok [demo_train true false false]));
    EngineStep "j-1" (at_time 4) Resumed;
    EngineStep "j-1" (at_time 5) Resumed;
    EngineStep "j-1" (at_time 6) (Reserved (Ok demo_reservation));
    CancelJob "j-1" 7;
    EngineStep "j-1" (at_time 8) Resumed;
    EngineStep "j-1" (at_time 9) Resumed ].

(** [cancel_job] reaches the job before its task ran for the first time. *)
Definition early_cancel_schedule : list label :=
  [ CancelJob "j-1" 1;
    EngineStep "j-1" (at_time 2) Resumed ].

(** The session is destroyed while the loop of a job that has just
    succeeded is still broadcasting. *)
Definition teardown_schedule : list label :=
  [ EngineStep "j-1" (at_time 1) Resumed;
    EngineStep "j-1" (at_time 2) Resumed;
    EngineStep "j-1" (at_time 3) (Searched (Ok [demo_train true false false]));
    EngineStep "j-1" (at_time 4) Resumed;
    EngineStep "j-1" (at_time 5) Resumed;
    EngineStep "j-1" (at_time 6) (Reserved (Ok demo_reservation));
    DestroySession "s-1";
    EngineStep "j-1" (at_time 8) Resumed ].

(** A task waiting at [p], with no cancellation pending. *)
Definition waiting_at (p : pc) (svc : option client) : Task :=
  {| tpc := p; must_cancel := false; rail_service := svc |}.

(** The job after the loop recorded a failure. *)
Definition failed_with (now : Z) (message : string) (jd : JobData) : JobData :=
  set_error (Some message) (set_completed_at (Some now) (set_status FAILED jd)).

(** The session after a successful re-login. *)
Definition relogged (c : client) (info : UserInfo) (s : Session) : Session :=
  set_user_info info (set_rail_client (Some c) s).

(** The search raises the re-login condition once; the re-login succeeds
    and the repeated search finds a seat. *)
Definition relogin_schedule : list label :=
  [ EngineStep "j-1" (at_time 1) Resumed;
    EngineStep "j-1" (at_time 2) Resumed;
    EngineStep "j-1" (at_time 3) (Searched (Raise (LoginRequired "login required")));
    EngineStep "j-1" (at_time 4)
      (LoggedIn (Ok (2%nat, {| name := None; membership_number := None |})));
    EngineStep "j-1" (at_time 5) (Searched (Ok [demo_train true false false]));
    EngineStep "j-1" (at_time 6) Resumed;
    EngineStep "j-1" (at_time 7) Resumed;
    EngineStep "j-1" (at_time 8) (Reserved (Ok demo_reservation)) ].

(** The reservation raises the re-login condition and the re-login is
    refused. *)
Definition relogin_refused_schedule : list label :=
  [ EngineStep "j-1" (at_time 1) Resumed;
    EngineStep "j-1" (at_time 2) Resumed;
    EngineStep "j-1" (at_time 3) (Searched (Ok [demo_train true false false]));
    EngineStep "j-1" (at_time 4) Resumed;
    EngineStep "j-1" (at_time 5) Resumed;
    EngineStep "j-1" (at_time 6) (Reserved (Raise (LoginRequired "login required")));
    EngineStep "j-1" (at_time 7) (LoggedIn (Raise (OtherException "wrong password")));
    EngineStep "j-1" (at_time 8) Resumed;
    EngineStep "j-1" (at_time 9) Resumed ].

Definition demo_job : JobData :=
  set_status RUNNING
    (JobData_init "j-1" "s-1" (demo_request GENERAL_FIRST false) 0).

Definition demo_attempt : attempt :=
  {| a_trains := [demo_train true false false]; a_idx := 0;
     a_train := demo_train true false false; a_is_standby := false;
     a_rest := [] |}.

(** The login calls among some effects. *)
Definition login_calls (effs : list effect) : list effect :=
  List.filter (fun x => match x with Login _ _ _ => true | _ => false end) effs.

(** What a helper of the loop hands to the scheduler: the request
    attributes are untouched, the recorded attempt is sound, and no
    reservation call is among the effects. *)
Definition quiet (st : SeatType) (us : bool) (x : JobData * pc * list effect)
  : Prop :=
  seat_type (fst (fst x)) = st /\ use_standby (fst (fst x)) = us
  /\ pc_ok st us (snd (fst x)) /\ reserve_calls (snd x) = [].

(** ** Further code of the service *)

(** [CredentialHandler.secure_delete] as the loop it is:
    [for i in range(len(data)): data[i] = 0]. *)
Definition secure_delete_loop (data : list byte) : list byte :=
  foldl (fun d i => <[i := x00]> d) data (seq 0 (length data)).

(** [ERROR_MESSAGES] ([api/core/exceptions.py]) *)
Definition ERROR_MESSAGES : list (string * string) :=
  [ ("AUTH_INVALID_CREDENTIALS", "아이디 또는 비밀번호가 올바르지 않습니다");
    ("AUTH_ACCOUNT_LOCKED", "계정이 잠겼습니다. 잠시 후 다시 시도해주세요");
    ("AUTH_IP_BLOCKED", "IP가 차단되었습니다");
    ("SESSION_EXPIRED", "세션이 만료되었습니다. 다시 로그인해주세요");
    ("SESSION_NOT_FOUND", "세션을 찾을 수 없습니다");
    ("SESSION_MISSING", "세션 ID가 필요합니다");
    ("TRAIN_SEARCH_NO_RESULTS", "검색 결과가 없습니다");
    ("TRAIN_SEARCH_INVALID_STATION", "올바르지 않은 역 이름입니다");
    ("TRAIN_SEARCH_INVALID_DATE", "올바르지 않은 날짜입니다");
    ("RESERVE_SOLD_OUT", "매진되었습니다");
    ("RESERVE_DUPLICATE", "이미 예약된 열차입니다");
    ("RESERVE_LIMIT_EXCEEDED", "예약 한도를 초과했습니다");
    ("RESERVE_FAILED", "예약에 실패했습니다");
    ("NETFUNNEL_QUEUE", "대기열에서 기다리는 중입니다");
    ("NETFUNNEL_ERROR", "서버가 혼잡합니다. 잠시 후 다시 시도해주세요");
    ("JOB_NOT_FOUND", "작업을 찾을 수 없습니다");
    ("JOB_ALREADY_RUNNING", "이미 실행 중인 작업입니다");
    ("JOB_ALREADY_COMPLETED", "이미 완료된 작업입니다");
    ("INTERNAL_ERROR", "내부 서버 오류가 발생했습니다") ].

(** [d.get(key)] on a dictionary literal. *)
Fixpoint dict_get (key : string) (d : list (string * string)) : option string :=
  match d with
  | [] => None
  | (k, v) :: d => if String.eqb k key then Some v else dict_get key d
  end.

(** [get_error_message] *)
Definition get_error_message (code : string) : string :=
  match dict_get code ERROR_MESSAGES with
  | Some m => m
  | None => code
  end.

(** [needle in hay] on strings. *)
Fixpoint str_in (needle hay : string) : bool :=
  if String.prefix needle hay then true
  else match hay with
       | EmptyString => false
       | String _ r => str_in needle r
       end.

(** The errors raised at the boundary of the service. *)
Inductive api_error : Type :=
| AuthenticationError (code message : string) (original_error : option string)
| SessionError (code message : string).

Inductive checked (A : Type) : Type :=
| Pass (a : A)
| Fail (e : api_error).
Arguments Pass {A} a.
Arguments Fail {A} e.

(** [SessionManager.require_session]; [None] is an absent header. *)
Definition require_session (now : Z) (session_id : option string) (w : World)
  : checked Session :=
  match session_id with
  | None | Some EmptyString =>
    Fail (SessionError "SESSION_MISSING" (get_error_message "SESSION_MISSING"))
  | Some sid =>
    match fst (get_session now sid w) with
    | Some session => Pass session
    | None =>
      Fail (SessionError "SESSION_EXPIRED" (get_error_message "SESSION_EXPIRED"))
    end
  end.


(** The ids [_cleanup_expired] collects.  Every [is_expired] reads the
    clock for itself: [clock sid] is the reading made for session [sid]. *)
Definition expired_ids (clock : string -> Z) (w : World) : list string :=
  map fst (List.filter (fun '(sid, s) => is_expired (clock sid) s)
             (map_to_list (sm_sessions w))).

(** Destroy the sessions of a list one after the other, as
    [_cleanup_expired] and [stop] do. *)
Definition destroy_all (ids : list string) (w : World) : World * list effect :=
  foldl (fun '(w, effs) sid =>
           let '(_, w', effs') := destroy_session sid w in
           (w', (effs ++ effs')%list))
        (w, []) ids.

(** [SessionManager._cleanup_expired] *)
Definition cleanup_expired (clock : string -> Z) (w : World)
  : World * list effect :=
  destroy_all (expired_ids clock w) w.

(** [SessionManager.stop], after the sweep task was cancelled:
    [for session_id in list(self._sessions.keys())]. *)
Definition stop (w : World) : World * list effect :=
  destroy_all (map fst (map_to_list (sm_sessions w))) w.

Section CreateSession.
Context {F : Vault.Fernet}.
Variable key : Vault.fernet_key.
(** [str.upper], of the Python library. *)
Variable str_upper : string -> string.


End CreateSession.

(** A registry with a session that expired long ago next to a live one. *)
Definition stale_world : World :=
  {| sm_sessions :=
       <[ "s-old" := set_expires_at 100 demo_session ]>
         {[ "s-1" := demo_session ]};
     js_jobs := ∅ |}.


(** The attributes of a job that come from its request and its creation. *)
Definition request_of (jd : JobData)
  : string * string * string * string * string * string * PassengerCount
    * SeatType * list Z * bool * bool * option (list string) * Z :=
  (job_id jd, job_session_id jd, departure jd, arrival jd, date jd, time jd,
   passengers jd, seat_type jd, selected_trains jd, prefer_window jd,
   use_standby jd, train_types jd, created_at jd).

(** The schedule creates no job under the id [j]. *)
Definition creates_not (j : string) (l : label) : bool :=
  match l with
  | CreateJob _ _ j' _ => negb (String.eqb j' j)
  | _ => true
  end.

(** Provider calls and the sleep among some effects. *)
Definition loop_calls (effs : list effect) : list effect :=
  List.filter (fun x => match x with
                        | SearchTrains _ _ _ _ _ _ | Login _ _ _
                        | Reserve _ _ _ _ _ | ReserveStandby _ _ _ _
                        | Sleep => true
                        | _ => false
                        end) effs.

(** The step result [x] carries the request attributes of [jd]. *)
Definition keeps (jd : JobData) (x : JobData * pc * list effect) : Prop :=
  request_of (fst (fst x)) = request_of jd.

(** A re-login replaces the client handle and the user info of the
    session, nothing else. *)
Definition same_registration (s s' : Session) : Prop :=
  session_id s' = session_id s /\ jobs s' = jobs s
  /\ expires_at s' = expires_at s
  /\ encrypted_credentials s' = encrypted_credentials s
  /\ rail_type s' = rail_type s.

(** The demo session right after it created job ["j-1"]. *)
Definition demo_created : World :=
  {| sm_sessions := {[ "s-1" := add_job "j-1" demo_session ]};
     js_jobs :=
       {[ "j-1" :=
            {| data := JobData_init "j-1" "s-1"
                         (demo_request GENERAL_FIRST false) 0;
               task := {| tpc := NotStarted; must_cancel := false;
                          rail_service := None |} |} ]} |}.

(** The two registries agree: a session is registered under its own id,
    every job a session lists is registered as a job of that session, and
    every registered job whose session is still registered is listed by
    it. *)
Definition consistent (w : World) : Prop :=
  (forall sid s, sm_sessions w !! sid = Some s -> session_id s = sid)
  /\ (forall sid s j, sm_sessions w !! sid = Some s -> j ∈ jobs s ->
        exists job, js_jobs w !! j = Some job
                    /\ job_session_id (data job) = sid)
  /\ (forall j job s, js_jobs w !! j = Some job ->
        sm_sessions w !! job_session_id (data job) = Some s -> j ∈ jobs s).

(** Every [CreateJob] of the schedule draws an id that no job known so
    far has. *)
Fixpoint fresh_creates (ls : list label) (known : gset string) : bool :=
  match ls with
  | [] => true
  | CreateJob _ _ j _ :: ls =>
    bool_decide (j ∉ known) && fresh_creates ls ({[j]} ∪ known)
  | _ :: ls => fresh_creates ls known
  end.

(** Two jobs created by the demo session, the first one taken to its
    reservation call. *)
Definition two_jobs_schedule : list label :=
  [ CreateJob "s-1" (demo_request GENERAL_FIRST false) "j-1" 0;
    EngineStep "j-1" (at_time 1) Resumed;
    CreateJob "s-1" (demo_request SPECIAL_ONLY true) "j-2" 1;
    EngineStep "j-1" (at_time 2) Resumed;
    CancelJob "j-2" 3;
    EngineStep "j-1" (at_time 3) (Searched (Ok [demo_train true false false]));
    DestroySession "s-1" ].

(** ** The job routes ([api/routers/jobs.py]) *)

(** The [Job] schema, as [JobData.to_response] fills it. *)
Record JobView : Type := {
  v_id : string;
  v_status : JobStatus;
  v_departure : string;
  v_arrival : string;
  v_date : string;
  v_time : string;
  v_passengers : PassengerCount;
  v_seat_type : SeatType;
  v_selected_trains : list Z;
  v_prefer_window : bool;
  v_use_standby : bool;
  v_train_types : option (list string);
  v_attempt_count : Z;
  v_created_at : Z;
  v_started_at : option Z;
  v_completed_at : option Z;
  v_result : option Reservation;
  v_error : option string
}.

(** [JobData.to_response] *)
Definition to_response (jd : JobData) : JobView :=
  {| v_id := job_id jd; v_status := status jd;
     v_departure := departure jd; v_arrival := arrival jd;
     v_date := date jd; v_time := time jd;
     v_passengers := passengers jd; v_seat_type := seat_type jd;
     v_selected_trains := selected_trains jd;
     v_prefer_window := prefer_window jd; v_use_standby := use_standby jd;
     v_train_types := train_types jd;
     v_attempt_count := attempt_count jd; v_created_at := created_at jd;
     v_started_at := started_at jd; v_completed_at := completed_at jd;
     v_result := result jd; v_error := error jd |}.

(** [JobService.get_job] *)
Definition get_job (j : string) (w : World) : option Job := js_jobs w !! j.

(** [JobService.get_session_jobs]: the values of [session.jobs], which
    are the objects registered in [_jobs] under the same ids. *)
Definition get_session_jobs (session : Session) (w : World) : list JobData :=
  omap (fun j => data <$> js_jobs w !! j) (jobs session).

(** What a route hands to the framework: its return value, a
    [SessionError]/[AuthenticationError] (answered 401 by the handlers of
    [api/main.py]), or an [HTTPException]. *)
Inductive reply (A : Type) : Type :=
| Answer (body : A)
| Refused (e : api_error)
| HTTPException (status_code : Z) (detail : string).
Arguments Answer {A} body.
Arguments Refused {A} e.
Arguments HTTPException {A} status_code detail.

(** [GET /jobs/{job_id}] *)
Definition route_get_job (now : Z) (job_id x_session_id : string) (w : World)
  : reply JobView :=
  match require_session now (Some x_session_id) w with
  | Fail e => Refused e
  | Pass session =>
    match get_job job_id w with
    | None => HTTPException 404 "Job not found"
    | Some job =>
      if negb (String.eqb (job_session_id (data job)) (session_id session))
      then HTTPException 404 "Job not found"
      else Answer (to_response (data job))
    end
  end.

(** [DELETE /jobs/{job_id}]; [now] is the clock at the session check,
    [now'] the one [cancel_job] reads. *)
Definition route_cancel_job (now now' : Z) (job_id x_session_id : string)
    (w : World) : reply string * World * list effect :=
  match require_session now (Some x_session_id) w with
  | Fail e => (Refused e, w, [])
  | Pass session =>
    match get_job job_id w with
    | None => (HTTPException 404 "Job not found", w, [])
    | Some job =>
      if negb (String.eqb (job_session_id (data job)) (session_id session))
      then (HTTPException 404 "Job not found", w, [])
      else
        let '(success, w, effs) := cancel_job now' job_id w in
        if negb success then
          (HTTPException 400
             "Job cannot be cancelled (already completed or failed)", w, effs)
        else (Answer "Job cancelled successfully", w, effs)
    end
  end.

(** [GET /jobs]; [now'] is the clock [refresh_session] reads. *)
Definition route_list_jobs (ttl now now' : Z) (x_session_id : string)
    (w : World) : reply (list JobView) * World :=
  match require_session now (Some x_session_id) w with
  | Fail e => (Refused e, w)
  | Pass session =>
    let '(_, w) := refresh_session ttl now' x_session_id w in
    (Answer (map to_response (get_session_jobs session w)), w)
  end.


(** A second session beside the demo session, and a job of each. *)
Definition other_session : Session :=
  {| session_id := "s-2"; rail_type := "KTX";
     encrypted_credentials :=
       Vault.encrypt (F := toy_fernet) x2a tt "guest" "secret";
     user_info := {| name := None; membership_number := None |};
     expires_at := 1800; rail_client := Some 2%nat; jobs := ["j-2"];
     websocket_connections := ∅ |}.

Definition shared_world : World :=
  {| sm_sessions := {[ "s-1" := add_job "j-1" demo_session;
                       "s-2" := other_session ]};
     js_jobs :=
       {[ "j-1" :=
            {| data := JobData_init "j-1" "s-1"
                         (demo_request GENERAL_FIRST false) 0;
               task := {| tpc := NotStarted; must_cancel := false;
                          rail_service := None |} |};
          "j-2" :=
            {| data := JobData_init "j-2" "s-2"
                         (demo_request SPECIAL_ONLY true) 5;
               task := {| tpc := NotStarted; must_cancel := false;
                          rail_service := None |} |} ]} |}.

(** ** What the records of a job say, by status *)

Definition is_some {A} (o : option A) : bool :=
  match o with Some _ => true | None => false end.

(** Started, and nothing concluded yet. *)
Definition fresh_run (jd : JobData) : bool :=
  is_some (started_at jd) && negb (is_some (completed_at jd))
  && negb (is_some (result jd)) && negb (is_some (error jd)).

(** The records of a job whose loop waits at [p]. *)
Definition records_at (jd : JobData) (p : pc) : bool :=
  match status jd with
  | PENDING =>
    negb (is_some (started_at jd)) && negb (is_some (completed_at jd))
    && negb (is_some (result jd)) && negb (is_some (error jd))
    && (attempt_count jd =? 0)
  | RUNNING =>
    fresh_run jd
    && match p with
       | AtJobStarted => attempt_count jd =? 0
       | _ => 1 <=? attempt_count jd
       end
  | SUCCESS =>
    is_some (started_at jd) && is_some (completed_at jd)
    && is_some (result jd) && negb (is_some (error jd))
    && (1 <=? attempt_count jd)
  | FAILED =>
    is_some (started_at jd) && is_some (completed_at jd)
    && negb (is_some (result jd)) && is_some (error jd)
    && (1 <=? attempt_count jd)
  | CANCELLED =>
    is_some (completed_at jd) && negb (is_some (result jd))
    && negb (is_some (error jd)) && (0 <=? attempt_count jd)
  end.

(** The same, for a reader who does not see where the loop waits. *)
Definition records_ok (jd : JobData) : bool :=
  match status jd with
  | RUNNING => fresh_run jd && (0 <=? attempt_count jd)
  | _ => records_at jd Finished
  end.

Definition rec_lands (x : JobData * pc * list effect) : bool :=
  records_at (fst (fst x)) (snd (fst x)).

(** A running job one of whose selected indices lies below the range of
    a one-train search result. *)
Definition stray_job : JobData :=
  set_status RUNNING
    (JobData_init "j-1" "s-1"
       {| req_departure := "Suseo"; req_arrival := "Busan";
          req_date := "20250101"; req_time := "000000";
          req_passengers := demo_passengers; req_seat_type := GENERAL_FIRST;
          req_selected_trains := [0; -2]; req_prefer_window := false;
          req_use_standby := false; req_train_types := None |} 0).

(** ** RailService ([api/services/rail_service.py]) *)

(** The passenger classes of the provider libraries ([SRTAdult] and
    [AdultPassenger] are both [Adult], and so on), with their counts. *)
Inductive PassengerKind : Type :=
| Adult | Child | Senior | Disability1To3 | Disability4To6 | Toddler.

(** [RailService._build_search_passenger_list] *)
Definition build_search_passenger_list (passengers : PassengerCount)
  : list (PassengerKind * Z) :=
  let total_count := total passengers in
  let total_count := if total_count <=? 0 then 1 else total_count in
  [(Adult, total_count)].

(** [if n > 0: passenger_list.append(kind(n))] *)
Definition append_if_positive (kind : PassengerKind) (n : Z)
    (l : list (PassengerKind * Z)) : list (PassengerKind * Z) :=
  if 0 <? n then (l ++ [(kind, n)])%list else l.

(** [RailService._build_reserve_passenger_list] *)
Definition build_reserve_passenger_list (is_srt : bool)
    (passengers : PassengerCount) : list (PassengerKind * Z) :=
  let l := [] in
  let l := append_if_positive Adult (adult passengers) l in
  let l := append_if_positive Child (child passengers) l in
  let l := append_if_positive Senior (senior passengers) l in
  let l := append_if_positive Disability1To3 (disability_1_3 passengers) l in
  let l := append_if_positive Disability4To6 (disability_4_6 passengers) l in
  let l := if is_srt then l
           else append_if_positive Toddler (toddler passengers) l in
  match l with
  | [] => [(Adult, 1)]
  | _ => l
  end.

(** The travellers a passenger list stands for. *)
Definition head_count (l : list (PassengerKind * Z)) : Z :=
  fold_right (fun x acc => snd x + acc) 0 l.

(** What a call into the provider library comes back with: its value, or
    an exception that [except Exception] catches, with its [str()]. *)
Inductive answer (A : Type) : Type :=
| Returned (a : A)
| Threw (error_msg : string).
Arguments Returned {A} a.
Arguments Threw {A} error_msg.

(** A [RailService] object: the provider flag, the client handle and the
    trains of the last successful search, each train by what
    [_normalize_train] reads off it. *)
Record RailService : Type := {
  rs_is_srt : bool;
  rs_client : client;
  last_trains : list Train
}.

(** [RailService.create] *)
Definition RailService_create (is_srt : bool) (c : client) : RailService :=
  {| rs_is_srt := is_srt; rs_client := c; last_trains := [] |}.

Definition TRAIN_NOT_FOUND_message : string :=
  "열차를 찾을 수 없습니다. 다시 검색해주세요.".

Definition STANDBY_NOT_AVAILABLE_message : string :=
  "해당 열차는 예약대기가 불가능합니다.".

(** [RailService.search_trains], given the provider's answer to the
    search. *)
Definition search_trains (svc : RailService) (provider : answer (list Train))
  : outcome (list Train) * RailService :=
  match provider with
  | Returned trains =>
    (Ok trains,
     {| rs_is_srt := rs_is_srt svc; rs_client := rs_client svc;
        last_trains := trains |})
  | Threw error_msg =>
    if str_in "역" error_msg then
      (Raise (RailServiceError "TRAIN_SEARCH_INVALID_STATION"
                (get_error_message "TRAIN_SEARCH_INVALID_STATION")), svc)
    else
      (Raise (RailServiceError "TRAIN_SEARCH_NO_RESULTS"
                (get_error_message "TRAIN_SEARCH_NO_RESULTS")), svc)
  end.

(** [RailService.reserve], given the provider's answer to the
    reservation (which is asked for only past the two checks). *)
Definition reserve (svc : RailService) (train_index : Z)
    (provider : answer Reservation) : outcome Reservation :=
  if Z.of_nat (length (last_trains svc)) <=? train_index then
    Raise (RailServiceError "TRAIN_NOT_FOUND" TRAIN_NOT_FOUND_message)
  else
    try! train <- py_getitem (last_trains svc) train_index;
    match provider with
    | Returned reservation => Ok reservation
    | Threw error_msg =>
      if str_in "매진" error_msg || str_in "잔여석" error_msg then
        Raise (RailServiceError "RESERVE_SOLD_OUT"
                 (get_error_message "RESERVE_SOLD_OUT"))
      else if str_in "중복" error_msg || str_in "이미" error_msg then
        Raise (RailServiceError "RESERVE_DUPLICATE"
                 (get_error_message "RESERVE_DUPLICATE"))
      else
        Raise (RailServiceError "RESERVE_FAILED"
                 (get_error_message "RESERVE_FAILED"))
    end.

(** [RailService.reserve_standby] *)
Definition reserve_standby (svc : RailService) (train_index : Z)
    (provider : answer Reservation) : outcome Reservation :=
  if Z.of_nat (length (last_trains svc)) <=? train_index then
    Raise (RailServiceError "TRAIN_NOT_FOUND" TRAIN_NOT_FOUND_message)
  else
    try! train <- py_getitem (last_trains svc) train_index;
    if negb (standby_available train) then
      Raise (RailServiceError "STANDBY_NOT_AVAILABLE"
               STANDBY_NOT_AVAILABLE_message)
    else
      match provider with
      | Returned reservation => Ok reservation
      | Threw error_msg =>
        if str_in "대기" error_msg
           && (str_in "불가" error_msg || str_in "없" error_msg) then
          Raise (RailServiceError "STANDBY_NOT_AVAILABLE"
                   STANDBY_NOT_AVAILABLE_message)
        else if str_in "중복" error_msg || str_in "이미" error_msg then
          Raise (RailServiceError "RESERVE_DUPLICATE"
                   (get_error_message "RESERVE_DUPLICATE"))
        else
          Raise (RailServiceError "STANDBY_FAILED"
                   ("예약대기 신청 실패: " +:+ error_msg))
      end.

(** The reservation call of the loop ([job_service.py], lines 381-397)
    through the wrapper. *)
Definition reserve_through (svc : RailService) (a : attempt)
    (provider : answer Reservation) : outcome Reservation :=
  if a_is_standby a then reserve_standby svc (a_idx a) provider
  else reserve svc (a_idx a) provider.

(** The value a step of the loop is resumed with comes out of the
    wrapper. *)
Definition wrapped (r : resume) : Prop :=
  match r with
  | Searched o => exists svc provider, o = fst (search_trains svc provider)
  | Reserved o => exists svc a provider, o = reserve_through svc a provider
  | _ => True
  end.

Definition wrapped_label (l : label) : Prop :=
  match l with
  | EngineStep _ _ r => wrapped r
  | _ => True
  end.


(** The provider refuses every search of a running job: the job keeps
    searching. *)
Definition refused_search_schedule : list label :=
  [ EngineStep "j-1" (at_time 1) Resumed;
    EngineStep "j-1" (at_time 2) Resumed;
    EngineStep "j-1" (at_time 3)
      (Searched (fst (search_trains (RailService_create true 1%nat)
                        (Threw "login required"))));
    EngineStep "j-1" (at_time 4) Resumed;
    EngineStep "j-1" (at_time 5)
      (Searched (fst (search_trains (RailService_create true 1%nat)
                        (Threw "login required")))) ].

(** ** RailService.pay_with_card *)

(** A reservation object of the provider, by what [pay_with_card] reads
    off it: its number ([reservation_number] or [rsv_id]), whether it is
    paid, and its cost. *)
Record ProviderReservation : Type := {
  pr_number : string;
  pr_is_paid : bool;
  pr_total_cost : Z
}.

Record PaymentResult : Type := {
  pay_success : bool;
  pay_reservation_number : string;
  amount_paid : Z;
  pay_message : string
}.

(** Lines 693-698: the first reservation with the number. *)
Fixpoint find_reservation (number : string) (l : list ProviderReservation)
  : option ProviderReservation :=
  match l with
  | [] => None
  | r :: l => if String.eqb (pr_number r) number then Some r
              else find_reservation number l
  end.

(** Lines 756-775: the catch-all handler. *)
Definition payment_error (error_msg : string) : exn :=
  if str_in "카드" error_msg then
    RailServiceError "PAYMENT_CARD_ERROR" ("카드 정보 오류: " +:+ error_msg)
  else if str_in "비밀번호" error_msg then
    RailServiceError "PAYMENT_PASSWORD_ERROR"
      "카드 비밀번호가 올바르지 않습니다."
  else RailServiceError "PAYMENT_FAILED" ("결제 실패: " +:+ error_msg).

(** [RailService.pay_with_card], given the provider's answer to the
    listing of the reservations and to the charge.  The second component
    is the reservation the provider was asked to charge, if it was asked. *)
Definition pay_with_card (reservation_number : string)
    (listing : answer (list ProviderReservation))
    (charge : ProviderReservation -> answer bool)
  : outcome PaymentResult * option ProviderReservation :=
  match listing with
  | Threw error_msg => (Raise (payment_error error_msg), None)
  | Returned reservations =>
    match find_reservation reservation_number reservations with
    | None =>
      (Raise (RailServiceError "PAYMENT_RESERVATION_NOT_FOUND"
                ("예약번호 " +:+ reservation_number +:+ "를 찾을 수 없습니다.")),
       None)
    | Some reservation =>
      if pr_is_paid reservation then
        (Raise (RailServiceError "PAYMENT_ALREADY_PAID"
                  "이미 결제가 완료된 예약입니다."), None)
      else
        let total_cost := pr_total_cost reservation in
        match charge reservation with
        | Returned success =>
          if success then
            (Ok {| pay_success := true;
                   pay_reservation_number := reservation_number;
                   amount_paid := total_cost;
                   pay_message := "결제가 완료되었습니다." |},
             Some reservation)
          else
            (Raise (RailServiceError "PAYMENT_FAILED"
                      "결제 처리 중 오류가 발생했습니다."), Some reservation)
        | Threw error_msg => (Raise (payment_error error_msg), Some reservation)
        end
    end
  end.

(** ** ConnectionManager ([api/core/websocket.py]) *)

(** [ConnectionManager._connections]; a websocket is named by a number. *)
Definition connections_of (session_id : string) (m : gmap string (gset nat))
  : gset nat :=
  default ∅ (m !! session_id).

(** [ConnectionManager.connect], once [accept] has returned. *)
Definition connect (websocket : nat) (session_id : string)
    (m : gmap string (gset nat)) : gmap string (gset nat) :=
  <[session_id := connections_of session_id m ∪ {[websocket]}]> m.

(** [ConnectionManager.disconnect] *)
Definition disconnect (websocket : nat) (session_id : string)
    (m : gmap string (gset nat)) : gmap string (gset nat) :=
  match m !! session_id with
  | Some c =>
    let c := c ∖ {[websocket]} in
    if decide (c = ∅) then delete session_id m else <[session_id := c]> m
  | None => m
  end.

(** [ConnectionManager.get_connection_count] *)
Definition get_connection_count (session_id : string)
    (m : gmap string (gset nat)) : nat :=
  size (connections_of session_id m).

(** [ConnectionManager.broadcast_to_session], run without interleaving;
    [delivers ws] tells whether [ws.send_json] returns.  The result is the
    set of websockets that got the message, and the registry after the
    dead ones were discarded. *)
Definition broadcast_to_session (session_id : string) (delivers : nat -> bool)
    (m : gmap string (gset nat)) : gset nat * gmap string (gset nat) :=
  let connections := connections_of session_id m in
  let dead_connections := filter (fun ws => delivers ws = false) connections in
  (filter (fun ws => delivers ws = true) connections,
   if decide (dead_connections = ∅) then m
   else match m !! session_id with
        | Some c => <[session_id := c ∖ dead_connections]> m
        | None => m
        end).

(** [ConnectionManager.close_session_connections]: the websockets that
    are closed, and the registry. *)
Definition close_session_connections (session_id : string)
    (m : gmap string (gset nat)) : gset nat * gmap string (gset nat) :=
  (connections_of session_id m, delete session_id m).

(** ** The authentication routes ([api/routers/auth.py]) *)

Record SessionResponse : Type := {
  sr_valid : bool;
  sr_expires_at : option Z;
  sr_rail_type : option string
}.

(** [GET /auth/session]; [now] is the clock [get_session] reads, [now']
    the one [refresh_session] reads.  The response is built from the
    session object after the refresh. *)
Definition route_check_session (ttl now now' : Z)
    (x_session_id : option string) (w : World) : SessionResponse * World :=
  let invalid := {| sr_valid := false; sr_expires_at := None;
                    sr_rail_type := None |} in
  match x_session_id with
  | None | Some EmptyString => (invalid, w)
  | Some sid =>
    match fst (get_session now sid w) with
    | None => (invalid, w)
    | Some session =>
      let '(refreshed, w') := refresh_session ttl now' sid w in
      let session := if refreshed then set_expires_at (now' + ttl) session
                     else session in
      ({| sr_valid := true; sr_expires_at := Some (expires_at session);
          sr_rail_type := Some (rail_type session) |}, w')
    end
  end.

(** [POST /auth/logout] *)
Definition route_logout (x_session_id : option string) (w : World)
  : string * World * list effect :=
  match x_session_id with
  | None | Some EmptyString => ("Logged out successfully", w, [])
  | Some sid =>
    let '(_, w, effs) := destroy_session sid w in
    ("Logged out successfully", w, effs)
  end.

(** What holds of a job and its task whoever acts on it, session teardown
    included: a cancellation is pending, or the task is over, or status
    and task fit together. *)
Definition loose_inv (job : Job) : bool :=
  must_cancel (task job) || done (task job) || job_inv job.

(** * Properties *)

(** ** Credential vault *)

Section VaultFacts.
Import Vault.

Lemma utf8_wf_app_lt (n : nat) :
  forall a b : list N,
    (length a < n)%nat -> utf8_wf a = true -> utf8_wf b = true ->
    utf8_wf (a ++ b) = true.
Proof.
  induction n as [|n IH]; intros a b Hn Ha Hb; [lia|].
  destruct a as [|b0 r1]; [exact Hb|].
  cbn [app length utf8_wf] in *.
  destruct (b0 <=? 127)%N; [apply IH; auto; lia|].
  destruct r1 as [|b1 r2]; [discriminate|].
  cbn [app length] in *.
  destruct (in_range 194 223 b0).
  { apply andb_true_iff in Ha as [-> Ha]. apply IH; auto; lia. }
  destruct r2 as [|b2 r3]; [discriminate|].
  cbn [app length] in *.
  destruct (in_range 224 239 b0).
  { apply andb_true_iff in Ha as [-> Ha]. apply IH; auto; lia. }
  destruct r3 as [|b3 r4]; [discriminate|].
  cbn [app length] in *.
  apply andb_true_iff in Ha as [-> Ha]. apply IH; auto; lia.
Qed.

Lemma utf8_wf_app (a b : list N) :
  utf8_wf a = true -> utf8_wf b = true -> utf8_wf (a ++ b) = true.
Proof. apply (utf8_wf_app_lt (S (length a))). lia. Qed.

Lemma list_byte_of_string_app (a b : string) :
  list_byte_of_string (a +:+ b)
  = (list_byte_of_string a ++ list_byte_of_string b)%list.
Proof.
  unfold list_byte_of_string.
  induction a as [|c a IH]; [reflexivity|].
  simpl. now rewrite IH.
Qed.

Lemma combined_is_str (user_id password : string) :
  is_str user_id -> is_str password ->
  is_str (user_id +:+ String NUL password).
Proof.
  unfold is_str. intros Hu Hp.
  rewrite list_byte_of_string_app, map_app.
  apply utf8_wf_app; [exact Hu|].
  exact Hp.
Qed.

(** Cutting at the first separator gives back the two halves as soon as
    the first half is free of the separator. *)
Lemma split_once_first (sep : ascii) (a b : string) :
  contains sep a = false ->
  split_once sep (a +:+ String sep b) = Some (a, b).
Proof.
  induction a as [|c a IH]; simpl; intros H.
  - now rewrite Ascii.eqb_refl.
  - apply orb_false_iff in H as [Hc Ha].
    rewrite Hc, (IH Ha). reflexivity.
Qed.

Lemma decrypt_encrypt_first_separator `{FC : !FernetCorrect F}
    (key : fernet_key) (n : fernet_nonce) (user_id password : string) :
  is_str user_id -> is_str password -> contains NUL user_id = false ->
  decrypt key (encrypt key n user_id password) = Ok (user_id, password).
Proof.
  intros Hu Hp Hsep. unfold decrypt, encrypt.
  rewrite fernet_decrypt_encrypt.
  unfold decode_utf8, encode_utf8.
  rewrite (combined_is_str _ _ Hu Hp).
  rewrite string_of_list_byte_of_string. cbn [obind].
  unfold str_split1. now rewrite split_once_first.
Qed.
End VaultFacts.

Lemma toy_fernet_correct : Vault.FernetCorrect toy_fernet.
Proof.
  intros k n m. cbn. now rewrite (Byte.byte_dec_lb (eq_refl k)).
Qed.

(** C4.  For credentials in which neither the user id nor the password
    contains the separator ["\x00"], decrypting what [encrypt] produced
    with the key of the same handler returns exactly the original pair. *)
Theorem decrypt_encrypt_roundtrip `{FC : !Vault.FernetCorrect F}
    (key : Vault.fernet_key) (n : Vault.fernet_nonce)
    (user_id password : string) :
  Vault.is_str user_id -> Vault.is_str password ->
  contains Vault.NUL user_id = false ->
  contains Vault.NUL password = false ->
  Vault.decrypt key (Vault.encrypt key n user_id password)
  = Ok (user_id, password).
Proof.
  intros Hu Hp Hsep _. now apply decrypt_encrypt_first_separator.
Qed.

Lemma decrypt_encrypt_roundtrip_witness :
  Vault.decrypt (F := toy_fernet) x2a
    (Vault.encrypt (F := toy_fernet) x2a tt "1234567890" "p@ssw0rd")
  = Ok ("1234567890", "p@ssw0rd").
Proof.
  apply (decrypt_encrypt_roundtrip (FC := toy_fernet_correct));
    vm_compute; reflexivity.
Defined.

(** C10.  The round trip also holds when the password itself contains the
    separator: for every user id free of ["\x00"] and every password,
    [split("\x00", 1)] cuts the combined text at its first separator, which
    is the one [encrypt] inserted, and [decrypt] returns the original
    pair. *)
Theorem decrypt_encrypt_separator_in_password `{FC : !Vault.FernetCorrect F}
    (key : Vault.fernet_key) (n : Vault.fernet_nonce)
    (user_id password : string) :
  Vault.is_str user_id -> Vault.is_str password ->
  contains Vault.NUL user_id = false ->
  Vault.str_split1 Vault.NUL (user_id +:+ String Vault.NUL password)
  = [user_id; password]
  /\ Vault.decrypt key (Vault.encrypt key n user_id password)
     = Ok (user_id, password).
Proof.
  intros Hu Hp Hsep. split.
  - unfold Vault.str_split1. now rewrite split_once_first.
  - now apply decrypt_encrypt_first_separator.
Qed.

Lemma decrypt_encrypt_separator_in_password_witness :
  let password := String "p" (String Vault.NUL (String Vault.NUL "w")) in
  contains Vault.NUL password = true
  /\ Vault.decrypt (F := toy_fernet) x2a
       (Vault.encrypt (F := toy_fernet) x2a tt "user@example.com" password)
     = Ok ("user@example.com", password).
Proof.
  intros password. split; [reflexivity|].
  apply (decrypt_encrypt_separator_in_password (FC := toy_fernet_correct));
    vm_compute; reflexivity.
Defined.

(** When the user id contains the separator the pair is not recovered:
    the cut falls inside the user id. *)
Example separator_in_user_id :
  Vault.decrypt (F := toy_fernet) x2a
    (Vault.encrypt (F := toy_fernet) x2a tt (String "a" (String Vault.NUL "b")) "pw")
  = Ok ("a", String "b" (String Vault.NUL "pw")).
Proof. vm_compute. reflexivity. Qed.

(** ** Seat-type policy *)

(** C1.  Reservability under the seat-type policy: [GENERAL_ONLY] needs a
    general seat, [SPECIAL_ONLY] a special seat, [GENERAL_FIRST] a general
    seat or else a special one, [SPECIAL_FIRST] a special seat or else a
    general one; the loop attempts a direct reservation exactly for the
    reservable trains.  A train with only special seats is reservable for a
    [GENERAL_FIRST] job and not for a [GENERAL_ONLY] job. *)
Theorem seat_policy_reservable (jd : JobData) (train : Train) :
  can_reserve (seat_type jd) train
  = match seat_type jd with
    | GENERAL_ONLY => general_seat_available train
    | SPECIAL_ONLY => special_seat_available train
    | GENERAL_FIRST => general_seat_available train || special_seat_available train
    | SPECIAL_FIRST => special_seat_available train || general_seat_available train
    end
  /\ (decide_attempt (seat_type jd) (use_standby jd) train = Attempt false
      <-> can_reserve (seat_type jd) train = true)
  /\ (forall nm num dep sb,
        let only_special :=
          {| train_name := nm; train_number := num; dep_time := dep;
             general_seat_available := false; special_seat_available := true;
             standby_available := sb |} in
        can_reserve GENERAL_FIRST only_special = true
        /\ can_reserve GENERAL_ONLY only_special = false).
Proof.
  split; [|split].
  - destruct (seat_type jd), train as [? ? ? [] [] ?]; reflexivity.
  - unfold decide_attempt, can_standby.
    destruct (can_reserve (seat_type jd) train), (use_standby jd),
      (standby_available train); cbn; split; congruence.
  - intros. split; reflexivity.
Qed.

(** ** Session registry *)

(** C5.  [get_session] returns a session exactly when the id is registered
    and [now <= expires_at]; otherwise it returns nothing; and it leaves
    the registries as they were: the entry is neither removed nor
    extended. *)
Theorem get_session_usable (now : Z) (sid : string) (w : World) :
  (forall session,
      fst (get_session now sid w) = Some session
      <-> sm_sessions w !! sid = Some session /\ now <= expires_at session)
  /\ (fst (get_session now sid w) = None
      <-> sm_sessions w !! sid = None
          \/ exists session,
               sm_sessions w !! sid = Some session /\ expires_at session < now)
  /\ snd (get_session now sid w) = w.
Proof.
  unfold get_session, is_expired.
  destruct (sm_sessions w !! sid) as [s|] eqn:E; cbn.
  - destruct (Z.ltb_spec (expires_at s) now); cbn.
    + split; [|split]; [| |reflexivity].
      * intros s'. split; [discriminate|]. intros [[= <-] ?]. lia.
      * split; [|reflexivity]. intros _. right. exists s. split; [reflexivity|lia].
    + split; [|split]; [| |reflexivity].
      * intros s'. split; [intros [= <-]; split; [reflexivity|lia]|].
        now intros [[= <-] _].
      * split; [discriminate|].
        intros [?|[s' [[= <-] ?]]]; [discriminate|lia].
  - split; [|split]; [| |reflexivity].
    + intros s'. split; [discriminate|]. now intros [? _].
    + split; [now left|reflexivity].
Qed.

(** [refresh_session], by contrast, does extend the entry. *)
Lemma refresh_session_extends (ttl now : Z) (sid : string) (w : World)
    (session : Session) :
  fst (get_session now sid w) = Some session ->
  refresh_session ttl now sid w
  = (true,
     {| sm_sessions := <[sid := set_expires_at (now + ttl) session]> (sm_sessions w);
        js_jobs := js_jobs w |}).
Proof.
  unfold get_session, refresh_session.
  destruct (sm_sessions w !! sid) as [s|]; [|discriminate].
  destruct (negb (is_expired now s)); cbn; [|discriminate].
  intros H. now inversion H.
Qed.

Section RegistryFacts.
Context {F : Vault.Fernet}.
Variable key : Vault.fernet_key.

(** No step of the service registers a session id that was not
    registered before. *)
Lemma step_session_absent (l : label) (w w' : World) (effs : list effect)
    (sid : string) :
  step key l w = Some (w', effs) ->
  sm_sessions w !! sid = None -> sm_sessions w' !! sid = None.
Proof.
  destruct l as [sid' r j t|j e r|j t|sid']; cbn.
  - unfold create_job.
    destruct (sm_sessions w !! sid') as [s|] eqn:E; [|discriminate].
    intros [= <- _] Hsid. cbn.
    rewrite lookup_insert_ne; [exact Hsid|congruence].
  - unfold engine_step.
    destruct (js_jobs w !! j) as [job|]; [|discriminate].
    destruct (must_cancel (task job)).
    + destruct (throw_cancelled _ _ _) as [[jd t]|]; [|discriminate].
      now intros [= <- _].
    + destruct (sm_sessions w !! job_session_id (data job)) eqn:E;
        [|discriminate].
      destruct (resume_task _ _ _ _ _ _) as [[[[s' jd] t] effs']|];
        [|discriminate].
      intros [= <- _] Hsid. cbn.
      rewrite lookup_insert_ne; [exact Hsid|congruence].
  - unfold cancel_job.
    destruct (js_jobs w !! j) as [job|]; [|now intros [= <- _]].
    destruct (negb _); now intros [= <- _].
  - unfold destroy_session.
    destruct (sm_sessions w !! sid') as [s|]; [|now intros [= <- _]].
    intros [= <- _] Hsid. cbn.
    destruct (decide (sid' = sid)) as [->|Hne];
      [apply lookup_delete_eq|now rewrite lookup_delete_ne].
Qed.

Lemma run_session_absent (ls : list label) :
  forall (w : World) (ws : list World) (effs : list effect) (sid : string),
    run key ls w = Some (ws, effs) ->
    sm_sessions w !! sid = None ->
    Forall (fun w' => sm_sessions w' !! sid = None) ws.
Proof.
  induction ls as [|l ls IH]; intros w ws effs sid; cbn.
  - intros [= <- _] _. constructor.
  - destruct (step key l w) as [[w1 effs1]|] eqn:E1; [|discriminate].
    destruct (run key ls w1) as [[ws' effs']|] eqn:E2; [|discriminate].
    intros [= <- _] Hsid.
    pose proof (step_session_absent _ _ _ _ _ E1 Hsid) as H1.
    constructor; [exact H1|]. eapply IH; eauto.
Qed.

(** C9.  [destroy_session] returns true exactly when a session with that
    id was registered, and then the session is removed; a second call
    with the same id returns false, and so does every later call,
    whatever the engine, [cancel_job] and other [destroy_session] calls
    did in between. *)
Theorem destroy_session_idempotent (sid : string) (w : World) :
  let w1 := snd (fst (destroy_session sid w)) in
  (fst (fst (destroy_session sid w)) = true
     <-> is_Some (sm_sessions w !! sid))
  /\ sm_sessions w1 !! sid = None
  /\ fst (fst (destroy_session sid w1)) = false
  /\ (forall ls ws effs,
        run key ls w1 = Some (ws, effs) ->
        Forall (fun w2 => fst (fst (destroy_session sid w2)) = false) ws).
Proof.
  assert (Hfalse : forall w', sm_sessions w' !! sid = None ->
                              fst (fst (destroy_session sid w')) = false).
  { intros w' H. unfold destroy_session. now rewrite H. }
  assert (Hgone : sm_sessions (snd (fst (destroy_session sid w))) !! sid = None).
  { unfold destroy_session.
    destruct (sm_sessions w !! sid) eqn:E; cbn; [apply lookup_delete_eq|exact E]. }
  cbn zeta. split; [|split; [exact Hgone|split; [now apply Hfalse|]]].
  - unfold destroy_session.
    destruct (sm_sessions w !! sid) eqn:E; cbn.
    + split; [eauto|reflexivity].
    + split; [discriminate|]. intros [? ?]. discriminate.
  - intros ls ws effs Hrun.
    eapply Forall_impl; [eapply run_session_absent; eauto|].
    intros w2 H2. now apply Hfalse.
Qed.
End RegistryFacts.

Lemma destroy_session_idempotent_witness :
  fst (fst (destroy_session "s-1" demo_world)) = true
  /\ fst (fst (destroy_session "s-1" (snd (fst (destroy_session "s-1" demo_world)))))
     = false.
Proof.
  destruct (destroy_session_idempotent (F := toy_fernet) x2a "s-1" demo_world)
    as [H1 [_ [H3 _]]].
  split; [apply H1; vm_compute; eauto|exact H3].
Defined.

(** ** Job engine: cancellation *)

(** C6.  [cancel_job] returns false and changes nothing when the job is
    unknown or already [SUCCESS], [FAILED] or [CANCELLED].  Otherwise it
    returns true, and the job has [cancelled] set, status [CANCELLED] and
    the completion time recorded; its task has been asked to stop
    ([Task_cancel], which marks every unfinished task); one
    [JOB_CANCELLED] event goes to the job's session; nothing else
    changes. *)
Theorem cancel_job_contract (now : Z) (j : string) (w : World) :
  match js_jobs w !! j with
  | None => cancel_job now j w = (false, w, [])
  | Some job =>
    if terminal (status (data job)) then cancel_job now j w = (false, w, [])
    else
      exists job',
        cancel_job now j w
        = (true,
           {| sm_sessions := sm_sessions w;
              js_jobs := <[j := job']> (js_jobs w) |},
           [Broadcast (job_session_id (data job)) JOB_CANCELLED
              (job_id (data job)) CancelledData])
        /\ cancelled (data job') = true
        /\ status (data job') = CANCELLED
        /\ completed_at (data job') = Some now
        /\ task job' = Task_cancel (task job)
        /\ (done (task job) = false -> must_cancel (task job') = true)
        /\ data job'
           = with_progress
               {| p_status := CANCELLED;
                  p_attempt_count := attempt_count (data job);
                  p_started_at := started_at (data job);
                  p_completed_at := Some now;
                  p_result := result (data job);
                  p_error := error (data job);
                  p_cancelled := true |} (data job)
  end.
Proof.
  unfold cancel_job.
  destruct (js_jobs w !! j) as [job|]; [|reflexivity].
  destruct (status (data job)) eqn:E; cbn; try reflexivity.
  all: eexists; split; [reflexivity|]; cbn.
  all: repeat split; try reflexivity.
  all: intros Hd; unfold Task_cancel; now rewrite Hd.
Qed.

(** ** Request validation *)

(** C8 (what the code does).  A request whose six passenger buckets are
    all zero passes every check made when it is accepted, although
    [validate_total] rejects its passenger counts; so does a request for
    eighteen passengers. *)
Theorem request_total_not_validated :
  let none := {| adult := 0; child := 0; senior := 0; disability_1_3 := 0;
                 disability_4_6 := 0; toddler := 0 |} in
  let many := {| adult := 9; child := 9; senior := 0; disability_1_3 := 0;
                 disability_4_6 := 0; toddler := 0 |} in
  let request p :=
    {| req_departure := "Suseo"; req_arrival := "Busan";
       req_date := "20250101"; req_time := "000000";
       req_passengers := p; req_seat_type := GENERAL_FIRST;
       req_selected_trains := [0]; req_prefer_window := false;
       req_use_standby := false; req_train_types := None |} in
  JobCreateRequest_accepts (request none) = true
  /\ total none = 0 /\ validate_total none = false
  /\ JobCreateRequest_accepts (request many) = true
  /\ total many = 18 /\ validate_total many = false.
Proof. vm_compute. repeat split. Qed.

(** The per-bucket bounds are enforced. *)
Lemma accepted_buckets_bounded (r : JobCreateRequest) :
  JobCreateRequest_accepts r = true ->
  let p := req_passengers r in
  0 <= adult p <= 9 /\ 0 <= child p <= 9 /\ 0 <= senior p <= 9
  /\ 0 <= disability_1_3 p <= 9 /\ 0 <= disability_4_6 p <= 9
  /\ 0 <= toddler p <= 9.
Proof.
  unfold JobCreateRequest_accepts, PassengerCount_accepts, Field_ge_le.
  intros H. repeat (apply andb_true_iff in H as [H ?]).
  cbn zeta. lia.
Qed.

(** Case analysis on what a resumption computed. *)
Ltac split_match H :=
  repeat match type of H with
         | match ?x with _ => _ end = _ => destruct x eqn:?
         | (if ?x then _ else _) = _ => destruct x eqn:?
         end.

(** ** Job engine: standby gating *)

Section StandbyFacts.
Context {F : Vault.Fernet}.
Variable key : Vault.fernet_key.

(** The setters touch none of the request attributes. *)
Lemma with_progress_request (p : JobProgress) (jd : JobData) :
  seat_type (with_progress p jd) = seat_type jd
  /\ use_standby (with_progress p jd) = use_standby jd.
Proof. split; reflexivity. Qed.

(** The three-way decision, read off the availability flags. *)
Lemma decide_attempt_cases (st : SeatType) (us : bool) (train : Train) :
  match decide_attempt st us train with
  | Skip => can_reserve st train = false
            /\ (us = false \/ standby_available train = false)
  | Attempt true => can_reserve st train = false /\ us = true
                    /\ standby_available train = true
  | Attempt false => can_reserve st train = true
  end.
Proof.
  unfold decide_attempt, can_standby.
  destruct (can_reserve st train), us, (standby_available train); cbn; auto.
Qed.

Lemma scan_attempt_ok (jd : JobData) (trains : list Train) (idxs : list Z)
    (a : attempt) :
  scan jd trains idxs = ScanAttempt a ->
  attempt_ok (seat_type jd) (use_standby jd) a.
Proof.
  induction idxs as [|idx rest IH]; cbn; [discriminate|].
  destruct (cancelled jd); [discriminate|].
  destruct (Z.of_nat (length trains) <=? idx); [exact IH|].
  destruct (py_getitem trains idx) as [train|] eqn:E; [|discriminate].
  destruct (decide_attempt _ _ train) as [|sb] eqn:D; [exact IH|].
  intros [= <-]. split; assumption.
Qed.

Lemma pc_ok_no_attempt (st : SeatType) (us : bool) (p : pc) :
  current_attempt p = None -> pc_ok st us p.
Proof. intros H a Ha. congruence. Qed.

Ltac quiet_parts :=
  unfold quiet; split; [|split; [|split]]; cbn;
  [reflexivity|reflexivity| |reflexivity].

Lemma go_sleep_quiet jd : quiet (seat_type jd) (use_standby jd) (go_sleep jd).
Proof. quiet_parts. now apply pc_ok_no_attempt. Qed.

Lemma on_exception_quiet now x s jd :
  quiet (seat_type jd) (use_standby jd) (on_exception now x s jd).
Proof. quiet_parts. now apply pc_ok_no_attempt. Qed.

Lemma on_rail_error_quiet now c m s jd :
  quiet (seat_type jd) (use_standby jd) (on_rail_error now c m s jd).
Proof.
  unfold on_rail_error. destruct (negb _); [|apply go_sleep_quiet].
  quiet_parts. now apply pc_ok_no_attempt.
Qed.

Lemma on_reserve_error_quiet c m s jd a :
  attempt_ok (seat_type jd) (use_standby jd) a ->
  quiet (seat_type jd) (use_standby jd) (on_reserve_error c m s jd a).
Proof. intros Ha. quiet_parts. intros a' [= <-]. exact Ha. Qed.

Lemma loop_top_quiet svc jd :
  quiet (seat_type jd) (use_standby jd) (loop_top svc jd).
Proof.
  unfold loop_top. destruct (cancelled jd); quiet_parts;
    now apply pc_ok_no_attempt.
Qed.

Lemma after_search_quiet now trains s jd :
  quiet (seat_type jd) (use_standby jd) (after_search now trains s jd).
Proof.
  unfold after_search.
  destruct (available_seats _ _); [|apply on_exception_quiet].
  quiet_parts. now apply pc_ok_no_attempt.
Qed.

Lemma for_selected_quiet now trains idxs s jd :
  quiet (seat_type jd) (use_standby jd) (for_selected now trains idxs s jd).
Proof.
  unfold for_selected. destruct (scan jd trains idxs) as [a| |x] eqn:E.
  - quiet_parts. intros a' [= <-]. eapply scan_attempt_ok; eauto.
  - apply go_sleep_quiet.
  - apply on_exception_quiet.
Qed.

Lemma succeed_quiet now r a s jd :
  quiet (seat_type jd) (use_standby jd) (succeed now r a s jd).
Proof. quiet_parts. now apply pc_ok_no_attempt. Qed.

Lemma stepped_inv s t x s' jd' t' effs :
  stepped s t x = Some (s', jd', t', effs) ->
  s' = s /\ x = (jd', tpc t', effs) /\ t' = at_pc (tpc t') t.
Proof.
  destruct x as [[jd p] effs0]. cbn. intros [= <- <- <- <-]. auto.
Qed.

Create HintDb quiet.
Local Hint Resolve go_sleep_quiet on_exception_quiet on_rail_error_quiet
  on_reserve_error_quiet loop_top_quiet after_search_quiet for_selected_quiet
  succeed_quiet : quiet.

(** One resumption of the loop: either it is quiet, or it makes exactly
    the reservation call of the recorded attempt. *)
Lemma resume_task_calls e r s jd t s' jd' t' effs :
  pc_ok (seat_type jd) (use_standby jd) (tpc t) ->
  resume_task key e r s jd t = Some (s', jd', t', effs) ->
  seat_type jd' = seat_type jd /\ use_standby jd' = use_standby jd
  /\ pc_ok (seat_type jd) (use_standby jd) (tpc t')
  /\ (reserve_calls effs = []
      \/ exists a, current_attempt (tpc t) = Some a
                   /\ reserve_calls effs = [(a_is_standby a, a_idx a)]).
Proof.
  intros Hok H.
  assert (Hq : forall x s0 t0,
             stepped s0 t0 x = Some (s', jd', t', effs) ->
             quiet (seat_type jd) (use_standby jd) x ->
             seat_type jd' = seat_type jd /\ use_standby jd' = use_standby jd
             /\ pc_ok (seat_type jd) (use_standby jd) (tpc t')
             /\ (reserve_calls effs = []
                 \/ exists a, current_attempt (tpc t) = Some a
                              /\ reserve_calls effs = [(a_is_standby a, a_idx a)])).
  { intros x s0 t0 Hs (Q1 & Q2 & Q3 & Q4).
    apply stepped_inv in Hs as (_ & -> & _). cbn in *. auto. }
  unfold resume_task in H.
  destruct (tpc t) eqn:Hpc; destruct r as [|o|o|o|o]; try discriminate H.
  all: try (pose proof (Hok _ eq_refl) as Ha).
  all: split_match H.
  all: try (eapply Hq; [exact H|]; eauto with quiet; fail).
  all: try (eapply Hq; [exact H|]; quiet_parts; now apply pc_ok_no_attempt).
  all: apply stepped_inv in H as (_ & [= <- Hp <-] & _); rewrite <- Hp.
  all: split; [reflexivity|split; [reflexivity|split]].
  all: try (intros a' [= <-]; exact Ha).
  all: first [ left; reflexivity
             | right; eexists; split; [reflexivity|];
               unfold reserve_call; destruct (a_is_standby a); reflexivity ].
Qed.
End StandbyFacts.

Section ScheduleFacts.
Context {F : Vault.Fernet}.
Variable key : Vault.fernet_key.

(** A property kept by every step holds all along a schedule. *)
Lemma run_invariant (P : World -> Prop) :
  (forall l w w' effs, P w -> step key l w = Some (w', effs) -> P w') ->
  forall ls w ws effs,
    P w -> run key ls w = Some (ws, effs) -> Forall P ws.
Proof.
  intros Hstep. induction ls as [|l ls IH]; intros w ws effs Hw; cbn.
  - intros [= <- _]. constructor.
  - destruct (step key l w) as [[w1 effs1]|] eqn:E1; [|discriminate].
    destruct (run key ls w1) as [[ws' effs']|] eqn:E2; [|discriminate].
    intros [= <- _]. constructor; eauto.
Qed.

Lemma Task_cancel_twice (t : Task) :
  Task_cancel (Task_cancel t) = Task_cancel t.
Proof.
  unfold Task_cancel. destruct (done t) eqn:D; [now rewrite D|].
  unfold done in *. cbn. now rewrite D.
Qed.

(** Cancelling the tasks of some jobs changes neither their data nor
    where their tasks wait. *)
Lemma cancel_tasks_lookup (js : list string) (m : gmap string Job)
    (j : string) :
  foldr cancel_task_of m js !! j
  = (fun job => {| data := data job;
                   task := if bool_decide (j ∈ js)
                           then Task_cancel (task job) else task job |})
    <$> (m !! j).
Proof.
  induction js as [|j0 js IH]; cbn.
  - destruct (m !! j) as [[]|]; reflexivity.
  - unfold cancel_task_of at 1.
    destruct (decide (j0 = j)) as [->|Hne].
    + rewrite lookup_alter_eq, IH.
      destruct (m !! j) as [job|]; [|reflexivity]. cbn. do 2 f_equal.
      rewrite (bool_decide_eq_true_2 (j ∈ j :: js)) by apply list_elem_of_here.
      case_bool_decide; [apply Task_cancel_twice|reflexivity].
    + rewrite lookup_alter_ne by exact Hne. rewrite IH.
      destruct (m !! j) as [job|]; [|reflexivity]. cbn. do 2 f_equal.
      rewrite (bool_decide_ext (j ∈ j0 :: js) (j ∈ js))
      by (rewrite elem_of_cons; split; [intros [?|?]; [congruence|assumption]|auto]).
      reflexivity.
Qed.

Lemma cancel_tasks_job (js : list string) (m : gmap string Job)
    (j : string) (job' : Job) :
  foldr cancel_task_of m js !! j = Some job' ->
  exists job, m !! j = Some job /\ data job' = data job
              /\ tpc (task job') = tpc (task job).
Proof.
  rewrite cancel_tasks_lookup.
  destruct (m !! j) as [job|]; [|discriminate]. cbn. intros [= <-].
  exists job. split; [reflexivity|]. split; [reflexivity|]. cbn.
  case_bool_decide; [|reflexivity].
  unfold Task_cancel. now destruct (done (task job)).
Qed.

Lemma throw_cancelled_finished now jd t jd' t' :
  throw_cancelled now jd t = Some (jd', t') ->
  tpc t' = Finished
  /\ seat_type jd' = seat_type jd /\ use_standby jd' = use_standby jd.
Proof.
  unfold throw_cancelled.
  destruct (tpc t), (cancelled jd); cbn; try discriminate;
    intros [= <- <-]; auto.
Qed.

Lemma step_world_ok (l : label) (w w' : World) (effs : list effect) :
  world_ok w -> step key l w = Some (w', effs) -> world_ok w'.
Proof.
  intros Hw. destruct l as [sid r j now|j e r|j now|sid]; cbn.
  - unfold create_job.
    destruct (sm_sessions w !! sid) as [s|]; [|discriminate].
    intros [= <- _] j' job'. cbn.
    destruct (decide (j = j')) as [->|Hne].
    + rewrite lookup_insert_eq. intros [= <-]. now apply pc_ok_no_attempt.
    + rewrite lookup_insert_ne by exact Hne. apply Hw.
  - unfold engine_step.
    destruct (js_jobs w !! j) as [job|] eqn:Hj; [|discriminate].
    pose proof (Hw _ _ Hj) as Hjob.
    destruct (must_cancel (task job)).
    + destruct (throw_cancelled _ _ _) as [[jd t]|] eqn:Ht; [|discriminate].
      apply throw_cancelled_finished in Ht as (Hfin & _).
      intros [= <- _] j' job'. cbn.
      destruct (decide (j = j')) as [->|Hne].
      * rewrite lookup_insert_eq. intros [= <-]. unfold job_ok. cbn.
        rewrite Hfin. now apply pc_ok_no_attempt.
      * rewrite lookup_insert_ne by exact Hne. apply Hw.
    + destruct (sm_sessions w !! _) as [s|]; [|discriminate].
      destruct (resume_task _ _ _ _ _ _) as [[[[s' jd] t] effs']|] eqn:Hr;
        [|discriminate].
      apply resume_task_calls in Hr as (H1 & H2 & H3 & _); [|exact Hjob].
      intros [= <- _] j' job'. cbn.
      destruct (decide (j = j')) as [->|Hne].
      * rewrite lookup_insert_eq. intros [= <-]. unfold job_ok. cbn.
        now rewrite H1, H2.
      * rewrite lookup_insert_ne by exact Hne. apply Hw.
  - unfold cancel_job.
    destruct (js_jobs w !! j) as [job|] eqn:Hj; [|now intros [= <- _]].
    pose proof (Hw _ _ Hj) as Hjob.
    destruct (negb _); [now intros [= <- _]|].
    intros [= <- _] j' job'. cbn.
    destruct (decide (j = j')) as [->|Hne].
    + rewrite lookup_insert_eq. intros [= <-]. unfold job_ok. cbn.
      unfold Task_cancel. now destruct (done (task job)).
    + rewrite lookup_insert_ne by exact Hne. apply Hw.
  - unfold destroy_session.
    destruct (sm_sessions w !! sid) as [s|]; [|now intros [= <- _]].
    intros [= <- _] j' job' Hj'. cbn in Hj'.
    apply cancel_tasks_job in Hj' as (job & Hj & Hd & Hp).
    unfold job_ok. rewrite Hd, Hp. exact (Hw _ _ Hj).
Qed.

Lemma run_world_ok (ls : list label) (w : World) (ws : list World)
    (effs : list effect) :
  world_ok w -> run key ls w = Some (ws, effs) -> Forall world_ok ws.
Proof. apply run_invariant. intros. eapply step_world_ok; eauto. Qed.
End ScheduleFacts.

Section StandbyGating.
Context {F : Vault.Fernet}.
Variable key : Vault.fernet_key.

Lemma reserve_calls_standby c idx pax st effs :
  In (ReserveStandby c idx pax st) effs -> In (true, idx) (reserve_calls effs).
Proof.
  induction effs as [|x effs IH]; cbn; [tauto|].
  intros [->|H]; [now left|].
  destruct x; cbn; auto.
Qed.

Lemma reserve_calls_direct c idx pax st pw effs :
  In (Reserve c idx pax st pw) effs -> In (false, idx) (reserve_calls effs).
Proof.
  induction effs as [|x effs IH]; cbn; [tauto|].
  intros [->|H]; [now left|].
  destruct x; cbn; auto.
Qed.

(** C2.  Along every schedule of the service, started with no jobs,
    whenever the loop of a job issues a standby reservation for an index,
    the train found at that index by the search in progress is not
    reservable under the job's seat-type policy, the job has
    [use_standby] set, and the train offers standby; a direct reservation
    is issued only for a reservable train.  With [use_standby] unset, an
    index whose train is not reservable is passed over: the walk goes on
    with the remaining indices, and neither call is made for it. *)
Theorem standby_gating (w0 : World) (ls : list label) (ws : list World)
    (effs : list effect) (w : World) (j : string) (job : Job) (e : env)
    (r : resume) (w' : World) (effs' : list effect) :
  js_jobs w0 = ∅ ->
  run key ls w0 = Some (ws, effs) ->
  In w (w0 :: ws) ->
  js_jobs w !! j = Some job ->
  engine_step key j e r w = Some (w', effs') ->
  let st := seat_type (data job) in
  let us := use_standby (data job) in
  (forall c idx pax st',
      In (ReserveStandby c idx pax st') effs' ->
      exists a,
        current_attempt (tpc (task job)) = Some a /\ a_idx a = idx
        /\ py_getitem (a_trains a) idx = Ok (a_train a)
        /\ can_reserve st (a_train a) = false /\ us = true
        /\ standby_available (a_train a) = true)
  /\ (forall c idx pax st' pw,
        In (Reserve c idx pax st' pw) effs' ->
        exists a,
          current_attempt (tpc (task job)) = Some a /\ a_idx a = idx
          /\ py_getitem (a_trains a) idx = Ok (a_train a)
          /\ can_reserve st (a_train a) = true)
  /\ (us = false ->
      forall trains idx rest train,
        py_getitem trains idx = Ok train ->
        can_reserve st train = false ->
        scan (data job) trains (idx :: rest) = scan (data job) trains rest).
Proof.
  intros Hempty Hrun Hin Hj Hstep st us.
  assert (Hw0 : world_ok w0).
  { intros j0 job0. rewrite Hempty, lookup_empty. discriminate. }
  assert (Hw : world_ok w).
  { destruct Hin as [<-|Hin]; [exact Hw0|].
    pose proof (run_world_ok key ls w0 ws effs Hw0 Hrun) as Hall.
    rewrite List.Forall_forall in Hall. now apply Hall. }
  pose proof (Hw _ _ Hj) as Hjob.
  assert (Hcalls : reserve_calls effs' = []
                   \/ exists a, current_attempt (tpc (task job)) = Some a
                                /\ reserve_calls effs' = [(a_is_standby a, a_idx a)]).
  { unfold engine_step in Hstep. rewrite Hj in Hstep.
    destruct (must_cancel (task job)).
    - destruct (throw_cancelled _ _ _) as [[jd t]|]; [|discriminate].
      injection Hstep as _ <-. now left.
    - destruct (sm_sessions w !! _) as [s|]; [|discriminate].
      destruct (resume_task _ _ _ _ _ _) as [[[[s' jd] t] effs1]|] eqn:Hr;
        [|discriminate].
      injection Hstep as _ <-.
      now apply resume_task_calls in Hr as (_ & _ & _ & Hc). }
  assert (Hcall : forall sb idx,
             In (sb, idx) (reserve_calls effs') ->
             exists a, current_attempt (tpc (task job)) = Some a
                       /\ a_idx a = idx /\ a_is_standby a = sb
                       /\ attempt_ok st us a).
  { intros sb idx Hc.
    destruct Hcalls as [Hnil|(a & Ha & Hone)].
    - rewrite Hnil in Hc. destruct Hc.
    - rewrite Hone in Hc. destruct Hc as [[= <- <-]|[]].
      exists a. repeat split; auto; now apply (Hjob a Ha). }
  split; [|split].
  - intros c idx pax st' Hc.
    apply reserve_calls_standby, Hcall in Hc as (a & Ha & <- & Hsb & Hgot & Hdec).
    pose proof (decide_attempt_cases st us (a_train a)) as Hd.
    rewrite Hdec, Hsb in Hd. destruct Hd as (? & ? & ?).
    exists a. auto 10.
  - intros c idx pax st' pw Hc.
    apply reserve_calls_direct, Hcall in Hc as (a & Ha & <- & Hsb & Hgot & Hdec).
    pose proof (decide_attempt_cases st us (a_train a)) as Hd.
    rewrite Hdec, Hsb in Hd.
    exists a. auto.
  - intros Hus trains idx rest train Hgot Hcr. cbn.
    destruct (cancelled (data job)) eqn:Hc;
      [destruct rest; cbn; [reflexivity|now rewrite Hc]|].
    destruct (Z.of_nat (length trains) <=? idx); [reflexivity|].
    rewrite Hgot. fold st us.
    pose proof (decide_attempt_cases st us train) as Hd.
    destruct (decide_attempt st us train) as [|[]]; [reflexivity| |].
    + destruct Hd as (_ & Hd & _). congruence.
    + congruence.
Qed.
End StandbyGating.

Lemma standby_gating_witness :
  exists a,
    a_idx a = 0 /\ py_getitem (a_trains a) 0 = Ok (a_train a)
    /\ can_reserve GENERAL_FIRST (a_train a) = false
    /\ standby_available (a_train a) = true.
Proof.
  edestruct (fun ws effs w job =>
               standby_gating (F := toy_fernet) x2a demo_world standby_schedule
                 ws effs w "j-1" job (at_time 5) Resumed)
    as [H _].
  - reflexivity.
  - vm_compute. reflexivity.
  - do 5 right. left. reflexivity.
  - vm_compute. reflexivity.
  - vm_compute. reflexivity.
  - edestruct H as (a & _ & H1 & H2 & H3 & _ & H4); [left; reflexivity|].
    exists a. auto.
Defined.

(** ** Job engine: the status machine *)

Section StatusFacts.
Context {F : Vault.Fernet}.
Variable key : Vault.fernet_key.

Ltac lands_by Hs Hc :=
  cbn; rewrite ?Hs, ?Hc; reflexivity.

Lemma go_sleep_lands jd :
  status jd = RUNNING -> cancelled jd = false -> lands (go_sleep jd) = true.
Proof. intros Hs Hc. lands_by Hs Hc. Qed.

Lemma on_exception_lands now x s jd : lands (on_exception now x s jd) = true.
Proof. reflexivity. Qed.

Lemma on_rail_error_lands now c m s jd :
  status jd = RUNNING -> cancelled jd = false ->
  lands (on_rail_error now c m s jd) = true.
Proof.
  intros Hs Hc. unfold on_rail_error.
  destruct (negb _); [reflexivity|now apply go_sleep_lands].
Qed.

Lemma on_reserve_error_lands c m s jd a :
  status jd = RUNNING -> cancelled jd = false ->
  lands (on_reserve_error c m s jd a) = true.
Proof. intros Hs Hc. lands_by Hs Hc. Qed.

Lemma loop_top_lands svc jd :
  status jd = RUNNING -> cancelled jd = false ->
  lands (loop_top svc jd) = true.
Proof. intros Hs Hc. unfold loop_top. rewrite Hc. lands_by Hs Hc. Qed.

Lemma after_search_lands now trains s jd :
  status jd = RUNNING -> cancelled jd = false ->
  lands (after_search now trains s jd) = true.
Proof.
  intros Hs Hc. unfold after_search.
  destruct (available_seats _ _); [lands_by Hs Hc|reflexivity].
Qed.

Lemma for_selected_lands now trains idxs s jd :
  status jd = RUNNING -> cancelled jd = false ->
  lands (for_selected now trains idxs s jd) = true.
Proof.
  intros Hs Hc. unfold for_selected.
  destruct (scan _ _ _); [lands_by Hs Hc|now apply go_sleep_lands|reflexivity].
Qed.

Lemma succeed_lands now r a s jd : lands (succeed now r a s jd) = true.
Proof. reflexivity. Qed.

Create HintDb lands.
Local Hint Resolve go_sleep_lands on_exception_lands on_rail_error_lands
  on_reserve_error_lands loop_top_lands after_search_lands
  for_selected_lands succeed_lands : lands.

Lemma lands_job_inv x s' jd' t' effs s0 t0 :
  stepped s0 t0 x = Some (s', jd', t', effs) ->
  must_cancel t0 = false ->
  lands x = true ->
  job_inv {| data := jd'; task := t' |} = true
  /\ (status jd' = RUNNING \/ moves RUNNING (status jd') = true).
Proof.
  intros Hs Hm Hl. apply stepped_inv in Hs as (_ & -> & ->).
  unfold job_inv. cbn in *. rewrite Hm.
  destruct (status jd'); try discriminate Hl.
  - apply andb_true_iff in Hl as [-> ->]. auto.
  - rewrite Hl. auto.
  - rewrite Hl. auto.
Qed.

(** One resumption of an uncancelled task keeps the invariant, moves the
    status along the machine or leaves it, and leaves a finished job
    alone. *)
Lemma resume_task_job_inv e r s jd t s' jd' t' effs :
  job_inv {| data := jd; task := t |} = true ->
  must_cancel t = false ->
  resume_task key e r s jd t = Some (s', jd', t', effs) ->
  job_inv {| data := jd'; task := t' |} = true
  /\ (status jd' = status jd \/ moves (status jd) (status jd') = true)
  /\ (terminal (status jd) = true -> jd' = jd).
Proof.
  intros Hinv Hm H. unfold job_inv, done in Hinv. cbn in Hinv.
  rewrite Hm in Hinv. unfold resume_task in H.
  destruct (tpc t) eqn:Hpc; destruct r as [|o|o|o|o]; try discriminate H;
    destruct (status jd) eqn:Hst; try discriminate Hinv;
    cbn in Hinv; try (destruct (cancelled jd) eqn:Hc; try discriminate Hinv).
  all: split_match H.
  all: try (edestruct lands_job_inv as [Hi Hmv];
            [exact H|exact Hm|solve [eauto with lands]|];
            split; [exact Hi|split; [exact Hmv|discriminate]]).
  all: unfold stepped in H; cbn in H; injection H as <- <- <- <-.
  all: unfold job_inv; cbn; rewrite ?Hm, ?Hst, ?Hc; cbn; auto.
  repeat split; auto. intros Ht. vm_compute in Ht. discriminate.
Qed.
(** A pending cancellation is only ever delivered to a job that
    [cancel_job] has already marked: the handler changes nothing. *)
Lemma throw_cancelled_job_inv now jd t jd' t' :
  job_inv {| data := jd; task := t |} = true ->
  must_cancel t = true ->
  throw_cancelled now jd t = Some (jd', t') ->
  job_inv {| data := jd'; task := t' |} = true /\ jd' = jd.
Proof.
  intros Hinv Hm H. unfold job_inv in Hinv. cbn in Hinv. rewrite Hm in Hinv.
  destruct (status jd) eqn:Hst; cbn in Hinv;
    rewrite ?andb_false_r in Hinv; try discriminate Hinv.
  apply andb_true_iff in Hinv as [Hc _].
  unfold throw_cancelled in H. rewrite Hc in H.
  destruct (tpc t); cbn in H; try discriminate H;
    injection H as <- <-; (split; [|reflexivity]);
    unfold job_inv; cbn; now rewrite Hst, Hc.
Qed.

Lemma Task_cancel_marked (t : Task) :
  must_cancel (Task_cancel t) || done (Task_cancel t) = true.
Proof.
  unfold Task_cancel. destruct (done t) eqn:D; cbn;
    [rewrite D; apply orb_true_r|reflexivity].
Qed.

(** What one step of a schedule does to job [j]. *)
Lemma step_job_inv (l : label) (w w' : World) (effs : list effect)
    (j : string) (job : Job) :
  engine_or_cancel l = true ->
  js_jobs w !! j = Some job ->
  job_inv job = true ->
  step key l w = Some (w', effs) ->
  exists job',
    js_jobs w' !! j = Some job' /\ job_inv job' = true
    /\ (status (data job') = status (data job)
        \/ moves (status (data job)) (status (data job')) = true)
    /\ (terminal (status (data job)) = true -> data job' = data job).
Proof.
  intros Hl Hj Hinv.
  destruct l as [sid r j0 now|j0 e r|j0 now|sid]; try discriminate Hl; cbn.
  - unfold engine_step.
    destruct (js_jobs w !! j0) as [job0|] eqn:Hj0; [|discriminate].
    destruct (must_cancel (task job0)) eqn:Hm.
    + destruct (throw_cancelled _ _ _) as [[jd t]|] eqn:Ht; [|discriminate].
      intros [= <- _]. cbn.
      destruct (decide (j0 = j)) as [->|Hne].
      * rewrite lookup_insert_eq. rewrite Hj in Hj0. injection Hj0 as <-.
        destruct job as [jd0 t0]. cbn in *.
        apply throw_cancelled_job_inv in Ht as [Hi ->]; auto.
        eexists. split; [reflexivity|]. cbn. auto.
      * rewrite lookup_insert_ne by exact Hne. exists job. auto.
    + destruct (sm_sessions w !! _) as [s|]; [|discriminate].
      destruct (resume_task _ _ _ _ _ _) as [[[[s' jd] t] effs']|] eqn:Hr;
        [|discriminate].
      intros [= <- _]. cbn.
      destruct (decide (j0 = j)) as [->|Hne].
      * rewrite lookup_insert_eq. rewrite Hj in Hj0. injection Hj0 as <-.
        destruct job as [jd0 t0]. cbn in *.
        apply resume_task_job_inv in Hr as (Hi & Hmv & Hterm); auto.
        eexists. split; [reflexivity|]. cbn. auto.
      * rewrite lookup_insert_ne by exact Hne. exists job. auto.
  - unfold cancel_job.
    destruct (js_jobs w !! j0) as [job0|] eqn:Hj0;
      [|intros [= <- _]; exists job; auto].
    destruct (negb _) eqn:Hneg; [intros [= <- _]; exists job; auto|].
    intros [= <- _]. cbn.
    destruct (decide (j0 = j)) as [->|Hne].
    + rewrite lookup_insert_eq. rewrite Hj in Hj0. injection Hj0 as <-.
      eexists. split; [reflexivity|]. cbn.
      unfold job_inv in *. cbn.
      destruct (status (data job)) eqn:Hst; try discriminate Hneg; cbn.
      * split; [apply Task_cancel_marked|]. split; [now right|].
        intros Ht. vm_compute in Ht. discriminate.
      * split; [apply Task_cancel_marked|]. split; [now right|].
        intros Ht. vm_compute in Ht. discriminate.
    + rewrite lookup_insert_ne by exact Hne. exists job. auto.
Qed.

(** The status history of job [j] along a schedule of the engine and of
    [cancel_job], from a world where the invariant holds. *)
Lemma run_status_history (ls : list label) :
  forall (w : World) (ws : list World) (effs : list effect) (j : string)
         (job : Job),
    forallb engine_or_cancel ls = true ->
    js_jobs w !! j = Some job ->
    job_inv job = true ->
    run key ls w = Some (ws, effs) ->
    continues (status (data job))
      (squeeze (status (data job)) (omap (status_of j) ws)) = true
    /\ (forall i w1 w2 jd,
          (w :: ws) !! i = Some w1 -> ws !! i = Some w2 ->
          data_of j w1 = Some jd -> terminal (status jd) = true ->
          data_of j w2 = Some jd).
Proof.
  induction ls as [|l ls IH]; intros w ws effs j job Hls Hj Hinv; cbn.
  - intros [= <- _]. split; [reflexivity|]. intros i w1 w2 jd _ H.
    now rewrite lookup_nil in H.
  - cbn in Hls. apply andb_true_iff in Hls as [Hl Hls].
    destruct (step key l w) as [[w1 effs1]|] eqn:E1; [|discriminate].
    destruct (run key ls w1) as [[ws' effs']|] eqn:E2; [|discriminate].
    intros [= <- _].
    destruct (step_job_inv _ _ _ _ _ _ Hl Hj Hinv E1)
      as (job1 & Hj1 & Hinv1 & Hmv & Hterm).
    destruct (IH _ _ _ _ _ Hls Hj1 Hinv1 E2) as [IH1 IH2].
    split.
    + cbn. unfold status_of at 1. rewrite Hj1. cbn.
      case_bool_decide as Heq.
      * rewrite <- Heq. exact IH1.
      * cbn. rewrite IH1, andb_true_r.
        destruct Hmv as [Hmv|Hmv]; [congruence|exact Hmv].
    + intros [|i] u1 u2 jd; cbn.
      * intros [= <-] [= <-]. unfold data_of. rewrite Hj, Hj1.
        intros [= <-] Ht. now rewrite (Hterm Ht).
      * apply IH2.
Qed.
End StatusFacts.

Lemma continues_allowed (l : list JobStatus) :
  continues PENDING l = true ->
  (exists T, terminal T = true
             /\ is_prefix (PENDING :: l) [PENDING; RUNNING; T] = true)
  \/ PENDING :: l = [PENDING; CANCELLED].
Proof.
  destruct l as [|x [|y [|z l]]].
  - intros _. left. exists SUCCESS. split; reflexivity.
  - destruct x; try discriminate; intros _;
      [left; exists SUCCESS; split; reflexivity|now right].
  - destruct x; try discriminate; destruct y; try discriminate; intros _;
      left;
      first [ exists SUCCESS; split; reflexivity
            | exists FAILED; split; reflexivity
            | exists CANCELLED; split; reflexivity ].
  - destruct x; try discriminate; destruct y; try discriminate;
      destruct z; discriminate.
Qed.

(** C3 (as amended).  A job made by [create_job] and then taken through
    any interleaving of engine steps and [cancel_job] calls, on this or on
    other jobs, takes a sequence of status values that is a prefix of
    [PENDING, RUNNING, T] with [T] one of [SUCCESS], [FAILED], [CANCELLED],
    or is [PENDING, CANCELLED] when [cancel_job] reaches it before its loop
    has started; and once its status is terminal no step changes any of
    its attributes, the status included.  (A step is what runs between two
    awaits; the assignments that accompany a status change belong to the
    step that makes it.) *)
Theorem job_status_machine {F : Vault.Fernet} (key : Vault.fernet_key)
    (sid : string) (r : JobCreateRequest) (j : string) (t0 : Z)
    (w_pre w0 : World) (ls : list label) (ws : list World)
    (effs : list effect) :
  create_job sid r j t0 w_pre = Some w0 ->
  forallb engine_or_cancel ls = true ->
  run key ls w0 = Some (ws, effs) ->
  ((exists T, terminal T = true
              /\ is_prefix (status_sequence j w0 ws) [PENDING; RUNNING; T] = true)
   \/ status_sequence j w0 ws = [PENDING; CANCELLED])
  /\ (forall i w w' jd,
        (w0 :: ws) !! i = Some w -> ws !! i = Some w' ->
        data_of j w = Some jd -> terminal (status jd) = true ->
        data_of j w' = Some jd).
Proof.
  intros Hcreate Hls Hrun. unfold create_job in Hcreate.
  destruct (sm_sessions w_pre !! sid) as [s|]; [|discriminate].
  injection Hcreate as <-.
  pose proof (fun job Hj Hi =>
                run_status_history key ls _ ws effs j job Hls Hj Hi Hrun) as H.
  edestruct H as [H1 H2]; [cbn; apply lookup_insert_eq|reflexivity|].
  split; [|exact H2].
  unfold status_sequence, status_of. cbn [js_jobs].
  rewrite lookup_insert_eq. cbn [data status JobData_init].
  now apply continues_allowed.
Qed.

Lemma job_status_machine_witness :
  exists w0 ws,
    status_sequence "j-1" w0 ws = [PENDING; RUNNING; SUCCESS]
    /\ ((exists T, terminal T = true
                   /\ is_prefix (status_sequence "j-1" w0 ws)
                        [PENDING; RUNNING; T] = true)
        \/ status_sequence "j-1" w0 ws = [PENDING; CANCELLED]).
Proof.
  edestruct (fun w0 ws effs =>
               job_status_machine (F := toy_fernet) x2a "s-1"
                 (demo_request GENERAL_FIRST false) "j-1" 0 demo_world w0
                 success_schedule ws effs) as [H _].
  - vm_compute. reflexivity.
  - reflexivity.
  - vm_compute. reflexivity.
  - do 2 eexists. split; [|exact H]. vm_compute. reflexivity.
Defined.

(** C3 as it was stated fails: [cancel_job] accepts a [PENDING] job, the
    task is cancelled before its first step and never sets [RUNNING]; the
    history is [PENDING, CANCELLED], a prefix of no [PENDING, RUNNING, T]. *)
Lemma cancel_before_start_skips_running :
  exists w0 ws effs,
    create_job "s-1" (demo_request GENERAL_FIRST false) "j-1" 0 demo_world
    = Some w0
    /\ forallb engine_or_cancel early_cancel_schedule = true
    /\ run (F := toy_fernet) x2a early_cancel_schedule w0 = Some (ws, effs)
    /\ status_sequence "j-1" w0 ws = [PENDING; CANCELLED]
    /\ forall T,
         is_prefix (status_sequence "j-1" w0 ws) [PENDING; RUNNING; T] = false.
Proof.
  do 3 eexists. split; [vm_compute; reflexivity|].
  split; [reflexivity|]. split; [vm_compute; reflexivity|].
  split; [vm_compute; reflexivity|].
  intros T. destruct T; vm_compute; reflexivity.
Qed.

(** Outside the schedules above: when the session is destroyed, the tasks
    of its jobs are cancelled without [cancelled] being set, and the
    handler at lines 530-534 then overwrites the status of a job that had
    already succeeded. *)
Remark teardown_overwrites_success :
  exists w0 ws effs,
    create_job "s-1" (demo_request GENERAL_FIRST false) "j-1" 0 demo_world
    = Some w0
    /\ run (F := toy_fernet) x2a teardown_schedule w0 = Some (ws, effs)
    /\ status_sequence "j-1" w0 ws = [PENDING; RUNNING; SUCCESS; CANCELLED].
Proof.
  do 3 eexists. split; [vm_compute; reflexivity|].
  split; vm_compute; reflexivity.
Qed.

(** ** Job engine: re-authentication *)

(** The handlers of the re-login condition (lines 265-287 and 399-427),
    taken by themselves.  If the search, or the reservation (direct or
    standby), handed the condition to the loop, the loop would read the
    stored credentials and make one login call with them; when the login
    returns, the session gets the new client handle and the same call is
    made once more, through the new handle; if that call raised the
    condition again no further login would be made and the job would fail
    on the catch-all path.  When the credentials cannot be read or the
    login raises, a [RailServiceError] with code [SESSION_EXPIRED] is
    raised; the code is in neither retryable set, and the job ends [FAILED]
    with its message (for a reservation, after the [RESERVE_FAILED]
    broadcast).  The calls the loop awaits are those of [RailService],
    which never hand it the condition: see the section on the loop behind
    the wrapper. *)
Theorem relogin_once {F : Vault.Fernet} (key : Vault.fernet_key) (e : env)
    (s : Session) (jd : JobData) (svc : option client) (msg : string)
    (a : attempt) :
  let expired := SESSION_EXPIRED_message in
  let failed m :=
    Some (s, failed_with (now e) m jd, waiting_at (AtJobFailed m) svc,
          [Broadcast (session_id s) JOB_COMPLETED (job_id jd)
             (FailedData (attempt_count jd) m)]) in
  let crashed m :=
    Some (s, failed_with (now e) m jd, waiting_at AtJobCrashed svc,
          [Broadcast (session_id s) JOB_COMPLETED (job_id jd)
             (FailedData (attempt_count jd) m)]) in
  let reserve_failed :=
    Some (s, jd, waiting_at (AtReserveFailed a "SESSION_EXPIRED" expired) svc,
          [Broadcast (session_id s) RESERVE_FAILED (job_id jd)
             (ReserveFailedData (a_idx a) "SESSION_EXPIRED" expired false
                (a_is_standby a))]) in
  (* one login, with the decrypted credentials *)
  (forall user_id password,
      Vault.decrypt key (encrypted_credentials s) = Ok (user_id, password) ->
      resume_task key e (Searched (Raise (LoginRequired msg))) s jd
        (waiting_at AtSearch svc)
      = Some (s, jd, waiting_at AtSearchRelogin svc,
              [Login (rail_type s) user_id password])
      /\ resume_task key e (Reserved (Raise (LoginRequired msg))) s jd
           (waiting_at (AtReserve a) svc)
         = Some (s, jd, waiting_at (AtReserveRelogin a) svc,
                 [Login (rail_type s) user_id password]))
  (* the handle is replaced and the same call is made once more *)
  /\ (forall c info,
         resume_task key e (LoggedIn (Ok (c, info))) s jd
           (waiting_at AtSearchRelogin svc)
         = Some (relogged c info s, jd, waiting_at AtSearchRetry (Some c),
                 [search_call (Some c) jd])
         /\ resume_task key e (LoggedIn (Ok (c, info))) s jd
              (waiting_at (AtReserveRelogin a) svc)
            = Some (relogged c info s, jd, waiting_at (AtReserveRetry a) (Some c),
                    [reserve_call (Some c) jd a])
         /\ rail_client (relogged c info s) = Some c)
  (* no second cycle *)
  /\ resume_task key e (Searched (Raise (LoginRequired msg))) s jd
       (waiting_at AtSearchRetry svc) = crashed msg
  /\ resume_task key e (Reserved (Raise (LoginRequired msg))) s jd
       (waiting_at (AtReserveRetry a) svc) = crashed msg
  (* the re-login fails: the credentials cannot be read *)
  /\ (forall x,
         Vault.decrypt key (encrypted_credentials s) = Raise x ->
         resume_task key e (Searched (Raise (LoginRequired msg))) s jd
           (waiting_at AtSearch svc) = failed expired
         /\ resume_task key e (Reserved (Raise (LoginRequired msg))) s jd
              (waiting_at (AtReserve a) svc) = reserve_failed)
  (* the re-login fails: the login raises *)
  /\ (forall x,
         resume_task key e (LoggedIn (Raise x)) s jd
           (waiting_at AtSearchRelogin svc) = failed expired
         /\ resume_task key e (LoggedIn (Raise x)) s jd
              (waiting_at (AtReserveRelogin a) svc) = reserve_failed)
  (* after the RESERVE_FAILED broadcast the error ends the job *)
  /\ resume_task key e Resumed s jd
       (waiting_at (AtReserveFailed a "SESSION_EXPIRED" expired) svc)
     = failed expired
  /\ member "SESSION_EXPIRED" ["RESERVE_SOLD_OUT"; "TRAIN_SEARCH_NO_RESULTS"] = false
  /\ member "SESSION_EXPIRED" ["RESERVE_SOLD_OUT"; "STANDBY_NOT_AVAILABLE"] = false
  /\ status (failed_with (now e) expired jd) = FAILED
  /\ error (failed_with (now e) expired jd) = Some expired.
Proof.
  cbn zeta. repeat split.
  - unfold resume_task, relogin_credentials, get_credentials. cbn [tpc waiting_at].
    now rewrite H.
  - unfold resume_task, relogin_credentials, get_credentials. cbn [tpc waiting_at].
    now rewrite H.
  - unfold resume_task, relogin_credentials, get_credentials. cbn [tpc waiting_at].
    now rewrite H.
  - unfold resume_task, relogin_credentials, get_credentials. cbn [tpc waiting_at].
    now rewrite H.
Qed.

Lemma relogin_once_witness :
  resume_task (F := toy_fernet) x2a (at_time 3)
    (Searched (Raise (LoginRequired "login required"))) demo_session demo_job
    (waiting_at AtSearch (Some 1%nat))
  = Some (demo_session, demo_job, waiting_at AtSearchRelogin (Some 1%nat),
          [Login "SRT" "1234567890" "p@ssw0rd"]).
Proof.
  destruct (relogin_once (F := toy_fernet) x2a (at_time 3) demo_session
              demo_job (Some 1%nat) "login required" demo_attempt) as [H _].
  apply H. vm_compute. reflexivity.
Defined.

(** The handlers at work on a search that hands the condition to the
    loop once: the re-login succeeds, the search is repeated and the job
    goes on to [SUCCESS] without ever being [FAILED]; one login was made,
    with the stored credentials. *)
Example relogin_then_success :
  exists w0 ws effs,
    create_job "s-1" (demo_request GENERAL_FIRST false) "j-1" 0 demo_world
    = Some w0
    /\ run (F := toy_fernet) x2a relogin_schedule w0 = Some (ws, effs)
    /\ status_sequence "j-1" w0 ws = [PENDING; RUNNING; SUCCESS]
    /\ login_calls effs = [Login "SRT" "1234567890" "p@ssw0rd"].
Proof.
  do 3 eexists. split; [vm_compute; reflexivity|].
  split; [vm_compute; reflexivity|]. split; vm_compute; reflexivity.
Qed.

(** The handlers at work on a reservation that hands the condition to the
    loop, when the login is refused: the job ends [FAILED] with the
    [SESSION_EXPIRED] message. *)
Example relogin_refused_fails :
  exists w0 ws effs w,
    create_job "s-1" (demo_request GENERAL_FIRST false) "j-1" 0 demo_world
    = Some w0
    /\ run (F := toy_fernet) x2a relogin_refused_schedule w0 = Some (ws, effs)
    /\ status_sequence "j-1" w0 ws = [PENDING; RUNNING; FAILED]
    /\ last ws = Some w
    /\ (error <$> data_of "j-1" w) = Some (Some SESSION_EXPIRED_message).
Proof.
  do 4 eexists. split; [vm_compute; reflexivity|].
  split; [vm_compute; reflexivity|]. split; [vm_compute; reflexivity|].
  split; [reflexivity|]. vm_compute. reflexivity.
Qed.

(** * Further properties *)

(** ** Credential vault: what [decrypt] returns *)

Lemma split_once_some (sep : ascii) (s a b : string) :
  Vault.split_once sep s = Some (a, b)
  <-> s = a +:+ String sep b /\ contains sep a = false.
Proof.
  revert a b. induction s as [|c s IH]; intros a b; simpl.
  - split; [discriminate|]. intros [H _]. destruct a; discriminate.
  - destruct (Ascii.eqb_spec c sep) as [->|Hne].
    + split.
      * intros [= <- <-]. split; reflexivity.
      * intros [H Ha]. destruct a as [|c' a]; simpl in *.
        -- now injection H as ->.
        -- injection H as <- _. now rewrite Ascii.eqb_refl in Ha.
    + destruct (Vault.split_once sep s) as [[a' b']|] eqn:E.
      * split.
        -- intros [= <- <-]. simpl.
           destruct (proj1 (IH a' b') eq_refl) as [-> Ha].
           split; [reflexivity|].
           destruct (Ascii.eqb_spec c sep); [contradiction|exact Ha].
        -- intros [H Ha]. destruct a as [|c' a]; simpl in *.
           ++ injection H as -> _. contradiction.
           ++ injection H as <- H. apply orb_false_iff in Ha as [_ Ha].
              pose proof (proj2 (IH a b) (conj H Ha)) as [= -> ->].
              reflexivity.
      * split; [discriminate|]. intros [H Ha].
        destruct a as [|c' a]; simpl in *.
        -- injection H as -> _. contradiction.
        -- injection H as <- H. apply orb_false_iff in Ha as [_ Ha].
           pose proof (proj2 (IH a b) (conj H Ha)) as Hno. discriminate Hno.
Qed.

Lemma split_once_none (sep : ascii) (s : string) :
  Vault.split_once sep s = None <-> contains sep s = false.
Proof.
  induction s as [|c s IH]; simpl; [tauto|].
  destruct (Ascii.eqb c sep); simpl; [split; discriminate|].
  destruct (Vault.split_once sep s) as [[a b]|].
  - split; [discriminate|]. intros H. apply IH in H. discriminate.
  - split; [intros _; now apply IH|reflexivity].
Qed.

(** What [decrypt] does with the plaintext Fernet hands back. *)
Lemma decrypt_of_plain {F : Vault.Fernet} (key : Vault.fernet_key)
    (enc plain : list byte) :
  Vault.fernet_decrypt key enc = Some plain ->
  Vault.utf8_wf (map Byte.to_N plain) = true ->
  Vault.decrypt key enc
  = match Vault.split_once Vault.NUL (string_of_list_byte plain) with
    | Some (u, p) => Ok (u, p)
    | None => Raise (ValueError "not enough values to unpack (expected 2, got 1)")
    end.
Proof.
  intros Hd Hwf. unfold Vault.decrypt, Vault.decode_utf8, Vault.str_split1.
  rewrite Hd, Hwf. cbn [obind].
  now destruct (Vault.split_once _ _) as [[u p]|].
Qed.

(** X1.  [decrypt] returns a pair exactly when the token opens under the
    key, the plaintext is well-formed UTF-8 and contains the separator;
    the pair is then the text before the first separator, which is free of
    it, and the whole text after it.  A plaintext without separator makes
    the tuple assignment fail with [ValueError]. *)
Theorem decrypt_returns_iff {F : Vault.Fernet} (key : Vault.fernet_key)
    (enc : list byte) :
  (forall user_id password,
      Vault.decrypt key enc = Ok (user_id, password)
      <-> exists plain,
            Vault.fernet_decrypt key enc = Some plain
            /\ Vault.utf8_wf (map Byte.to_N plain) = true
            /\ string_of_list_byte plain = user_id +:+ String Vault.NUL password
            /\ contains Vault.NUL user_id = false)
  /\ (forall plain,
         Vault.fernet_decrypt key enc = Some plain ->
         Vault.utf8_wf (map Byte.to_N plain) = true ->
         contains Vault.NUL (string_of_list_byte plain) = false ->
         Vault.decrypt key enc
         = Raise (ValueError "not enough values to unpack (expected 2, got 1)")).
Proof.
  split.
  - intros u p. split.
    + intros H. unfold Vault.decrypt in H.
      destruct (Vault.fernet_decrypt key enc) as [plain|] eqn:Hd; [|discriminate].
      unfold Vault.decode_utf8 in H.
      destruct (Vault.utf8_wf (map Byte.to_N plain)) eqn:Hwf; [|discriminate].
      cbn [obind] in H. unfold Vault.str_split1 in H.
      destruct (Vault.split_once _ _) as [[a b]|] eqn:Hs; [|discriminate].
      injection H as -> ->. apply split_once_some in Hs as [Hs Ha].
      exists plain. auto.
    + intros (plain & Hd & Hwf & Hs & Ha).
      rewrite (decrypt_of_plain key enc plain Hd Hwf).
      now rewrite (proj2 (split_once_some _ _ _ _) (conj Hs Ha)).
  - intros plain Hd Hwf Hc.
    rewrite (decrypt_of_plain key enc plain Hd Hwf).
    now rewrite (proj2 (split_once_none _ _) Hc).
Qed.

(** X2.  For any credentials, [decrypt] of what [encrypt] produced returns
    a pair and never raises; the pair is the original one exactly when the
    user id is free of the separator. *)
Theorem roundtrip_iff_user_id_clean `{FC : !Vault.FernetCorrect F}
    (key : Vault.fernet_key) (n : Vault.fernet_nonce)
    (user_id password : string) :
  Vault.is_str user_id -> Vault.is_str password ->
  (exists u p, Vault.decrypt key (Vault.encrypt key n user_id password) = Ok (u, p)
               /\ u +:+ String Vault.NUL p = user_id +:+ String Vault.NUL password
               /\ contains Vault.NUL u = false)
  /\ (Vault.decrypt key (Vault.encrypt key n user_id password)
      = Ok (user_id, password)
      <-> contains Vault.NUL user_id = false).
Proof.
  intros Hu Hp.
  assert (Hplain : Vault.decrypt key (Vault.encrypt key n user_id password)
                   = match Vault.split_once Vault.NUL
                             (user_id +:+ String Vault.NUL password) with
                     | Some (u, p) => Ok (u, p)
                     | None => Raise (ValueError
                                 "not enough values to unpack (expected 2, got 1)")
                     end).
  { unfold Vault.encrypt, Vault.encode_utf8.
    erewrite decrypt_of_plain;
      [|apply Vault.fernet_decrypt_encrypt|exact (combined_is_str _ _ Hu Hp)].
    now rewrite string_of_list_byte_of_string. }
  rewrite Hplain.
  destruct (Vault.split_once Vault.NUL (user_id +:+ String Vault.NUL password))
    as [[u p]|] eqn:Hs.
  - apply split_once_some in Hs as [Hs Hc]. split.
    + exists u, p. auto.
    + split.
      * now intros [= -> ->].
      * intros Hclean.
        pose proof (proj2 (split_once_some Vault.NUL _ user_id password)
                      (conj eq_refl Hclean)) as Hs'.
        rewrite Hs in Hs'.
        pose proof (proj2 (split_once_some Vault.NUL _ u p) (conj eq_refl Hc)) as Hs''.
        congruence.
  - apply split_once_none in Hs. exfalso. revert Hs.
    clear. induction user_id as [|c s IH]; simpl.
    + discriminate.
    + intros H. apply orb_false_iff in H as [_ H]. now apply IH.
Qed.

Lemma roundtrip_iff_user_id_clean_witness :
  Vault.decrypt (F := toy_fernet) x2a
    (Vault.encrypt (F := toy_fernet) x2a tt "010-1234-5678" "pw")
  = Ok ("010-1234-5678", "pw").
Proof.
  apply (roundtrip_iff_user_id_clean (FC := toy_fernet_correct));
    vm_compute; reflexivity.
Defined.

(** X3.  [secure_delete] leaves a buffer of the same length in which every
    byte is zero. *)
Theorem secure_delete_zeroes (data : list byte) :
  secure_delete_loop data = replicate (length data) x00.
Proof.
  unfold secure_delete_loop.
  assert (H : forall (done rest : list byte),
             foldl (fun d i => <[i := x00]> d)
               (replicate (length done) x00 ++ rest)%list
               (seq (length done) (length rest))
             = replicate (length done + length rest) x00).
  { intros done rest. revert done.
    induction rest as [|b rest IH]; intros done; cbn [seq length foldl].
    - now rewrite Nat.add_0_r, app_nil_r.
    - replace (<[length done := x00]> (replicate (length done) x00 ++ b :: rest)%list)
        with (replicate (length (done ++ [b])%list) x00 ++ rest)%list.
      + replace (S (length done)) with (length (done ++ [b])%list)
          by (rewrite length_app; cbn; lia).
        rewrite IH. f_equal. rewrite length_app. cbn. lia.
      + rewrite insert_app_r_alt by (rewrite length_replicate; lia).
        rewrite length_replicate, Nat.sub_diag, length_app. cbn [length].
        rewrite Nat.add_1_r, replicate_S_end, <- app_assoc. reflexivity. }
  apply (H [] data).
Qed.

(** ** Session registry: lookup, refresh, sweep *)

Lemma get_session_some (now : Z) (sid : string) (w : World) (s : Session) :
  fst (get_session now sid w) = Some s
  <-> sm_sessions w !! sid = Some s /\ now <= expires_at s.
Proof.
  unfold get_session, is_expired.
  destruct (sm_sessions w !! sid) as [s'|]; cbn.
  - destruct (Z.ltb_spec (expires_at s') now); cbn.
    + split; [discriminate|]. intros [[= <-] ?]. lia.
    + split; [intros [= <-]; split; [reflexivity|lia]|now intros [[= <-] _]].
  - split; [discriminate|]. now intros [? _].
Qed.

(** X4.  [require_session] passes a session exactly when a non-empty id
    was supplied, the id is registered and the session has not expired.  An
    absent or empty id is reported as [SESSION_MISSING]; every other
    failure, unknown id or expired session alike, as [SESSION_EXPIRED]. *)
Theorem require_session_contract (now : Z) (session_id : option string)
    (w : World) :
  (forall s,
      require_session now session_id w = Pass s
      <-> exists sid, session_id = Some sid /\ sid <> ""
                      /\ sm_sessions w !! sid = Some s /\ now <= expires_at s)
  /\ (require_session now session_id w
      = Fail (SessionError "SESSION_MISSING" "세션 ID가 필요합니다")
      <-> session_id = None \/ session_id = Some "")
  /\ (require_session now session_id w
      = Fail (SessionError "SESSION_EXPIRED"
                "세션이 만료되었습니다. 다시 로그인해주세요")
      <-> exists sid, session_id = Some sid /\ sid <> ""
                      /\ (sm_sessions w !! sid = None
                          \/ exists s, sm_sessions w !! sid = Some s
                                       /\ expires_at s < now)).
Proof.
  destruct session_id as [[|c sid]|]; cbn.
  - split; [|split].
    + intros s. split; [discriminate|]. intros (sid & [= <-] & Hne & _).
      now destruct Hne.
    + split; [auto|reflexivity].
    + split; [discriminate|]. intros (sid & [= <-] & Hne & _). now destruct Hne.
  - destruct (fst (get_session now (String c sid) w)) as [s|] eqn:Hg.
    + apply get_session_some in Hg as [Hl Hle]. split; [|split].
      * intros s'. split.
        -- intros [= <-]. exists (String c sid).
           split; [reflexivity|split; [discriminate|split; assumption]].
        -- intros (sid' & [= <-] & _ & Hl' & _). congruence.
      * split; [discriminate|]. intros [?|?]; discriminate.
      * split; [discriminate|].
        intros (sid' & [= <-] & _ & [Hn|(s' & Hl' & Hlt)]); [congruence|].
        assert (s' = s) by congruence. subst. lia.
    + split; [|split].
      * intros s. split; [discriminate|].
        intros (sid' & [= <-] & _ & Hl & Hle).
        pose proof (proj2 (get_session_some _ _ _ _) (conj Hl Hle)). congruence.
      * split; [discriminate|]. intros [?|?]; discriminate.
      * split; [|reflexivity]. intros _. exists (String c sid).
        split; [reflexivity|]. split; [discriminate|].
        destruct (sm_sessions w !! String c sid) as [s|] eqn:Hl; [|now left].
        right. exists s. split; [reflexivity|].
        destruct (Z.lt_ge_cases (expires_at s) now) as [?|Hge]; [assumption|].
        pose proof (proj2 (get_session_some _ _ _ _) (conj Hl Hge)).
        congruence.
  - split; [|split].
    + intros s. split; [discriminate|]. intros (sid & [=] & _).
    + split; [auto|reflexivity].
    + split; [discriminate|]. intros (sid & [=] & _).
Qed.

(** X5.  [refresh_session] succeeds exactly when [get_session] would return
    the session at that moment; it then moves the expiry to [now + ttl], so
    that the session stays usable up to that time, and touches nothing
    else.  It never revives an expired or unknown session: it returns false
    and changes nothing. *)
Theorem refresh_session_window (ttl now : Z) (sid : string) (w : World) :
  let ok := fst (refresh_session ttl now sid w) in
  let w' := snd (refresh_session ttl now sid w) in
  (ok = true <-> is_Some (fst (get_session now sid w)))
  /\ (ok = false -> w' = w)
  /\ (ok = true ->
      exists s, sm_sessions w !! sid = Some s
                /\ sm_sessions w' !! sid = Some (set_expires_at (now + ttl) s)
                /\ forall t, t <= now + ttl ->
                     fst (get_session t sid w')
                     = Some (set_expires_at (now + ttl) s))
  /\ (forall sid', sid' <> sid -> sm_sessions w' !! sid' = sm_sessions w !! sid')
  /\ js_jobs w' = js_jobs w.
Proof.
  cbn zeta. unfold refresh_session.
  destruct (sm_sessions w !! sid) as [s|] eqn:Hl; cbn.
  - destruct (negb (is_expired now s)) eqn:He; cbn.
    + apply negb_true_iff, Z.ltb_ge in He.
      split; [split; [|reflexivity]|].
      { intros _. exists s. apply get_session_some. auto. }
      split; [discriminate|]. split.
      * intros _. exists s. split; [reflexivity|].
        split; [apply lookup_insert_eq|]. intros t Ht.
        apply get_session_some. cbn. split; [apply lookup_insert_eq|exact Ht].
      * split; [|reflexivity]. intros sid' Hne. now apply lookup_insert_ne.
    + apply negb_false_iff, Z.ltb_lt in He.
      split; [split; [discriminate|]|].
      { intros [s' Hs']. apply get_session_some in Hs' as [Hl' Hle].
        assert (s' = s) by congruence. subst. lia. }
      split; [reflexivity|]. split; [discriminate|]. split; reflexivity.
  - split; [split; [discriminate|]|].
    { intros [s' Hs']. apply get_session_some in Hs' as [Hl' _]. congruence. }
    split; [reflexivity|]. split; [discriminate|]. split; reflexivity.
Qed.

Lemma destroy_session_lookup (sid sid' : string) (w : World) :
  sm_sessions (snd (fst (destroy_session sid w))) !! sid'
  = if bool_decide (sid' = sid) then None else sm_sessions w !! sid'.
Proof.
  unfold destroy_session.
  destruct (sm_sessions w !! sid) as [s|] eqn:Hl; cbn; case_bool_decide; subst.
  - apply lookup_delete_eq.
  - now apply lookup_delete_ne.
  - exact Hl.
  - reflexivity.
Qed.

Lemma destroy_session_job (sid : string) (w : World) (j : string) :
  (fun job => data job) <$> (js_jobs (snd (fst (destroy_session sid w))) !! j)
  = (fun job => data job) <$> (js_jobs w !! j).
Proof.
  unfold destroy_session.
  destruct (sm_sessions w !! sid) as [s|]; cbn; [|reflexivity].
  rewrite cancel_tasks_lookup. now destruct (js_jobs w !! j).
Qed.

Lemma destroy_all_lookup (ids : list string) :
  forall (w : World) (sid' : string),
    sm_sessions (fst (destroy_all ids w)) !! sid'
    = (if bool_decide (sid' ∈ ids) then None else sm_sessions w !! sid')
    /\ forall j,
         (fun job => data job) <$> (js_jobs (fst (destroy_all ids w)) !! j)
         = (fun job => data job) <$> (js_jobs w !! j).
Proof.
  unfold destroy_all.
  assert (H : forall ids (acc : World * list effect) sid',
             sm_sessions (fst (foldl (fun '(w, effs) sid =>
                                        let '(_, w', effs') := destroy_session sid w in
                                        (w', (effs ++ effs')%list)) acc ids)) !! sid'
             = (if bool_decide (sid' ∈ ids) then None
                else sm_sessions (fst acc) !! sid')
             /\ forall j,
                  (fun job => data job)
                    <$> (js_jobs (fst (foldl (fun '(w, effs) sid =>
                                        let '(_, w', effs') := destroy_session sid w in
                                        (w', (effs ++ effs')%list)) acc ids)) !! j)
                  = (fun job => data job) <$> (js_jobs (fst acc) !! j)).
  { clear. induction ids as [|sid ids IH]; intros [w effs] sid'; cbn [foldl].
    - split; reflexivity.
    - pose proof (destroy_session_lookup sid sid' w) as Hs.
      pose proof (destroy_session_job sid w) as Hj.
      destruct (destroy_session sid w) as [[ok w1] effs1]. cbn in Hs, Hj.
      destruct (IH (w1, (effs ++ effs1)%list) sid') as [IH1 IH2].
      split.
      + rewrite IH1. cbn [fst]. rewrite Hs.
        destruct (decide (sid' = sid)) as [->|Hne].
        * rewrite (bool_decide_eq_true_2 (sid = sid)) by reflexivity.
          rewrite (bool_decide_eq_true_2 (sid ∈ sid :: ids))
            by apply list_elem_of_here.
          now destruct (bool_decide (sid ∈ ids)).
        * rewrite (bool_decide_eq_false_2 (sid' = sid)) by assumption.
          rewrite (bool_decide_ext (sid' ∈ sid :: ids) (sid' ∈ ids));
            [reflexivity|].
          rewrite elem_of_cons.
          split; [intros [?|?]; [contradiction|assumption]|auto].
      + intros j. rewrite IH2. cbn [fst]. apply Hj. }
  intros w sid'. apply (H ids (w, []) sid').
Qed.

Lemma expired_ids_spec (clock : string -> Z) (w : World) (sid : string) :
  sid ∈ expired_ids clock w
  <-> exists s, sm_sessions w !! sid = Some s /\ expires_at s < clock sid.
Proof.
  unfold expired_ids. rewrite list_elem_of_In, in_map_iff. split.
  - intros ([sid' s] & <- & Hin). apply filter_In in Hin as [Hin He].
    apply list_elem_of_In, elem_of_map_to_list in Hin.
    exists s. split; [exact Hin|]. unfold is_expired in He. cbn. lia.
  - intros (s & Hl & Hlt). exists (sid, s). split; [reflexivity|].
    apply filter_In. split.
    + now apply list_elem_of_In, elem_of_map_to_list.
    + unfold is_expired. lia.
Qed.

(** X6.  The sweep removes exactly the sessions it found expired, each
    judged at its own clock reading: a session that had expired before the
    sweep began is gone afterwards, a session that has not expired when the
    sweep ends is kept as it was, nothing is added, no job attribute is
    changed, and [get_session] answers from then on as it would have
    without the sweep. *)
Theorem cleanup_expired_sweeps (clock : string -> Z) (start stop : Z)
    (w : World) :
  (forall sid, start <= clock sid <= stop) ->
  let w' := fst (cleanup_expired clock w) in
  (forall sid s, sm_sessions w !! sid = Some s -> expires_at s < start ->
                 sm_sessions w' !! sid = None)
  /\ (forall sid s, sm_sessions w !! sid = Some s -> stop <= expires_at s ->
                    sm_sessions w' !! sid = Some s)
  /\ (forall sid s, sm_sessions w' !! sid = Some s ->
                    sm_sessions w !! sid = Some s /\ clock sid <= expires_at s)
  /\ (forall t sid, stop <= t ->
                    fst (get_session t sid w') = fst (get_session t sid w))
  /\ (forall j, data_of j w' = data_of j w).
Proof.
  intros Hclock w'.
  assert (Hl : forall sid,
             sm_sessions w' !! sid
             = if bool_decide (sid ∈ expired_ids clock w) then None
               else sm_sessions w !! sid).
  { intros sid. apply (destroy_all_lookup (expired_ids clock w) w sid). }
  assert (Hkept : forall sid s, sm_sessions w' !! sid = Some s ->
                                sm_sessions w !! sid = Some s
                                /\ clock sid <= expires_at s).
  { intros sid s. rewrite Hl. case_bool_decide as Hin; [discriminate|].
    intros Hs. split; [exact Hs|].
    destruct (Z.lt_ge_cases (expires_at s) (clock sid)) as [Hlt|?]; [|assumption].
    exfalso. apply Hin, expired_ids_spec. eauto. }
  split; [|split; [|split; [exact Hkept|split]]].
  - intros sid s Hs Hlt. rewrite Hl. rewrite bool_decide_eq_true_2; [reflexivity|].
    apply expired_ids_spec. exists s. split; [exact Hs|].
    specialize (Hclock sid). lia.
  - intros sid s Hs Hge. rewrite Hl. rewrite bool_decide_eq_false_2; [exact Hs|].
    intros Hin. apply expired_ids_spec in Hin as (s' & Hs' & Hlt).
    assert (s' = s) by congruence. subst. specialize (Hclock sid). lia.
  - intros t sid Ht.
    destruct (fst (get_session t sid w)) as [s|] eqn:Hg.
    + apply get_session_some in Hg as [Hs Hle]. apply get_session_some.
      split; [|exact Hle]. rewrite Hl. rewrite bool_decide_eq_false_2; [exact Hs|].
      intros Hin. apply expired_ids_spec in Hin as (s' & Hs' & Hlt).
      assert (s' = s) by congruence. subst. specialize (Hclock sid). lia.
    + destruct (fst (get_session t sid w')) as [s|] eqn:Hg'; [|reflexivity].
      apply get_session_some in Hg' as [Hs Hle].
      apply Hkept in Hs as [Hs _].
      pose proof (proj2 (get_session_some t sid w s) (conj Hs Hle)). congruence.
  - intros j. unfold data_of.
    pose proof (proj2 (destroy_all_lookup (expired_ids clock w) w "") j) as Hj.
    fold (cleanup_expired clock w) in Hj. fold w' in Hj.
    destruct (js_jobs w' !! j), (js_jobs w !! j); cbn in Hj; congruence.
Qed.

(** X7.  [stop] leaves no session registered, and changes no job
    attribute. *)
Theorem stop_empties_registry (w : World) :
  sm_sessions (fst (stop w)) = ∅
  /\ forall j, data_of j (fst (stop w)) = data_of j w.
Proof.
  split.
  - apply map_eq. intros sid. rewrite lookup_empty.
    unfold stop.
    rewrite (proj1 (destroy_all_lookup _ w sid)).
    case_bool_decide as Hin; [reflexivity|].
    destruct (sm_sessions w !! sid) as [s|] eqn:Hs; [|reflexivity].
    exfalso. apply Hin. apply list_elem_of_In, in_map_iff.
    exists (sid, s). split; [reflexivity|].
    now apply list_elem_of_In, elem_of_map_to_list.
  - intros j. unfold data_of, stop.
    pose proof (proj2 (destroy_all_lookup (map fst (map_to_list (sm_sessions w)))
                         w "") j) as Hj.
    destruct (js_jobs (fst (destroy_all _ w)) !! j), (js_jobs w !! j);
      cbn in Hj; congruence.
Qed.

Lemma cleanup_expired_sweeps_witness :
  let w' := fst (cleanup_expired (fun _ => 500) stale_world) in
  sm_sessions w' !! "s-old" = None
  /\ sm_sessions w' !! "s-1" = Some demo_session.
Proof.
  destruct (cleanup_expired_sweeps (fun _ => 500) 500 500 stale_world)
    as (H1 & H2 & _); [intros; lia|].
  split.
  - eapply H1; [vm_compute; reflexivity|vm_compute; reflexivity].
  - eapply H2; [vm_compute; reflexivity|vm_compute; discriminate].
Defined.

(** ** Session registry: creation *)




(** ** Job engine: what a step leaves alone *)

Section FrozenFacts.
Context {F : Vault.Fernet}.
Variable key : Vault.fernet_key.

(** Every resumption of the loop keeps the request attributes of the job
    and the identity and job list of the session. *)
Lemma go_sleep_keeps jd : keeps jd (go_sleep jd).
Proof. reflexivity. Qed.

Lemma on_exception_keeps now x s jd : keeps jd (on_exception now x s jd).
Proof. reflexivity. Qed.

Lemma on_rail_error_keeps now c m s jd : keeps jd (on_rail_error now c m s jd).
Proof. unfold on_rail_error. destruct (negb _); reflexivity. Qed.

Lemma on_reserve_error_keeps c m s jd a : keeps jd (on_reserve_error c m s jd a).
Proof. reflexivity. Qed.

Lemma loop_top_keeps svc jd : keeps jd (loop_top svc jd).
Proof. unfold loop_top. destruct (cancelled jd); reflexivity. Qed.

Lemma after_search_keeps now trains s jd : keeps jd (after_search now trains s jd).
Proof. unfold after_search. destruct (available_seats _ _); reflexivity. Qed.

Lemma for_selected_keeps now trains idxs s jd :
  keeps jd (for_selected now trains idxs s jd).
Proof. unfold for_selected. destruct (scan _ _ _); reflexivity. Qed.

Lemma succeed_keeps now r a s jd : keeps jd (succeed now r a s jd).
Proof. reflexivity. Qed.

Lemma plain_keeps jd p effs : keeps jd (jd, p, effs).
Proof. reflexivity. Qed.

Lemma stepped_parts s t x s' jd' t' effs :
  stepped s t x = Some (s', jd', t', effs) ->
  s' = s /\ jd' = fst (fst x) /\ effs = snd x.
Proof. destruct x as [[jd p] effs0]. cbn. intros [= <- <- <- <-]. auto. Qed.

Lemma same_registration_refl s : same_registration s s.
Proof. repeat split. Qed.

Lemma relogin_finish_registration o s s' ok :
  relogin_finish o s = (s', ok) -> same_registration s s'.
Proof.
  unfold relogin_finish. destruct o as [[c info]|x]; intros [= <- <-];
    repeat split.
Qed.

Create HintDb keeps.
#[local] Hint Resolve go_sleep_keeps on_exception_keeps on_rail_error_keeps
  on_reserve_error_keeps loop_top_keeps after_search_keeps for_selected_keeps
  succeed_keeps plain_keeps same_registration_refl
  relogin_finish_registration : keeps.

(** Every resumption of the loop keeps the request attributes of the job
    and the registration of the session. *)
Lemma resume_task_frozen e r s jd t s' jd' t' effs :
  resume_task key e r s jd t = Some (s', jd', t', effs) ->
  request_of jd' = request_of jd /\ same_registration s s'.
Proof.
  intros H. unfold resume_task in H.
  destruct (tpc t); destruct r as [|o|o|o|o]; try discriminate H.
  all: split_match H.
  all: apply stepped_parts in H as (-> & -> & _).
  all: split; [|solve [eauto with keeps]].
  all: try (change (keeps jd (on_rail_error (now e) "SESSION_EXPIRED"
                                SESSION_EXPIRED_message s jd)));
    try solve [eauto with keeps].
  all: try match goal with
           | |- request_of (fst (fst ?x)) = _ =>
             change (keeps jd x); solve [eauto with keeps]
           end.
Qed.

Lemma throw_cancelled_frozen now jd t jd' t' :
  throw_cancelled now jd t = Some (jd', t') -> request_of jd' = request_of jd.
Proof.
  unfold throw_cancelled.
  destruct (tpc t), (cancelled jd); cbn; try discriminate;
    intros [= <- <-]; reflexivity.
Qed.

Lemma step_job_frozen (l : label) (w w' : World) (effs : list effect)
    (j : string) (job : Job) :
  creates_not j l = true ->
  js_jobs w !! j = Some job ->
  step key l w = Some (w', effs) ->
  exists job', js_jobs w' !! j = Some job'
               /\ request_of (data job') = request_of (data job).
Proof.
  intros Hl Hj. destruct l as [sid r j0 now|j0 e r|j0 now|sid]; cbn.
  - unfold create_job.
    destruct (sm_sessions w !! sid) as [s|]; [|discriminate].
    intros [= <- _]. cbn. cbn in Hl.
    rewrite lookup_insert_ne; [eauto|].
    intros ->. now rewrite String.eqb_refl in Hl.
  - unfold engine_step.
    destruct (js_jobs w !! j0) as [job0|] eqn:Hj0; [|discriminate].
    destruct (must_cancel (task job0)).
    + destruct (throw_cancelled _ _ _) as [[jd t]|] eqn:Ht; [|discriminate].
      intros [= <- _]. cbn.
      destruct (decide (j0 = j)) as [->|Hne].
      * rewrite lookup_insert_eq. eexists. split; [reflexivity|]. cbn.
        apply throw_cancelled_frozen in Ht. congruence.
      * rewrite lookup_insert_ne by exact Hne. eauto.
    + destruct (sm_sessions w !! _) as [s|]; [|discriminate].
      destruct (resume_task _ _ _ _ _ _) as [[[[s' jd] t] effs']|] eqn:Hr;
        [|discriminate].
      intros [= <- _]. cbn.
      destruct (decide (j0 = j)) as [->|Hne].
      * rewrite lookup_insert_eq. eexists. split; [reflexivity|]. cbn.
        apply resume_task_frozen in Hr as [Hr _]. congruence.
      * rewrite lookup_insert_ne by exact Hne. eauto.
  - unfold cancel_job.
    destruct (js_jobs w !! j0) as [job0|] eqn:Hj0; [|intros [= <- _]; eauto].
    destruct (negb _); [intros [= <- _]; eauto|].
    intros [= <- _]. cbn.
    destruct (decide (j0 = j)) as [->|Hne].
    + rewrite lookup_insert_eq. eexists. split; [reflexivity|].
      assert (job0 = job) as -> by congruence. reflexivity.
    + rewrite lookup_insert_ne by exact Hne. eauto.
  - unfold destroy_session.
    destruct (sm_sessions w !! sid) as [s|]; [|intros [= <- _]; eauto].
    intros [= <- _]. cbn. rewrite cancel_tasks_lookup, Hj. cbn.
    eexists. split; reflexivity.
Qed.

(** X10.  Once a job is registered, no operation of the service removes it
    or changes what it was created with (ids, itinerary, passengers, seat
    policy, selected trains, options, creation time), as long as no job is
    created again under the same id: along every schedule only the status,
    the attempt counter, the timestamps, the result, the error and the
    cancellation flag can change. *)
Theorem job_request_frozen (ls : list label) (w : World) (ws : list World)
    (effs : list effect) (j : string) (job : Job) :
  forallb (creates_not j) ls = true ->
  js_jobs w !! j = Some job ->
  run key ls w = Some (ws, effs) ->
  Forall (fun w' => exists job', js_jobs w' !! j = Some job'
                                 /\ request_of (data job') = request_of (data job))
         ws.
Proof.
  revert w ws effs job.
  induction ls as [|l ls IH]; intros w ws effs job Hls Hj; cbn.
  - intros [= <- _]. constructor.
  - cbn in Hls. apply andb_true_iff in Hls as [Hl Hls].
    destruct (step key l w) as [[w1 effs1]|] eqn:E1; [|discriminate].
    destruct (run key ls w1) as [[ws' effs']|] eqn:E2; [|discriminate].
    intros [= <- _].
    destruct (step_job_frozen _ _ _ _ _ _ Hl Hj E1) as (job1 & Hj1 & Hreq).
    constructor; [eauto|].
    eapply Forall_impl; [eapply IH; eauto|].
    intros w' (job' & Hj' & Hreq'). exists job'. split; [exact Hj'|congruence].
Qed.
End FrozenFacts.

Lemma job_request_frozen_witness :
  exists ws effs,
    run (F := toy_fernet) x2a teardown_schedule demo_created = Some (ws, effs)
    /\ Forall (fun w' => exists job',
                  js_jobs w' !! "j-1" = Some job'
                  /\ selected_trains (data job') = [0]) ws.
Proof.
  do 2 eexists. split; [vm_compute; reflexivity|].
  eapply Forall_impl.
  - eapply (job_request_frozen (F := toy_fernet) x2a teardown_schedule
             demo_created _ _ "j-1"
             {| data := JobData_init "j-1" "s-1"
                          (demo_request GENERAL_FIRST false) 0;
                task := {| tpc := NotStarted; must_cancel := false;
                           rail_service := None |} |}).
    + reflexivity.
    + reflexivity.
    + vm_compute. reflexivity.
  - intros w' (job' & Hj & Hreq). exists job'. split; [exact Hj|].
    unfold request_of in Hreq.
    now injection Hreq as _ _ _ _ _ _ _ _ -> _ _ _ _.
Defined.

(** ** The two registries stay consistent *)

Lemma member_elem_of (j : string) (js : list string) :
  member j js = true <-> j ∈ js.
Proof.
  unfold member. rewrite existsb_exists. split.
  - intros (y & Hy & Hb). apply bool_decide_eq_true_1 in Hb as ->.
    now apply list_elem_of_In.
  - intros Hj. exists j. split; [now apply list_elem_of_In|].
    now apply bool_decide_eq_true_2.
Qed.

Lemma add_job_jobs (j j' : string) (s : Session) :
  j' ∈ jobs (add_job j s) <-> j' = j \/ j' ∈ jobs s.
Proof.
  cbn. destruct (member j (jobs s)) eqn:Hm.
  - apply member_elem_of in Hm. split; [auto|]. now intros [->|].
  - rewrite elem_of_app, list_elem_of_singleton. tauto.
Qed.

Lemma consistent_empty : consistent {| sm_sessions := ∅; js_jobs := ∅ |}.
Proof.
  split; [|split]; cbn; intros *; rewrite lookup_empty; discriminate.
Qed.

Section Consistency.
Context {F : Vault.Fernet}.
Variable key : Vault.fernet_key.

Lemma create_job_consistent sid r j now w w' :
  consistent w -> js_jobs w !! j = None ->
  create_job sid r j now w = Some w' -> consistent w'.
Proof.
  intros (H1 & H2 & H3) Hfresh. unfold create_job.
  destruct (sm_sessions w !! sid) as [s|] eqn:Hs; [|discriminate].
  intros [= <-]. pose proof (H1 _ _ Hs) as Hid.
  split; [|split]; cbn.
  - intros sid' s'. destruct (decide (sid = sid')) as [<-|Hne].
    + rewrite lookup_insert_eq. now intros [= <-].
    + rewrite lookup_insert_ne by exact Hne. apply H1.
  - intros sid' s' j'. destruct (decide (sid = sid')) as [<-|Hne].
    + rewrite lookup_insert_eq. intros [= <-] Hj'.
      apply add_job_jobs in Hj' as [->|Hj'].
      * rewrite lookup_insert_eq. eexists. split; [reflexivity|]. exact Hid.
      * destruct (H2 _ _ _ Hs Hj') as (job & Hjob & Hsid).
        rewrite lookup_insert_ne by congruence. eauto.
    + rewrite lookup_insert_ne by exact Hne. intros Hs' Hj'.
      destruct (H2 _ _ _ Hs' Hj') as (job & Hjob & Hsid).
      rewrite lookup_insert_ne by congruence. eauto.
  - intros j' job s'. destruct (decide (j = j')) as [<-|Hne].
    + rewrite lookup_insert_eq. intros [= <-]. cbn. rewrite Hid.
      rewrite lookup_insert_eq. intros [= <-]. apply add_job_jobs. now left.
    + rewrite lookup_insert_ne by exact Hne. intros Hjob.
      destruct (decide (sid = job_session_id (data job))) as [->|Hne'].
      * rewrite lookup_insert_eq. intros [= <-]. apply add_job_jobs. right.
        eapply H3; eauto.
      * rewrite lookup_insert_ne by exact Hne'. eapply H3; eauto.
Qed.

(** Replacing the data and task of a registered job by ones with the
    same request attributes, and its session by one with the same
    registration, keeps the registries consistent. *)
Lemma update_consistent w j job jd' t' (ss : gmap string Session) :
  consistent w ->
  js_jobs w !! j = Some job ->
  request_of jd' = request_of (data job) ->
  (forall sid, match ss !! sid, sm_sessions w !! sid with
               | Some s', Some s => same_registration s s'
               | None, None => True
               | _, _ => False
               end) ->
  consistent {| sm_sessions := ss;
                js_jobs := <[j := {| data := jd'; task := t' |}]> (js_jobs w) |}.
Proof.
  intros (H1 & H2 & H3) Hj Hreq Hss.
  assert (Hsid : job_session_id jd' = job_session_id (data job)).
  { unfold request_of in Hreq. now injection Hreq. }
  split; [|split]; cbn.
  - intros sid s' Hs'. specialize (Hss sid). rewrite Hs' in Hss.
    destruct (sm_sessions w !! sid) as [s|] eqn:Hs; [|contradiction].
    destruct Hss as (-> & _). eauto.
  - intros sid s' j' Hs' Hj'. specialize (Hss sid). rewrite Hs' in Hss.
    destruct (sm_sessions w !! sid) as [s|] eqn:Hs; [|contradiction].
    destruct Hss as (_ & Hjobs & _). rewrite Hjobs in Hj'.
    destruct (H2 _ _ _ Hs Hj') as (job0 & Hjob0 & Hsid0).
    destruct (decide (j = j')) as [<-|Hne].
    + rewrite lookup_insert_eq. eexists. split; [reflexivity|]. cbn.
      congruence.
    + rewrite lookup_insert_ne by exact Hne. eauto.
  - intros j' job0 s'. destruct (decide (j = j')) as [<-|Hne].
    + rewrite lookup_insert_eq. intros [= <-]. cbn. rewrite Hsid. intros Hs'.
      specialize (Hss (job_session_id (data job))). rewrite Hs' in Hss.
      destruct (sm_sessions w !! _) as [s|] eqn:Hs; [|contradiction].
      destruct Hss as (_ & -> & _). eapply H3; eauto.
    + rewrite lookup_insert_ne by exact Hne. intros Hjob0 Hs'.
      specialize (Hss (job_session_id (data job0))). rewrite Hs' in Hss.
      destruct (sm_sessions w !! _) as [s|] eqn:Hs; [|contradiction].
      destruct Hss as (_ & -> & _). eapply H3; eauto.
Qed.

Lemma same_sessions (m : gmap string Session) (sid : string) :
  match m !! sid, m !! sid with
  | Some s', Some s => same_registration s s'
  | None, None => True
  | _, _ => False
  end.
Proof. destruct (m !! sid); [apply same_registration_refl|exact I]. Qed.

Lemma engine_step_consistent j e r w w' effs :
  consistent w -> engine_step key j e r w = Some (w', effs) -> consistent w'.
Proof.
  intros Hc. unfold engine_step.
  destruct (js_jobs w !! j) as [job|] eqn:Hj; [|discriminate].
  destruct (must_cancel (task job)).
  - destruct (throw_cancelled _ _ _) as [[jd t]|] eqn:Ht; [|discriminate].
    intros [= <- _]. eapply update_consistent; eauto.
    + eapply throw_cancelled_frozen; eauto.
    + apply same_sessions.
  - destruct (sm_sessions w !! _) as [s|] eqn:Hs; [|discriminate].
    destruct (resume_task _ _ _ _ _ _) as [[[[s' jd] t] effs']|] eqn:Hr;
      [|discriminate].
    intros [= <- _]. apply resume_task_frozen in Hr as [Hreq Hreg].
    eapply update_consistent; eauto.
    intros sid. destruct (decide (job_session_id (data job) = sid)) as [<-|Hne].
    + rewrite lookup_insert_eq, Hs. exact Hreg.
    + rewrite lookup_insert_ne by exact Hne. apply same_sessions.
Qed.

Lemma cancel_job_consistent now j w :
  consistent w -> consistent (snd (fst (cancel_job now j w))).
Proof.
  intros Hc. unfold cancel_job.
  destruct (js_jobs w !! j) as [job|] eqn:Hj; [|exact Hc].
  destruct (negb _); [exact Hc|]. cbn.
  eapply update_consistent; eauto. apply same_sessions.
Qed.

Lemma destroy_session_consistent sid w :
  consistent w -> consistent (snd (fst (destroy_session sid w))).
Proof.
  intros (H1 & H2 & H3). unfold destroy_session.
  destruct (sm_sessions w !! sid) as [s|] eqn:Hs; [|now split]. cbn.
  split; [|split]; cbn.
  - intros sid' s'. destruct (decide (sid = sid')) as [<-|Hne].
    + now rewrite lookup_delete_eq.
    + rewrite lookup_delete_ne by exact Hne. apply H1.
  - intros sid' s' j'. destruct (decide (sid = sid')) as [<-|Hne].
    + now rewrite lookup_delete_eq.
    + rewrite lookup_delete_ne by exact Hne. intros Hs' Hj'.
      destruct (H2 _ _ _ Hs' Hj') as (job & Hjob & Hsid).
      rewrite cancel_tasks_lookup, Hjob. cbn. eexists. split; [reflexivity|].
      exact Hsid.
  - intros j' job' s'. rewrite cancel_tasks_lookup.
    destruct (js_jobs w !! j') as [job|] eqn:Hjob; [|discriminate]. cbn.
    intros [= <-]. cbn.
    destruct (decide (sid = job_session_id (data job))) as [<-|Hne].
    + now rewrite lookup_delete_eq.
    + rewrite lookup_delete_ne by exact Hne. eapply H3; eauto.
Qed.

(** The ids of the registered jobs only grow, and only by [CreateJob]. *)
Lemma step_job_ids l w w' effs :
  step key l w = Some (w', effs) ->
  dom (js_jobs w')
  = match l with
    | CreateJob _ _ j _ => {[j]} ∪ dom (js_jobs w)
    | _ => dom (js_jobs w)
    end.
Proof.
  destruct l as [sid r j now|j e r|j now|sid]; cbn.
  - unfold create_job. destruct (sm_sessions w !! sid); [|discriminate].
    intros [= <- _]. cbn. apply dom_insert_L.
  - unfold engine_step.
    destruct (js_jobs w !! j) as [job|] eqn:Hj; [|discriminate].
    assert (Hin : j ∈ dom (js_jobs w)) by (apply elem_of_dom; eauto).
    destruct (must_cancel (task job)).
    + destruct (throw_cancelled _ _ _) as [[jd t]|]; [|discriminate].
      intros [= <- _]. cbn. rewrite dom_insert_L.
      now apply subseteq_union_1_L, singleton_subseteq_l.
    + destruct (sm_sessions w !! _) as [s|]; [|discriminate].
      destruct (resume_task _ _ _ _ _ _) as [[[[s' jd] t] effs']|];
        [|discriminate].
      intros [= <- _]. cbn. rewrite dom_insert_L.
      now apply subseteq_union_1_L, singleton_subseteq_l.
  - unfold cancel_job.
    destruct (js_jobs w !! j) as [job|] eqn:Hj; [|now intros [= <- _]].
    assert (Hin : j ∈ dom (js_jobs w)) by (apply elem_of_dom; eauto).
    destruct (negb _); [now intros [= <- _]|].
    intros [= <- _]. cbn. rewrite dom_insert_L.
      now apply subseteq_union_1_L, singleton_subseteq_l.
  - unfold destroy_session.
    destruct (sm_sessions w !! sid) as [s|]; [|now intros [= <- _]].
    intros [= <- _]. cbn. apply set_eq. intros j.
    rewrite !elem_of_dom, cancel_tasks_lookup.
    destruct (js_jobs w !! j); cbn; split; intros [x Hx]; eauto; discriminate.
Qed.

Lemma step_consistent l w w' effs :
  consistent w ->
  fresh_creates [l] (dom (js_jobs w)) = true ->
  step key l w = Some (w', effs) -> consistent w'.
Proof.
  intros Hc Hf. destruct l as [sid r j now|j e r|j now|sid]; cbn.
  - destruct (create_job _ _ _ _ _) as [w1|] eqn:E; [|discriminate].
    intros [= <- _]. eapply create_job_consistent; eauto.
    cbn in Hf. apply andb_true_iff in Hf as [Hf _].
    apply bool_decide_eq_true_1 in Hf. now apply not_elem_of_dom.
  - apply engine_step_consistent. exact Hc.
  - pose proof (cancel_job_consistent now j w Hc) as H.
    destruct (cancel_job now j w) as [[b w1] effs1]. now intros [= <- _].
  - pose proof (destroy_session_consistent sid w Hc) as H.
    destruct (destroy_session sid w) as [[b w1] effs1]. now intros [= <- _].
Qed.

(** X11.  The session registry and the job registry stay consistent along
    every schedule of job creations (each with a fresh id), engine steps,
    cancellations and session teardowns: a session is filed under its own
    id, every job a session lists exists and names that session, and every
    job whose session is still registered is listed by it. *)
Theorem run_consistent (ls : list label) (w : World) (ws : list World)
    (effs : list effect) :
  consistent w ->
  fresh_creates ls (dom (js_jobs w)) = true ->
  run key ls w = Some (ws, effs) ->
  Forall consistent ws.
Proof.
  revert w ws effs. induction ls as [|l ls IH]; intros w ws effs Hc Hf; cbn.
  - intros [= <- _]. constructor.
  - destruct (step key l w) as [[w1 effs1]|] eqn:E1; [|discriminate].
    destruct (run key ls w1) as [[ws' effs']|] eqn:E2; [|discriminate].
    intros [= <- _].
    assert (Hl : fresh_creates [l] (dom (js_jobs w)) = true).
    { destruct l; cbn in *; auto. apply andb_true_iff in Hf as [-> _].
      reflexivity. }
    pose proof (step_consistent _ _ _ _ Hc Hl E1) as Hc1.
    constructor; [exact Hc1|]. eapply IH; eauto.
    rewrite (step_job_ids _ _ _ _ E1).
    destruct l; cbn in *; auto. now apply andb_true_iff in Hf as [_ Hf].
Qed.
End Consistency.

Lemma run_consistent_witness :
  exists ws effs,
    run (F := toy_fernet) x2a two_jobs_schedule demo_world = Some (ws, effs)
    /\ Forall consistent ws.
Proof.
  do 2 eexists. split; [vm_compute; reflexivity|].
  eapply (run_consistent (F := toy_fernet) x2a two_jobs_schedule demo_world).
  - split; [|split]; cbn.
    + intros sid s Hs. apply lookup_singleton_Some in Hs as [<- <-].
      reflexivity.
    + intros sid s j Hs. apply lookup_singleton_Some in Hs as [<- <-].
      cbn. intros Hj. now apply elem_of_nil in Hj.
    + intros j job s Hj. now rewrite lookup_empty in Hj.
  - vm_compute. reflexivity.
  - vm_compute. reflexivity.
Defined.

(** ** Session teardown and the jobs of the session *)

Lemma demo_world_consistent : consistent demo_world.
Proof.
  split; [|split]; cbn.
  - intros sid s Hs. apply lookup_singleton_Some in Hs as [<- <-].
    reflexivity.
  - intros sid s j Hs. apply lookup_singleton_Some in Hs as [<- <-].
    cbn. intros Hj. now apply elem_of_nil in Hj.
  - intros j job s Hj. now rewrite lookup_empty in Hj.
Qed.

Lemma demo_created_consistent : consistent demo_created.
Proof.
  apply (create_job_consistent "s-1" (demo_request GENERAL_FIRST false) "j-1"
           0 demo_world demo_created demo_world_consistent);
    vm_compute; reflexivity.
Qed.

Section Teardown.
Context {F : Vault.Fernet}.
Variable key : Vault.fernet_key.

(** X12.  Destroying a registered session removes it, closes each of its
    websockets and logs its client out, and stops exactly its own jobs:
    the task of every job of the session is cancelled (its data are left
    as they are), so that the job's loop emits nothing any more and is
    over after at most one further step; the jobs of other sessions are
    untouched. *)
Theorem destroy_session_stops_jobs (sid : string) (w : World) (s : Session) :
  consistent w ->
  sm_sessions w !! sid = Some s ->
  exists w',
    destroy_session sid w
    = (true, w',
       (map CloseWebSocket (elements (websocket_connections s))
        ++ match rail_client s with Some c => [Logout c] | None => [] end)%list)
    /\ sm_sessions w' !! sid = None
    /\ forall j job, js_jobs w !! j = Some job ->
         if bool_decide (job_session_id (data job) = sid) then
           js_jobs w' !! j
           = Some {| data := data job; task := Task_cancel (task job) |}
           /\ forall e r w2 effs2,
                engine_step key j e r w' = Some (w2, effs2) ->
                effs2 = [] /\ forall e' r', engine_step key j e' r' w2 = None
         else js_jobs w' !! j = Some job.
Proof.
  intros (H1 & H2 & H3) Hs. unfold destroy_session. rewrite Hs.
  eexists. split; [reflexivity|]. cbn. split; [apply lookup_delete_eq|].
  intros j job Hj. rewrite cancel_tasks_lookup, Hj. cbn.
  case_bool_decide as Hsid.
  - rewrite bool_decide_eq_true_2 by (eapply H3; [exact Hj|now rewrite Hsid]).
    split; [reflexivity|].
    intros e r w2 effs2. unfold engine_step at 1. cbn.
    rewrite cancel_tasks_lookup, Hj. cbn.
    rewrite bool_decide_eq_true_2 by (eapply H3; [exact Hj|now rewrite Hsid]).
    destruct (must_cancel (Task_cancel (task job))) eqn:Hm.
    + destruct (throw_cancelled _ _ _) as [[jd t]|] eqn:Ht; [|discriminate].
      intros [= <- <-]. split; [reflexivity|].
      intros e' r'. unfold engine_step. cbn. rewrite lookup_insert_eq. cbn.
      pose proof (throw_cancelled_frozen _ _ _ _ _ Ht) as Hreq.
      assert (job_session_id jd = sid) as ->.
      { unfold request_of in Hreq. injection Hreq. congruence. }
      unfold throw_cancelled in Ht.
      destruct (tpc (Task_cancel (task job))), (cancelled (data job));
        cbn in Ht; try discriminate Ht; injection Ht as <- <-; cbn;
        now rewrite lookup_delete_eq.
    + rewrite Hsid, lookup_delete_eq. discriminate.
  - rewrite bool_decide_eq_false_2; [now destruct job|].
    intros Hin. destruct (H2 _ _ _ Hs Hin) as (job0 & Hj0 & Hsid0).
    congruence.
Qed.
End Teardown.

Lemma destroy_session_stops_jobs_witness :
  exists w',
    fst (destroy_session "s-1" demo_created) = (true, w')
    /\ sm_sessions w' !! "s-1" = None
    /\ (must_cancel <$> (task <$> js_jobs w' !! "j-1")) = Some true.
Proof.
  destruct (destroy_session_stops_jobs (F := toy_fernet) x2a "s-1" demo_created
              (add_job "j-1" demo_session) demo_created_consistent eq_refl)
    as (w' & Hd & Hs & Hj).
  exists w'. split; [now rewrite Hd|]. split; [exact Hs|].
  specialize (Hj "j-1" _ eq_refl). cbn in Hj. destruct Hj as [-> _].
  reflexivity.
Defined.

(** ** The job routes: a session reaches its own jobs only *)

Lemma require_session_pass (now : Z) (sid : string) (w : World) (s : Session) :
  require_session now (Some sid) w = Pass s
  <-> sid <> "" /\ sm_sessions w !! sid = Some s /\ now <= expires_at s.
Proof.
  unfold require_session. destruct sid as [|c sid].
  - split; [discriminate|]. now intros [? _].
  - destruct (fst (get_session now (String c sid) w)) as [s'|] eqn:Hg.
    + apply get_session_some in Hg as [Hl Hle]. split.
      * intros [= <-]. split; [discriminate|]. now split.
      * intros (_ & Hl' & _). congruence.
    + split; [discriminate|]. intros (_ & Hl & Hle).
      assert (fst (get_session now (String c sid) w) = Some s) as Hg'
          by (apply get_session_some; now split).
      congruence.
Qed.

(** X13.  The job routes are scoped to the caller's session.  [GET
    /jobs/{id}] answers with the job exactly when the caller's session is
    valid and the job is registered under that session's id.  [DELETE
    /jobs/{id}] cancels only then, and only a [PENDING] or [RUNNING] job;
    whenever it does not report success, both registries are left as they
    were and nothing is broadcast; in particular a job of another session
    is answered 404, as an unknown id is. *)
Theorem job_routes_scoped (now now' : Z) (j sid : string) (w : World) :
  let own (job : Job) :=
    exists s, sid <> "" /\ sm_sessions w !! sid = Some s /\ now <= expires_at s
              /\ js_jobs w !! j = Some job
              /\ job_session_id (data job) = session_id s in
  (forall v, route_get_job now j sid w = Answer v
             <-> exists job, own job /\ v = to_response (data job))
  /\ (forall m w' effs,
        route_cancel_job now now' j sid w = (Answer m, w', effs)
        <-> exists job, own job
                        /\ member (status (data job)) [PENDING; RUNNING] = true
                        /\ (true, w', effs) = cancel_job now' j w
                        /\ m = "Job cancelled successfully")
  /\ (forall rep w' effs,
        route_cancel_job now now' j sid w = (rep, w', effs) ->
        (forall m, rep <> Answer m) -> w' = w /\ effs = [])
  /\ (forall s job,
        require_session now (Some sid) w = Pass s ->
        js_jobs w !! j = Some job ->
        job_session_id (data job) <> session_id s ->
        route_get_job now j sid w = HTTPException 404 "Job not found"
        /\ route_cancel_job now now' j sid w
           = (HTTPException 404 "Job not found", w, [])).
Proof.
  intros own. unfold route_get_job, route_cancel_job, get_job.
  destruct (require_session now (Some sid) w) as [s|e] eqn:Hr.
  - apply require_session_pass in Hr as (Hne & Hs & Hle).
    destruct (js_jobs w !! j) as [job|] eqn:Hj.
    + destruct (String.eqb_spec (job_session_id (data job)) (session_id s))
        as [Heq|Hneq]; cbn.
      * assert (Hown : own job) by (exists s; auto).
        unfold cancel_job. rewrite Hj.
        destruct (member (status (data job)) [PENDING; RUNNING]) eqn:Hm; cbn.
        -- split; [|split; [|split]].
           ++ intros v. split; [intros [= <-]; eauto|].
              intros (job' & (s' & _ & _ & _ & [= <-] & _) & ->). reflexivity.
           ++ intros m w' effs. split.
              ** intros [= <- <- <-]. exists job. auto.
              ** intros (job' & _ & _ & [= -> ->] & ->). reflexivity.
           ++ intros rep w' effs [= <- <- <-] Hrep. destruct (Hrep _ eq_refl).
           ++ intros s' job' [= <-] [= <-] Hx. contradiction.
        -- split; [|split; [|split]].
           ++ intros v. split; [intros [= <-]; eauto|].
              intros (job' & (s' & _ & _ & _ & [= <-] & _) & ->). reflexivity.
           ++ intros m w' effs. split; [discriminate|].
              intros (job' & (s' & _ & _ & _ & [= <-] & _) & Hm' & _).
              change (member (status (data job)) [PENDING; RUNNING] = true)
                in Hm'.
              congruence.
           ++ intros rep w' effs [= <- <- <-] _. auto.
           ++ intros s' job' [= <-] [= <-] Hx. contradiction.
      * split; [|split; [|split]].
        -- intros v. split; [discriminate|].
           intros (job' & (s' & _ & Hs' & _ & [= <-] & Hid) & _). congruence.
        -- intros m w' effs. split; [discriminate|].
           intros (job' & (s' & _ & Hs' & _ & [= <-] & Hid) & _). congruence.
        -- intros rep w' effs [= <- <- <-] _. auto.
        -- intros s' job' _ _ _. auto.
    + split; [|split; [|split]].
      * intros v. split; [discriminate|].
        intros (job' & (s' & _ & _ & _ & [=] & _) & _).
      * intros m w' effs. split; [discriminate|].
        intros (job' & (s' & _ & _ & _ & [=] & _) & _).
      * intros rep w' effs [= <- <- <-] _. auto.
      * intros s' job' _ [=].
  - assert (Hno : forall s, ~ (sid <> "" /\ sm_sessions w !! sid = Some s
                               /\ now <= expires_at s)).
    { intros s Hs. apply require_session_pass in Hs. congruence. }
    split; [|split; [|split]].
    + intros v. split; [discriminate|].
      intros (job' & (s' & H1 & H2 & H3 & _) & _). destruct (Hno s'). auto.
    + intros m w' effs. split; [discriminate|].
      intros (job' & (s' & H1 & H2 & H3 & _) & _). destruct (Hno s'). auto.
    + intros rep w' effs [= <- <- <-] _. auto.
    + intros s' job' [=].
Qed.


Lemma omap_total_length {A B} (f : A -> option B) (l : list A) :
  (forall x, x ∈ l -> is_Some (f x)) -> length (omap f l) = length l.
Proof.
  induction l as [|x l IH]; intros H; cbn; [reflexivity|].
  destruct (H x) as [y ->]; [apply list_elem_of_here|]. cbn.
  rewrite IH; [reflexivity|]. intros z Hz. apply H. now apply list_elem_of_further.
Qed.

Lemma refresh_session_jobs ttl now sid w :
  js_jobs (snd (refresh_session ttl now sid w)) = js_jobs w.
Proof.
  unfold refresh_session. destruct (sm_sessions w !! sid); [|reflexivity].
  now destruct (negb _).
Qed.

Lemma refresh_session_lookup ttl now sid w sid' :
  sm_sessions (snd (refresh_session ttl now sid w)) !! sid'
  = (fun s => if bool_decide (sid' = sid) && fst (refresh_session ttl now sid w)
              then set_expires_at (now + ttl) s else s)
    <$> sm_sessions w !! sid'.
Proof.
  unfold refresh_session.
  destruct (sm_sessions w !! sid) as [s|] eqn:Hs.
  - destruct (negb _); cbn.
    + case_bool_decide as Hd; cbn.
      * subst. now rewrite lookup_insert_eq, Hs.
      * rewrite lookup_insert_ne by congruence.
        now destruct (sm_sessions w !! sid').
    + rewrite andb_false_r. now destruct (sm_sessions w !! sid').
  - cbn. rewrite andb_false_r. now destruct (sm_sessions w !! sid').
Qed.


(** X14.  [GET /jobs] lists the caller's own jobs and no others: with
    consistent registries and a valid session it answers one entry for
    each job the session created, and a job appears in the answer exactly
    when it is registered under the caller's session id.  The route
    changes no job. *)
Theorem list_jobs_own (ttl now now' : Z) (sid : string) (w : World)
    (s : Session) :
  consistent w ->
  require_session now (Some sid) w = Pass s ->
  exists l w',
    route_list_jobs ttl now now' sid w = (Answer l, w')
    /\ js_jobs w' = js_jobs w
    /\ length l = length (jobs s)
    /\ forall v, v ∈ l
                 <-> exists j job, js_jobs w !! j = Some job
                                   /\ job_session_id (data job) = sid
                                   /\ v = to_response (data job).
Proof.
  intros (H1 & H2 & H3) Hr. unfold route_list_jobs. rewrite Hr.
  apply require_session_pass in Hr as (Hne & Hs & Hle).
  pose proof (refresh_session_jobs ttl now' sid w) as Hjobs.
  destruct (refresh_session ttl now' sid w) as [b w1]. cbn in Hjobs.
  do 2 eexists. split; [reflexivity|]. split; [exact Hjobs|].
  unfold get_session_jobs. rewrite Hjobs. split.
  - rewrite length_map. apply omap_total_length. intros j Hj.
    destruct (H2 _ _ _ Hs Hj) as (job & -> & _). cbn. eauto.
  - intros v. rewrite list_elem_of_fmap. split.
    + intros (jd & -> & Hjd). apply list_elem_of_omap in Hjd as (j & Hj & Hl).
      destruct (js_jobs w !! j) as [job|] eqn:Hjob; [|discriminate].
      injection Hl as <-. destruct (H2 _ _ _ Hs Hj) as (job' & Hjob' & Hsid).
      exists j, job. split; [exact Hjob|]. split; [congruence|reflexivity].
    + intros (j & job & Hjob & Hsid & ->). exists (data job).
      split; [reflexivity|]. apply list_elem_of_omap. exists j. split.
      * eapply H3; [exact Hjob|]. now rewrite Hsid.
      * now rewrite Hjob.
Qed.

Lemma shared_world_consistent : consistent shared_world.
Proof.
  split; [|split]; cbn.
  - intros sid s Hs.
    apply lookup_insert_Some in Hs as [[<- <-]|[_ Hs]]; [reflexivity|].
    apply lookup_singleton_Some in Hs as [<- <-]. reflexivity.
  - intros sid s j Hs Hj.
    apply lookup_insert_Some in Hs as [[<- <-]|[_ Hs]].
    + cbn in Hj. apply list_elem_of_singleton in Hj as ->.
      eexists. split; [reflexivity|reflexivity].
    + apply lookup_singleton_Some in Hs as [<- <-].
      cbn in Hj. apply list_elem_of_singleton in Hj as ->.
      eexists. split; [reflexivity|reflexivity].
  - intros j job s Hj.
    apply lookup_insert_Some in Hj as [[<- <-]|[_ Hj]].
    + cbn. intros [= <-]. cbn. apply list_elem_of_here.
    + apply lookup_singleton_Some in Hj as [<- <-].
      cbn. intros [= <-]. cbn. apply list_elem_of_here.
Qed.

Lemma list_jobs_own_witness :
  exists l w',
    route_list_jobs 1800 10 11 "s-1" shared_world = (Answer l, w')
    /\ length l = 1%nat.
Proof.
  destruct (list_jobs_own 1800 10 11 "s-1" shared_world
              (add_job "j-1" demo_session) shared_world_consistent eq_refl)
    as (l & w' & Hl & _ & Hlen & _).
  exists l, w'. split; [exact Hl|exact Hlen].
Defined.



(** ** Job engine: after the end, and after a cancellation *)

Section AfterTheEnd.
Context {F : Vault.Fernet}.
Variable key : Vault.fernet_key.

Lemma run_job_inv (ls : list label) :
  forall (w : World) (ws : list World) (effs : list effect) (j : string)
         (job : Job),
    forallb engine_or_cancel ls = true ->
    js_jobs w !! j = Some job ->
    job_inv job = true ->
    run key ls w = Some (ws, effs) ->
    Forall (fun w' => exists job', js_jobs w' !! j = Some job'
                                   /\ job_inv job' = true) ws.
Proof.
  induction ls as [|l ls IH]; intros w ws effs j job Hls Hj Hinv; cbn.
  - intros [= <- _]. constructor.
  - cbn in Hls. apply andb_true_iff in Hls as [Hl Hls].
    destruct (step key l w) as [[w1 effs1]|] eqn:E1; [|discriminate].
    destruct (run key ls w1) as [[ws' effs']|] eqn:E2; [|discriminate].
    intros [= <- _].
    destruct (step_job_inv key _ _ _ _ _ _ Hl Hj Hinv E1)
      as (job1 & Hj1 & Hinv1 & _).
    constructor; [eauto|]. eapply IH; eauto.
Qed.

(** Once the job has ended, a step of its loop only reports: it
    broadcasts or notifies, and calls neither the provider nor [sleep]. *)
Lemma resume_task_silent e r s jd t s' jd' t' effs :
  job_inv {| data := jd; task := t |} = true ->
  must_cancel t = false ->
  terminal (status jd) = true ->
  resume_task key e r s jd t = Some (s', jd', t', effs) ->
  loop_calls effs = [].
Proof.
  intros Hinv Hm Hterm H. unfold job_inv, done in Hinv. cbn in Hinv.
  rewrite Hm in Hinv. unfold resume_task in H.
  destruct (status jd) eqn:Hst; try discriminate Hterm;
    destruct (tpc t) eqn:Hpc; try discriminate Hinv;
    destruct r as [|o|o|o|o]; try discriminate H.
  all: try (rewrite andb_false_r in Hinv; discriminate Hinv).
  all: split_match H.
  all: unfold stepped in H; injection H as <- <- <- <-; reflexivity.
Qed.

Lemma resume_task_over e r s jd t :
  done t = true -> resume_task key e r s jd t = None.
Proof.
  unfold done, resume_task. destruct (tpc t); try discriminate.
  intros _. now destruct r.
Qed.

(** Whatever acts on the registries, [loose_inv] is kept. *)
Lemma step_loose_inv (l : label) (w w' : World) (effs : list effect)
    (j : string) (job : Job) :
  js_jobs w !! j = Some job ->
  loose_inv job = true ->
  step key l w = Some (w', effs) ->
  exists job', js_jobs w' !! j = Some job' /\ loose_inv job' = true.
Proof.
  intros Hj Hinv.
  destruct l as [sid r j0 now|j0 e r|j0 now|sid]; cbn.
  - unfold create_job.
    destruct (sm_sessions w !! sid) as [s|]; [|discriminate].
    intros [= <- _]. cbn.
    destruct (decide (j0 = j)) as [->|Hne].
    + rewrite lookup_insert_eq. eexists. split; [reflexivity|]. reflexivity.
    + rewrite lookup_insert_ne by exact Hne. eauto.
  - unfold engine_step.
    destruct (js_jobs w !! j0) as [job0|] eqn:Hj0; [|discriminate].
    destruct (must_cancel (task job0)) eqn:Hm.
    + destruct (throw_cancelled _ _ _) as [[jd t]|] eqn:Ht; [|discriminate].
      intros [= <- _]. cbn.
      destruct (decide (j0 = j)) as [->|Hne].
      * rewrite lookup_insert_eq. eexists. split; [reflexivity|].
        apply throw_cancelled_finished in Ht as [Hfin _].
        unfold loose_inv, done. cbn. rewrite Hfin.
        now rewrite orb_true_r.
      * rewrite lookup_insert_ne by exact Hne. eauto.
    + destruct (sm_sessions w !! _) as [s|]; [|discriminate].
      destruct (resume_task _ _ _ _ _ _) as [[[[s' jd] t] effs']|] eqn:Hr;
        [|discriminate].
      intros [= <- _]. cbn.
      destruct (decide (j0 = j)) as [->|Hne].
      * rewrite lookup_insert_eq. rewrite Hj in Hj0. injection Hj0 as <-.
        destruct job as [jd0 t0]. cbn in *.
        eexists. split; [reflexivity|].
        unfold loose_inv in Hinv. cbn in Hinv. rewrite Hm in Hinv.
        destruct (done t0) eqn:Hd.
        -- now rewrite resume_task_over in Hr.
        -- cbn in Hinv.
           apply (resume_task_job_inv key) in Hr as (Hi & _); auto.
           unfold loose_inv. rewrite Hi. apply orb_true_r.
      * rewrite lookup_insert_ne by exact Hne. eauto.
  - unfold cancel_job.
    destruct (js_jobs w !! j0) as [job0|] eqn:Hj0; [|intros [= <- _]; eauto].
    destruct (negb _); [intros [= <- _]; eauto|].
    intros [= <- _]. cbn.
    destruct (decide (j0 = j)) as [->|Hne].
    + rewrite lookup_insert_eq. eexists. split; [reflexivity|].
      unfold loose_inv. cbn. now rewrite Task_cancel_marked.
    + rewrite lookup_insert_ne by exact Hne. eauto.
  - unfold destroy_session.
    destruct (sm_sessions w !! sid) as [s|]; [|intros [= <- _]; eauto].
    intros [= <- _]. cbn. rewrite cancel_tasks_lookup, Hj. cbn.
    eexists. split; [reflexivity|]. case_bool_decide; [|now destruct job].
    unfold loose_inv. cbn. now rewrite Task_cancel_marked.
Qed.

Lemma run_loose_inv (ls : list label) :
  forall (w : World) (ws : list World) (effs : list effect) (j : string)
         (job : Job),
    js_jobs w !! j = Some job ->
    loose_inv job = true ->
    run key ls w = Some (ws, effs) ->
    Forall (fun w' => exists job', js_jobs w' !! j = Some job'
                                   /\ loose_inv job' = true) ws.
Proof.
  induction ls as [|l ls IH]; intros w ws effs j job Hj Hinv; cbn.
  - intros [= <- _]. constructor.
  - destruct (step key l w) as [[w1 effs1]|] eqn:E1; [|discriminate].
    destruct (run key ls w1) as [[ws' effs']|] eqn:E2; [|discriminate].
    intros [= <- _].
    destruct (step_loose_inv _ _ _ _ _ _ Hj Hinv E1) as (job1 & Hj1 & Hinv1).
    constructor; [eauto|]. eapply IH; eauto.
Qed.

(** X16.  A job that has reached [SUCCESS], [FAILED] or [CANCELLED] calls
    the provider no more.  Along every schedule after its creation, of job
    creations, engine steps, cancellations and session teardowns alike, a
    step of the loop of an ended job emits no search, login, reservation,
    standby request or sleep.  Along the schedules of engine steps and
    cancellations only, the step also leaves the job's data as they are
    (after a teardown it may still rewrite the status to [CANCELLED]). *)
Theorem ended_job_is_silent (sid : string) (r : JobCreateRequest) (j : string)
    (t0 : Z) (w_pre w0 : World) (ls : list label) (ws : list World)
    (effs : list effect) :
  create_job sid r j t0 w_pre = Some w0 ->
  run key ls w0 = Some (ws, effs) ->
  forall w job e x w' effs',
    w ∈ w0 :: ws ->
    js_jobs w !! j = Some job ->
    terminal (status (data job)) = true ->
    engine_step key j e x w = Some (w', effs') ->
    loop_calls effs' = []
    /\ (forallb engine_or_cancel ls = true -> data_of j w' = Some (data job)).
Proof.
  intros Hc Hrun w job e x w' effs' Hw Hj Hterm Hstep.
  unfold create_job in Hc.
  destruct (sm_sessions w_pre !! sid) as [s|]; [|discriminate].
  injection Hc as <-.
  split.
  - assert (Hinv : loose_inv job = true).
    { assert (Hall : Forall (fun w' => exists job',
                                 js_jobs w' !! j = Some job'
                                 /\ loose_inv job' = true) ws).
      { eapply run_loose_inv; [| |exact Hrun].
        - cbn. apply lookup_insert_eq.
        - reflexivity. }
      apply elem_of_cons in Hw as [->|Hw].
      - cbn in Hj. rewrite lookup_insert_eq in Hj. now injection Hj as <-.
      - rewrite Forall_forall in Hall.
        destruct (Hall _ Hw) as (job' & Hj' & Hinv'). congruence. }
    unfold engine_step in Hstep. rewrite Hj in Hstep.
    destruct (must_cancel (task job)) eqn:Hm.
    + destruct (throw_cancelled _ _ _) as [[jd t]|]; [|discriminate].
      now injection Hstep as _ <-.
    + destruct (sm_sessions w !! _) as [s0|]; [|discriminate].
      destruct (resume_task _ _ _ _ _ _) as [[[[s' jd] t] effs1]|] eqn:Hr;
        [|discriminate].
      injection Hstep as _ <-. destruct job as [jd0 t0']. cbn in *.
      unfold loose_inv in Hinv. cbn in Hinv. rewrite Hm in Hinv.
      destruct (done t0') eqn:Hd; [now rewrite resume_task_over in Hr|].
      cbn in Hinv. eapply resume_task_silent; eauto.
  - intros Hls.
    assert (Hinv : job_inv job = true).
    { assert (Hall : Forall (fun w' => exists job',
                                 js_jobs w' !! j = Some job'
                                 /\ job_inv job' = true) ws).
      { eapply run_job_inv; [exact Hls| | |exact Hrun].
        - cbn. apply lookup_insert_eq.
        - reflexivity. }
      apply elem_of_cons in Hw as [->|Hw].
      - cbn in Hj. rewrite lookup_insert_eq in Hj. now injection Hj as <-.
      - rewrite Forall_forall in Hall.
        destruct (Hall _ Hw) as (job' & Hj' & Hinv'). congruence. }
    destruct (step_job_inv key (EngineStep j e x) _ _ _ _ _ eq_refl Hj Hinv
                Hstep) as (job' & Hj' & _ & _ & Hkeep).
    unfold data_of. now rewrite Hj', Hkeep.
Qed.

Lemma throw_cancelled_marked now jd t :
  cancelled jd = true -> done t = false ->
  throw_cancelled now jd t
  = Some (jd, {| tpc := Finished; must_cancel := false;
                 rail_service := rail_service t |}).
Proof.
  intros Hc Hd. unfold throw_cancelled, done in *. rewrite Hc.
  destruct (tpc t); try discriminate Hd; reflexivity.
Qed.

(** X17.  A successful [cancel_job] takes effect at the very next step of
    the job's loop, whatever the call it awaited hands back (a completed
    reservation included): the step emits nothing, leaves the job
    [CANCELLED] with the data [cancel_job] wrote and the sessions as they
    were, and ends the loop, which cannot be resumed again. *)
Theorem cancel_discards_pending_result (now : Z) (j : string)
    (w w1 : World) (effs : list effect) (job : Job) :
  js_jobs w !! j = Some job ->
  job_inv job = true ->
  cancel_job now j w = (true, w1, effs) ->
  forall e r,
    exists w2,
      engine_step key j e r w1 = Some (w2, [])
      /\ data_of j w2 = data_of j w1
      /\ status_of j w2 = Some CANCELLED
      /\ sm_sessions w2 = sm_sessions w1
      /\ forall e' r', engine_step key j e' r' w2 = None.
Proof.
  intros Hj Hinv Hc e r. unfold cancel_job in Hc. rewrite Hj in Hc.
  destruct (negb _) eqn:Hneg; [discriminate|]. injection Hc as <- _.
  assert (Hd : done (task job) = false).
  { unfold job_inv in Hinv. unfold done.
    destruct (status (data job)); try discriminate Hneg;
      destruct (tpc (task job)); try discriminate Hinv; reflexivity. }
  assert (Ht : Task_cancel (task job)
               = {| tpc := tpc (task job); must_cancel := true;
                    rail_service := rail_service (task job) |}).
  { unfold Task_cancel. now rewrite Hd. }
  rewrite Ht. unfold engine_step at 1. cbn. rewrite lookup_insert_eq. cbn.
  rewrite throw_cancelled_marked by (try reflexivity; exact Hd).
  eexists. split; [reflexivity|].
  unfold data_of, status_of. cbn. rewrite !lookup_insert_eq. cbn.
  split; [reflexivity|]. split; [reflexivity|]. split; [reflexivity|].
  intros e' r'. unfold engine_step. cbn. rewrite lookup_insert_eq. cbn.
  destruct (sm_sessions w !! _); [|reflexivity].
  now destruct r'.
Qed.
End AfterTheEnd.

Lemma ended_job_is_silent_witness :
  exists ws effs w job,
    run (F := toy_fernet) x2a teardown_schedule demo_created = Some (ws, effs)
    /\ ws !! 6%nat = Some w
    /\ js_jobs w !! "j-1" = Some job /\ status (data job) = SUCCESS
    /\ forall e x w' effs',
         engine_step (F := toy_fernet) x2a "j-1" e x w = Some (w', effs') ->
         loop_calls effs' = [].
Proof.
  destruct (run (F := toy_fernet) x2a teardown_schedule demo_created)
    as [[ws effs]|] eqn:Hrun; [|discriminate].
  destruct (ws !! 6%nat) as [w|] eqn:Hw; [|revert Hw; revert Hrun;
    vm_compute; intros [= <- _]; discriminate].
  destruct (js_jobs w !! "j-1") as [job|] eqn:Hj; [|revert Hj Hw Hrun;
    vm_compute; intros Hj Hl [= <- _]; injection Hl as <-; discriminate].
  exists ws, effs, w, job. split; [reflexivity|]. split; [exact Hw|].
  split; [exact Hj|].
  assert (Hst : status (data job) = SUCCESS).
  { revert Hj Hw Hrun. vm_compute. intros Hj Hl [= <- _].
    injection Hl as <-. now injection Hj as <-. }
  split; [exact Hst|]. intros e x w' effs' Hstep.
  eapply (ended_job_is_silent (F := toy_fernet) x2a "s-1"
            (demo_request GENERAL_FIRST false) "j-1" 0 demo_world demo_created
            teardown_schedule ws effs); [reflexivity|exact Hrun| |exact Hj| |
                                         exact Hstep].
  - apply elem_of_cons. right. apply list_elem_of_lookup. eauto.
  - now rewrite Hst.
Defined.

Lemma cancel_discards_pending_result_witness :
  exists w1 effs w2,
    cancel_job 1 "j-1" demo_created = (true, w1, effs)
    /\ engine_step (F := toy_fernet) x2a "j-1" (at_time 2)
         (Reserved (Ok demo_reservation)) w1 = Some (w2, [])
    /\ status_of "j-1" w2 = Some CANCELLED.
Proof.
  destruct (cancel_job 1 "j-1" demo_created) as [[b w1] effs] eqn:Hc.
  assert (b = true) as -> by (revert Hc; vm_compute; now intros [= <- _ _]).
  destruct (cancel_discards_pending_result (F := toy_fernet) x2a 1 "j-1"
              demo_created w1 effs _ eq_refl eq_refl Hc (at_time 2)
              (Reserved (Ok demo_reservation)))
    as (w2 & Hstep & _ & Hst & _).
  exists w1, effs, w2. auto.
Defined.

(** ** Job engine: the records of a job *)

Section Records.
Context {F : Vault.Fernet}.
Variable key : Vault.fernet_key.

Ltac rec_crush :=
  unfold rec_lands, records_at, fresh_run in *; cbn in *;
  repeat match goal with
         | H : _ && _ = true |- _ => apply andb_true_iff in H as [? ?]
         end;
  repeat (apply andb_true_iff; split); try assumption; try reflexivity;
  try (apply Z.leb_le; lia).

Lemma go_sleep_rec jd :
  status jd = RUNNING -> fresh_run jd = true -> 1 <= attempt_count jd ->
  rec_lands (go_sleep jd) = true.
Proof. intros Hs Hf Ha. unfold rec_lands. cbn. unfold records_at.
  rewrite Hs, Hf. cbn. apply Z.leb_le. lia. Qed.

Lemma on_exception_rec now x s jd :
  fresh_run jd = true -> 1 <= attempt_count jd ->
  rec_lands (on_exception now x s jd) = true.
Proof. intros Hf Ha. rec_crush. Qed.

Lemma on_rail_error_rec now c m s jd :
  status jd = RUNNING -> fresh_run jd = true -> 1 <= attempt_count jd ->
  rec_lands (on_rail_error now c m s jd) = true.
Proof.
  intros Hs Hf Ha. unfold on_rail_error.
  destruct (negb _); [rec_crush|now apply go_sleep_rec].
Qed.

Lemma on_reserve_error_rec c m s jd a :
  status jd = RUNNING -> fresh_run jd = true -> 1 <= attempt_count jd ->
  rec_lands (on_reserve_error c m s jd a) = true.
Proof. intros Hs Hf Ha. unfold rec_lands. cbn. unfold records_at.
  rewrite Hs, Hf. cbn. apply Z.leb_le. lia. Qed.

Lemma loop_top_rec svc jd :
  status jd = RUNNING -> cancelled jd = false -> fresh_run jd = true ->
  0 <= attempt_count jd ->
  rec_lands (loop_top svc jd) = true.
Proof.
  intros Hs Hc Hf Ha. unfold loop_top. rewrite Hc.
  unfold rec_lands. cbn. unfold records_at. cbn. rewrite Hs.
  change (fresh_run (set_attempt_count (attempt_count jd + 1) jd))
    with (fresh_run jd).
  rewrite Hf. cbn. apply Z.leb_le. lia.
Qed.

Lemma after_search_rec now trains s jd :
  status jd = RUNNING -> fresh_run jd = true -> 1 <= attempt_count jd ->
  rec_lands (after_search now trains s jd) = true.
Proof.
  intros Hs Hf Ha. unfold after_search.
  destruct (available_seats _ _); [|now apply on_exception_rec].
  unfold rec_lands. cbn. unfold records_at. rewrite Hs, Hf. cbn.
  apply Z.leb_le. lia.
Qed.

Lemma for_selected_rec now trains idxs s jd :
  status jd = RUNNING -> fresh_run jd = true -> 1 <= attempt_count jd ->
  rec_lands (for_selected now trains idxs s jd) = true.
Proof.
  intros Hs Hf Ha. unfold for_selected.
  destruct (scan _ _ _);
    [|now apply go_sleep_rec|now apply on_exception_rec].
  unfold rec_lands. cbn. unfold records_at. rewrite Hs, Hf. cbn.
  apply Z.leb_le. lia.
Qed.

Lemma succeed_rec now r a s jd :
  fresh_run jd = true -> 1 <= attempt_count jd ->
  rec_lands (succeed now r a s jd) = true.
Proof. intros Hf Ha. rec_crush. Qed.

Lemma plain_rec jd p effs :
  status jd = RUNNING -> fresh_run jd = true -> 1 <= attempt_count jd ->
  p <> AtJobStarted ->
  rec_lands (jd, p, effs) = true.
Proof.
  intros Hs Hf Ha Hp. unfold rec_lands. cbn. unfold records_at.
  rewrite Hs, Hf. cbn.
  destruct p; try (apply Z.leb_le; lia). now destruct Hp.
Qed.

(** The records of an ended job do not depend on where its loop waits. *)
Lemma records_at_ended jd p q :
  status jd <> RUNNING -> records_at jd p = records_at jd q.
Proof. unfold records_at. destruct (status jd); congruence. Qed.

Lemma records_at_running jd p :
  status jd = RUNNING -> records_at jd p = true ->
  fresh_run jd = true /\ 0 <= attempt_count jd
  /\ (p <> AtJobStarted -> 1 <= attempt_count jd).
Proof.
  unfold records_at. intros ->. intros H.
  apply andb_true_iff in H as [Hf Hp]. split; [exact Hf|].
  destruct p; try (apply Z.leb_le in Hp; split; [lia|intros _; lia]).
  apply Z.eqb_eq in Hp. split; [lia|]. intros Hx. now destruct Hx.
Qed.

Create HintDb recs.
#[local] Hint Resolve go_sleep_rec on_exception_rec on_rail_error_rec
  on_reserve_error_rec loop_top_rec after_search_rec for_selected_rec
  succeed_rec plain_rec : recs.

Lemma resume_task_records e r s jd t s' jd' t' effs :
  job_inv {| data := jd; task := t |} = true ->
  must_cancel t = false ->
  records_at jd (tpc t) = true ->
  resume_task key e r s jd t = Some (s', jd', t', effs) ->
  records_at jd' (tpc t') = true.
Proof.
  intros Hinv Hm Hrec H. unfold job_inv, done in Hinv. cbn in Hinv.
  rewrite Hm in Hinv.
  destruct (status jd) eqn:Hst.
  - (* PENDING *)
    unfold resume_task in H.
    destruct (tpc t) eqn:Hpc; try discriminate Hinv.
    destruct r; try discriminate H.
    apply stepped_inv in H as (_ & Hx & _). injection Hx as <- <- _.
    unfold records_at in *. rewrite Hst in Hrec. cbn.
    repeat match goal with
           | H : _ && _ = true |- _ => apply andb_true_iff in H as [? ?]
           end.
    unfold fresh_run. cbn.
    repeat (apply andb_true_iff; split); auto.
  - (* RUNNING *)
    destruct (records_at_running _ _ Hst Hrec) as (Hf & Ha0 & Ha1).
    assert (Hc : cancelled jd = false).
    { apply andb_true_iff in Hinv as [_ Hc]. now apply negb_true_iff in Hc. }
    unfold resume_task in H.
    destruct (tpc t) eqn:Hpc; try discriminate Hinv;
      destruct r as [|o|o|o|o]; try discriminate H.
    all: try (assert (Ha : 1 <= attempt_count jd)
               by (apply Ha1; discriminate)).
    all: split_match H.
    all: apply stepped_inv in H as (_ & Hx & _).
    all: change (rec_lands (jd', tpc t', effs) = true); rewrite <- Hx.
    all: try solve [eauto with recs].
    all: try solve [apply plain_rec; auto; discriminate].
  - (* SUCCESS *)
    unfold resume_task in H.
    destruct (tpc t) eqn:Hpc; try discriminate Hinv;
      destruct r as [|o|o|o|o]; try discriminate H.
    all: split_match H.
    all: apply stepped_inv in H as (_ & Hx & _); injection Hx as <- _ _.
    all: erewrite records_at_ended; [exact Hrec|congruence].
  - (* FAILED *)
    unfold resume_task in H.
    destruct (tpc t) eqn:Hpc; try discriminate Hinv;
      destruct r as [|o|o|o|o]; try discriminate H.
    all: split_match H.
    all: apply stepped_inv in H as (_ & Hx & _); injection Hx as <- _ _.
    all: erewrite records_at_ended; [exact Hrec|congruence].
  - (* CANCELLED *)
    unfold resume_task in H.
    destruct (tpc t) eqn:Hpc; cbn in Hinv; rewrite ?andb_false_r in Hinv;
      try discriminate Hinv.
    now destruct r.
Qed.

Lemma step_records (l : label) (w w' : World) (effs : list effect)
    (j : string) (job : Job) :
  engine_or_cancel l = true ->
  js_jobs w !! j = Some job ->
  job_inv job = true ->
  records_at (data job) (tpc (task job)) = true ->
  step key l w = Some (w', effs) ->
  exists job', js_jobs w' !! j = Some job'
               /\ records_at (data job') (tpc (task job')) = true.
Proof.
  intros Hl Hj Hinv Hrec.
  destruct l as [sid r j0 now|j0 e r|j0 now|sid]; try discriminate Hl; cbn.
  - unfold engine_step.
    destruct (js_jobs w !! j0) as [job0|] eqn:Hj0; [|discriminate].
    destruct (must_cancel (task job0)) eqn:Hm.
    + destruct (throw_cancelled _ _ _) as [[jd t]|] eqn:Ht; [|discriminate].
      intros [= <- _]. cbn.
      destruct (decide (j0 = j)) as [->|Hne].
      * rewrite lookup_insert_eq. rewrite Hj in Hj0. injection Hj0 as <-.
        destruct job as [jd0 t0]. cbn in *.
        pose proof Hinv as Hinv0.
        apply (throw_cancelled_job_inv _ _ _ _ _ Hinv Hm) in Ht as [_ ->].
        eexists. split; [reflexivity|]. cbn.
        erewrite records_at_ended; [exact Hrec|].
        unfold job_inv in Hinv0. cbn in Hinv0. rewrite Hm in Hinv0.
        intros Hst. rewrite Hst in Hinv0.
        now rewrite andb_false_r in Hinv0.
      * rewrite lookup_insert_ne by exact Hne. eauto.
    + destruct (sm_sessions w !! _) as [s|]; [|discriminate].
      destruct (resume_task _ _ _ _ _ _) as [[[[s' jd] t] effs']|] eqn:Hr;
        [|discriminate].
      intros [= <- _]. cbn.
      destruct (decide (j0 = j)) as [->|Hne].
      * rewrite lookup_insert_eq. rewrite Hj in Hj0. injection Hj0 as <-.
        destruct job as [jd0 t0]. cbn in *.
        eexists. split; [reflexivity|]. cbn.
        eapply resume_task_records; eauto.
      * rewrite lookup_insert_ne by exact Hne. eauto.
  - unfold cancel_job.
    destruct (js_jobs w !! j0) as [job0|] eqn:Hj0; [|intros [= <- _]; eauto].
    destruct (negb _) eqn:Hneg; [intros [= <- _]; eauto|].
    intros [= <- _]. cbn.
    destruct (decide (j0 = j)) as [->|Hne].
    + rewrite lookup_insert_eq. rewrite Hj in Hj0. injection Hj0 as <-.
      eexists. split; [reflexivity|]. cbn.
      unfold records_at in *. cbn.
      destruct (status (data job)) eqn:Hst; try discriminate Hneg.
      * repeat match goal with
               | H : _ && _ = true |- _ => apply andb_true_iff in H as [? ?]
               end.
        repeat (apply andb_true_iff; split); auto.
        apply Z.leb_le. match goal with
                        | H : (_ =? 0) = true |- _ => apply Z.eqb_eq in H
                        end. lia.
      * apply andb_true_iff in Hrec as [Hf Hp]. unfold fresh_run in Hf.
        repeat match goal with
               | H : _ && _ = true |- _ => apply andb_true_iff in H as [? ?]
               end.
        repeat (apply andb_true_iff; split); auto.
        apply Z.leb_le.
        destruct (tpc (task job));
          first [apply Z.eqb_eq in Hp|apply Z.leb_le in Hp]; lia.
    + rewrite lookup_insert_ne by exact Hne. eauto.
Qed.

Lemma records_at_ok jd p : records_at jd p = true -> records_ok jd = true.
Proof.
  unfold records_ok. destruct (status jd) eqn:Hst;
    try (intros H; erewrite records_at_ended; [exact H|congruence]).
  intros H. destruct (records_at_running _ _ Hst H) as (Hf & Ha & _).
  rewrite Hf. cbn. apply Z.leb_le. lia.
Qed.

(** X18.  Along every schedule of engine steps and cancellations after
    its creation, the records of a job fit its status: a [PENDING] job has
    no timestamps but its creation, no result, no error and no attempt; a
    [RUNNING] job has a start time and nothing concluded; a [SUCCESS] job
    has start and completion times, a result, no error and at least one
    attempt; a [FAILED] job has both times, an error, no result and at
    least one attempt; a [CANCELLED] job has a completion time and neither
    result nor error. *)
Theorem job_records_fit_status (sid : string) (r : JobCreateRequest)
    (j : string) (t0 : Z) (w_pre w0 : World) (ls : list label)
    (ws : list World) (effs : list effect) :
  create_job sid r j t0 w_pre = Some w0 ->
  forallb engine_or_cancel ls = true ->
  run key ls w0 = Some (ws, effs) ->
  Forall (fun w => exists jd, data_of j w = Some jd /\ records_ok jd = true)
         (w0 :: ws).
Proof.
  intros Hc Hls Hrun. unfold create_job in Hc.
  destruct (sm_sessions w_pre !! sid) as [s|]; [|discriminate].
  injection Hc as <-.
  set (job0 := {| data := JobData_init j (session_id s) r t0;
                  task := {| tpc := NotStarted; must_cancel := false;
                             rail_service := None |} |}) in *.
  set (w0 := {| sm_sessions := _; js_jobs := _ |}) in *.
  assert (Hj0 : js_jobs w0 !! j = Some job0) by apply lookup_insert_eq.
  assert (Hinv0 : job_inv job0 = true) by reflexivity.
  assert (Hrec0 : records_at (data job0) (tpc (task job0)) = true)
    by reflexivity.
  constructor.
  - exists (data job0). unfold data_of. rewrite Hj0. split; [reflexivity|].
    reflexivity.
  - clearbody job0 w0. revert w0 ws effs job0 Hls Hj0 Hinv0 Hrec0 Hrun.
    induction ls as [|l ls IH]; intros w0 ws effs job0 Hls Hj0 Hinv0 Hrec0;
      cbn.
    + intros [= <- _]. constructor.
    + cbn in Hls. apply andb_true_iff in Hls as [Hl Hls].
      destruct (step key l w0) as [[w1 effs1]|] eqn:E1; [|discriminate].
      destruct (run key ls w1) as [[ws' effs']|] eqn:E2; [|discriminate].
      intros [= <- _].
      destruct (step_job_inv key _ _ _ _ _ _ Hl Hj0 Hinv0 E1)
        as (job1 & Hj1 & Hinv1 & _).
      destruct (step_records _ _ _ _ _ _ Hl Hj0 Hinv0 Hrec0 E1)
        as (job1' & Hj1' & Hrec1).
      assert (job1' = job1) as -> by congruence.
      constructor.
      * exists (data job1). unfold data_of. rewrite Hj1.
        split; [reflexivity|]. eapply records_at_ok; eauto.
      * eapply IH; eauto.
Qed.
End Records.

Lemma job_records_fit_status_witness :
  exists ws effs,
    run (F := toy_fernet) x2a success_schedule demo_created = Some (ws, effs)
    /\ Forall (fun w => exists jd, data_of "j-1" w = Some jd
                                   /\ records_ok jd = true)
              (demo_created :: ws).
Proof.
  do 2 eexists. split; [vm_compute; reflexivity|].
  eapply (job_records_fit_status (F := toy_fernet) x2a "s-1"
            (demo_request GENERAL_FIRST false) "j-1" 0 demo_world
            demo_created success_schedule).
  - vm_compute. reflexivity.
  - reflexivity.
  - vm_compute. reflexivity.
Defined.

(** ** Job engine: selected indices outside the search result *)

Lemma py_getitem_in_range {A} (l : list A) (i : Z) :
  - Z.of_nat (length l) <= i < Z.of_nat (length l) ->
  exists x, py_getitem l i = Ok x.
Proof.
  intros Hi. unfold py_getitem.
  set (j := if i <? 0 then i + Z.of_nat (length l) else i).
  assert (Hj : 0 <= j < Z.of_nat (length l)).
  { unfold j. destruct (Z.ltb_spec i 0); lia. }
  destruct (Z.leb_spec 0 j); [|lia].
  destruct (Z.ltb_spec j (Z.of_nat (length l))); [|lia]. cbn.
  destruct (nth_error l (Z.to_nat j)) as [x|] eqn:Hn; [eauto|].
  apply nth_error_None in Hn. lia.
Qed.

Lemma py_getitem_below {A} (l : list A) (i : Z) :
  i < - Z.of_nat (length l) ->
  py_getitem l i = Raise (IndexError "list index out of range").
Proof.
  intros Hi. unfold py_getitem.
  destruct (Z.ltb_spec i 0); [|lia].
  destruct (Z.leb_spec 0 (i + Z.of_nat (length l))); [lia|]. reflexivity.
Qed.

Lemma py_getitem_ok_nth {A} (l : list A) (i : Z) (x : A) :
  py_getitem l i = Ok x ->
  nth_error l (Z.to_nat (if i <? 0 then i + Z.of_nat (length l) else i))
  = Some x.
Proof.
  unfold py_getitem.
  destruct (_ && _); [|discriminate].
  destruct (nth_error _ _); [|discriminate]. now intros [= <-].
Qed.

Lemma available_seats_in_range (trains : list Train) (idxs : list Z) :
  Forall (fun i => - Z.of_nat (length trains) <= i) idxs ->
  exists seats,
    available_seats trains idxs = Ok seats
    /\ map (fun '(i, _, _, _) => i) seats
       = List.filter (fun i => i <? Z.of_nat (length trains)) idxs
    /\ seats
       = omap (fun i =>
                 (fun train => (i, general_seat_available train,
                                special_seat_available train,
                                standby_available train))
                 <$> nth_error trains
                       (Z.to_nat (if i <? 0
                                  then i + Z.of_nat (length trains) else i)))
              (List.filter (fun i => i <? Z.of_nat (length trains)) idxs).
Proof.
  induction 1 as [|i idxs Hi _ (seats & IH & Hmap & Hseats)]; cbn.
  - exists []. auto.
  - destruct (Z.ltb_spec i (Z.of_nat (length trains))).
    + destruct (py_getitem_in_range trains i) as [x Hx]; [lia|].
      rewrite Hx. cbn. rewrite IH. cbn. eexists. split; [reflexivity|].
      cbn. rewrite Hmap. split; [reflexivity|].
      rewrite (py_getitem_ok_nth _ _ _ Hx). cbn. now rewrite <- Hseats.
    + exists seats. auto.
Qed.

Lemma available_seats_below (trains : list Train) (idxs : list Z) :
  Exists (fun i => i < - Z.of_nat (length trains)) idxs ->
  available_seats trains idxs = Raise (IndexError "list index out of range").
Proof.
  induction 1 as [i idxs Hi|i idxs _ IH]; cbn.
  - destruct (Z.ltb_spec i (Z.of_nat (length trains))); [|lia].
    now rewrite py_getitem_below.
  - destruct (Z.ltb_spec i (Z.of_nat (length trains))); [|exact IH].
    destruct (py_getitem trains i) as [x|e] eqn:Hg; cbn.
    + now rewrite IH.
    + unfold py_getitem in Hg.
      destruct ((0 <=? _) && _); [|now injection Hg as <-].
      destruct (nth_error _ _); [discriminate|now injection Hg as <-].
Qed.

Lemma scan_beyond (jd : JobData) (trains : list Train) (idxs : list Z) :
  Forall (fun i => Z.of_nat (length trains) <= i) idxs ->
  scan jd trains idxs = ScanEnd.
Proof.
  induction 1 as [|i idxs Hi _ IH]; cbn; [reflexivity|].
  destruct (cancelled jd); [reflexivity|].
  destruct (Z.leb_spec (Z.of_nat (length trains)) i); [exact IH|lia].
Qed.

Section SelectedIndices.
Context {F : Vault.Fernet}.
Variable key : Vault.fernet_key.

(** X19.  How the loop treats the selected indices against a search
    result of [n] trains.  If none is below [-n], the search is summarised
    over exactly the selected indices below [n], each with the
    availability of the train it addresses: the [i]-th train for [i >= 0],
    the train at [n + i], counted from the end, for [i < 0]; the job goes
    on.  If one is below [-n], the job ends [FAILED] with the error
    ["list index out of range"].  If all are [n] or more, the round
    attempts nothing: the loop sleeps, and when it wakes, unless it was
    cancelled, it counts one more attempt and makes the search of the
    job's itinerary again. *)
Theorem selected_index_handling (e e' : env) (s : Session) (jd : JobData)
    (t : Task) (trains : list Train) :
  tpc t = AtSearch ->
  let n := Z.of_nat (length trains) in
  (Forall (fun i => - n <= i) (selected_trains jd) ->
   exists seats,
     resume_task key e (Searched (Ok trains)) s jd t
     = Some (s, jd, at_pc (AtProgress trains) t,
             [Broadcast (session_id s) SEARCH_PROGRESS (job_id jd)
                (ProgressData (attempt_count jd) (length trains) seats
                   (available_count seats))])
     /\ map (fun '(i, _, _, _) => i) seats
        = List.filter (fun i => i <? n) (selected_trains jd)
     /\ seats
        = omap (fun i =>
                  (fun train => (i, general_seat_available train,
                                 special_seat_available train,
                                 standby_available train))
                  <$> nth_error trains
                        (Z.to_nat (if i <? 0 then i + n else i)))
               (List.filter (fun i => i <? n) (selected_trains jd)))
  /\ (Exists (fun i => i < - n) (selected_trains jd) ->
      exists jd',
        resume_task key e (Searched (Ok trains)) s jd t
        = Some (s, jd', at_pc AtJobCrashed t,
                [Broadcast (session_id s) JOB_COMPLETED (job_id jd)
                   (FailedData (attempt_count jd) "list index out of range")])
        /\ status jd' = FAILED
        /\ error jd' = Some "list index out of range"
        /\ completed_at jd' = Some (now e))
  /\ (Forall (fun i => n <= i) (selected_trains jd) ->
      resume_task key e Resumed s jd (at_pc (AtProgress trains) t)
      = Some (s, jd, at_pc AtSleep t, [Sleep])
      /\ (cancelled jd = false ->
          resume_task key e' Resumed s jd (at_pc AtSleep t)
          = Some (s, set_attempt_count (attempt_count jd + 1) jd,
                  at_pc AtSearch t,
                  [SearchTrains (rail_service t) (departure jd) (arrival jd)
                     (date jd) (time jd) (passengers jd)]))).
Proof.
  intros Hpc n. unfold resume_task. rewrite Hpc. cbn.
  split; [|split].
  - intros Hall. unfold after_search.
    destruct (available_seats_in_range trains _ Hall)
      as (seats & -> & Hmap & Hseats).
    exists seats. split; [reflexivity|]. split; [exact Hmap|exact Hseats].
  - intros Hex. unfold after_search.
    rewrite (available_seats_below trains _ Hex). cbn.
    eexists. split; [reflexivity|]. cbn. auto.
  - intros Hall. unfold for_selected.
    rewrite (scan_beyond jd trains _ Hall). split; [reflexivity|].
    intros Hc. unfold loop_top. rewrite Hc. reflexivity.
Qed.
End SelectedIndices.

Lemma selected_index_handling_witness :
  exists jd',
    resume_task (F := toy_fernet) x2a (at_time 3)
      (Searched (Ok [demo_train true false false])) demo_session
      stray_job
      {| tpc := AtSearch; must_cancel := false; rail_service := Some 1%nat |}
    = Some (demo_session, jd',
            {| tpc := AtJobCrashed; must_cancel := false;
               rail_service := Some 1%nat |},
            [Broadcast "s-1" JOB_COMPLETED "j-1"
               (FailedData 0 "list index out of range")])
    /\ status jd' = FAILED.
Proof.
  destruct (selected_index_handling (F := toy_fernet) x2a (at_time 3)
              (at_time 4) demo_session stray_job
              {| tpc := AtSearch; must_cancel := false;
                 rail_service := Some 1%nat |}
              [demo_train true false false] eq_refl)
    as (_ & Hbelow & _).
  destruct Hbelow as (jd' & Hr & Hst & _).
  - apply Exists_cons_tl, Exists_cons_hd. cbn. lia.
  - exists jd'. split; [exact Hr|exact Hst].
Defined.

(** ** RailService: passenger lists *)

(** X20.  For a passenger count that passed validation, a search is made
    for one group of adults as large as the whole party (one adult for an
    empty party), while a reservation names, in the order of the fields,
    each class with a positive count and its count, and one adult if there
    is none; for SRT the toddlers are left out of the reservation.  So the
    reservation is for the whole party on KTX, and for the party without
    its toddlers on SRT, and for one traveller at least. *)
Theorem passenger_lists (is_srt : bool) (p : PassengerCount) :
  PassengerCount_accepts p = true ->
  build_search_passenger_list p = [(Adult, Z.max 1 (total p))]
  /\ build_reserve_passenger_list is_srt p
     = match List.filter (fun x => 0 <? snd x)
               ([(Adult, adult p); (Child, child p); (Senior, senior p);
                 (Disability1To3, disability_1_3 p);
                 (Disability4To6, disability_4_6 p)]
                ++ if is_srt then [] else [(Toddler, toddler p)])%list with
       | [] => [(Adult, 1)]
       | l => l
       end
  /\ head_count (build_reserve_passenger_list is_srt p)
     = Z.max 1 (total p - (if is_srt then toddler p else 0))
  /\ Forall (fun x => 1 <= snd x) (build_reserve_passenger_list is_srt p)
  /\ (is_srt = true ->
      Forall (fun x => fst x <> Toddler) (build_reserve_passenger_list is_srt p)).
Proof.
  destruct p as [a c s d1 d2 td]. unfold PassengerCount_accepts, Field_ge_le.
  cbn. intros H.
  repeat match goal with
         | H : _ && _ = true |- _ => apply andb_true_iff in H as [H ?]
         end.
  repeat match goal with
         | H : (_ <=? _) = true |- _ => apply Z.leb_le in H
         end.
  split; [|split; [|split; [|split]]].
  - unfold build_search_passenger_list, total. cbn.
    destruct (Z.leb_spec (a + c + s + d1 + d2 + td) 0); do 2 f_equal; lia.
  - unfold build_reserve_passenger_list, append_if_positive. cbn.
    destruct is_srt; cbn;
      destruct (0 <? a), (0 <? c), (0 <? s), (0 <? d1), (0 <? d2);
      try destruct (0 <? td); reflexivity.
  - unfold build_reserve_passenger_list, append_if_positive, total. cbn.
    destruct (Z.ltb_spec 0 a), (Z.ltb_spec 0 c), (Z.ltb_spec 0 s),
      (Z.ltb_spec 0 d1), (Z.ltb_spec 0 d2), is_srt; cbn;
      try destruct (Z.ltb_spec 0 td); cbn; lia.
  - unfold build_reserve_passenger_list, append_if_positive. cbn.
    destruct (Z.ltb_spec 0 a), (Z.ltb_spec 0 c), (Z.ltb_spec 0 s),
      (Z.ltb_spec 0 d1), (Z.ltb_spec 0 d2), is_srt; cbn;
      try destruct (Z.ltb_spec 0 td); cbn;
      repeat (constructor; cbn; try lia).
  - intros ->. unfold build_reserve_passenger_list, append_if_positive. cbn.
    destruct (Z.ltb_spec 0 a), (Z.ltb_spec 0 c), (Z.ltb_spec 0 s),
      (Z.ltb_spec 0 d1), (Z.ltb_spec 0 d2); cbn;
      repeat (constructor; cbn; try discriminate).
Qed.

Lemma passenger_lists_witness :
  build_search_passenger_list
    {| adult := 1; child := 1; senior := 0; disability_1_3 := 0;
       disability_4_6 := 0; toddler := 2 |} = [(Adult, 4)]
  /\ head_count (build_reserve_passenger_list true
                   {| adult := 1; child := 1; senior := 0;
                      disability_1_3 := 0; disability_4_6 := 0;
                      toddler := 2 |}) = 2.
Proof.
  destruct (passenger_lists true
              {| adult := 1; child := 1; senior := 0; disability_1_3 := 0;
                 disability_4_6 := 0; toddler := 2 |} eq_refl)
    as (Hs & _ & Hr & _).
  split; [exact Hs|exact Hr].
Defined.

(** ** RailService: reservations need the search they refer to *)

Lemma py_getitem_ok_range {A} (l : list A) (i : Z) (x : A) :
  py_getitem l i = Ok x ->
  - Z.of_nat (length l) <= i < Z.of_nat (length l).
Proof.
  unfold py_getitem.
  set (j := if i <? 0 then i + Z.of_nat (length l) else i).
  destruct ((0 <=? j) && (j <? Z.of_nat (length l))) eqn:Hb; [|discriminate].
  intros _. apply andb_true_iff in Hb as [H1 H2].
  apply Z.leb_le in H1. apply Z.ltb_lt in H2. unfold j in *.
  destruct (Z.ltb_spec i 0); lia.
Qed.

(** X21.  A reservation through the wrapper succeeds exactly when the
    provider accepts it and the index addresses a train of the last
    successful search (a negative index counts from the end); a standby
    request needs in addition that this train offers standby.  A service
    object that has not searched yet, such as the one built after a
    re-login, never reserves, whatever the provider would answer: it
    reports [TRAIN_NOT_FOUND], or raises [IndexError] for a negative
    index.  A failed search leaves the remembered trains as they were. *)
Theorem reservation_needs_search (svc : RailService) (idx : Z)
    (provider : answer Reservation) :
  let n := Z.of_nat (length (last_trains svc)) in
  (forall r, reserve svc idx provider = Ok r
             <-> provider = Returned r /\ - n <= idx < n)
  /\ (forall r, reserve_standby svc idx provider = Ok r
                <-> provider = Returned r
                    /\ exists train, py_getitem (last_trains svc) idx = Ok train
                                     /\ standby_available train = true)
  /\ (forall is_srt c,
         reserve (RailService_create is_srt c) idx provider
         = (if 0 <=? idx
            then Raise (RailServiceError "TRAIN_NOT_FOUND" TRAIN_NOT_FOUND_message)
            else Raise (IndexError "list index out of range"))
         /\ reserve_standby (RailService_create is_srt c) idx provider
            = reserve (RailService_create is_srt c) idx provider)
  /\ (forall msg, snd (search_trains svc (Threw msg)) = svc)
  /\ (forall trains,
         last_trains (snd (search_trains svc (Returned trains))) = trains).
Proof.
  intros n. split; [|split; [|split; [|split]]].
  - intros r. unfold reserve. fold n.
    destruct (Z.leb_spec n idx).
    + split; [discriminate|]. intros [_ ?]. lia.
    + destruct (py_getitem (last_trains svc) idx) as [train|x] eqn:Hg; cbn.
      * apply py_getitem_ok_range in Hg. fold n in Hg.
        destruct provider as [r'|msg].
        -- split; [intros [= <-]; auto|]. now intros [[= <-] _].
        -- split; [|now intros [? _]].
           destruct (_ || _); [discriminate|].
           destruct (_ || _); discriminate.
      * split; [discriminate|]. intros [_ Hr].
        destruct (py_getitem_in_range (last_trains svc) idx) as [y Hy];
          [fold n; lia|congruence].
  - intros r. unfold reserve_standby. fold n.
    destruct (Z.leb_spec n idx).
    + split; [discriminate|]. intros [_ (train & Hg & _)].
      apply py_getitem_ok_range in Hg. fold n in Hg. lia.
    + destruct (py_getitem (last_trains svc) idx) as [train|x] eqn:Hg; cbn.
      * destruct (standby_available train) eqn:Hsb; cbn.
        -- destruct provider as [r'|msg].
           ++ split; [intros [= <-]; eauto|]. now intros [[= <-] _].
           ++ split; [|now intros [? _]].
              destruct (_ && _); [discriminate|].
              destruct (_ || _); discriminate.
        -- split; [discriminate|]. intros [_ (train' & [= <-] & Hx)].
           congruence.
      * split; [discriminate|]. now intros [_ (train' & [=] & _)].
  - intros is_srt c. unfold reserve_standby, reserve.
    change (last_trains (RailService_create is_srt c)) with (@nil Train).
    change (Z.of_nat (length (@nil Train))) with 0.
    destruct (Z.leb_spec 0 idx); [auto|].
    rewrite py_getitem_below by (cbn; lia). auto.
  - intros msg. unfold search_trains. now destruct (str_in _ _).
  - reflexivity.
Qed.

(** ** The loop behind the wrapper *)

Section BehindTheWrapper.
Context {F : Vault.Fernet}.
Variable key : Vault.fernet_key.


Lemma login_calls_app (a b : list effect) :
  login_calls (a ++ b) = (login_calls a ++ login_calls b)%list.
Proof. unfold login_calls. apply List.filter_app. Qed.

Lemma go_sleep_nologin jd : login_calls (snd (go_sleep jd)) = [].
Proof. reflexivity. Qed.

Lemma on_exception_nologin now x s jd :
  login_calls (snd (on_exception now x s jd)) = [].
Proof. reflexivity. Qed.

Lemma on_rail_error_nologin now c m s jd :
  login_calls (snd (on_rail_error now c m s jd)) = [].
Proof. unfold on_rail_error. now destruct (negb _). Qed.

Lemma on_reserve_error_nologin c m s jd a :
  login_calls (snd (on_reserve_error c m s jd a)) = [].
Proof. reflexivity. Qed.

Lemma loop_top_nologin svc jd : login_calls (snd (loop_top svc jd)) = [].
Proof. unfold loop_top. now destruct (cancelled jd). Qed.

Lemma after_search_nologin now trains s jd :
  login_calls (snd (after_search now trains s jd)) = [].
Proof. unfold after_search. now destruct (available_seats _ _). Qed.

Lemma for_selected_nologin now trains idxs s jd :
  login_calls (snd (for_selected now trains idxs s jd)) = [].
Proof. unfold for_selected. now destruct (scan _ _ _). Qed.

Lemma succeed_nologin now r a s jd :
  login_calls (snd (succeed now r a s jd)) = [].
Proof. reflexivity. Qed.

Lemma reserve_call_nologin svc jd a : login_calls [reserve_call svc jd a] = [].
Proof. unfold reserve_call. now destruct (a_is_standby a). Qed.

Create HintDb nologin.
#[local] Hint Resolve go_sleep_nologin on_exception_nologin
  on_rail_error_nologin on_reserve_error_nologin loop_top_nologin
  after_search_nologin for_selected_nologin succeed_nologin
  reserve_call_nologin : nologin.

(** The loop logs in only when the search or the reservation it awaited
    raised the re-login condition. *)
Lemma resume_task_no_login e r s jd t s' jd' t' effs :
  (forall m, r <> Searched (Raise (LoginRequired m))) ->
  (forall m, r <> Reserved (Raise (LoginRequired m))) ->
  resume_task key e r s jd t = Some (s', jd', t', effs) ->
  login_calls effs = [].
Proof.
  intros Hs Hr H. unfold resume_task in H.
  destruct (tpc t); destruct r as [|o|o|o|o]; try discriminate H.
  all: split_match H.
  all: try (now destruct (Hs msg)).
  all: try (now destruct (Hr msg)).
  all: apply stepped_parts in H as (_ & _ & ->).
  all: try solve [eauto with nologin].
  all: try reflexivity.
  all: cbn [snd]; apply reserve_call_nologin.
Qed.

Lemma wrapped_searched o :
  wrapped (Searched o) -> forall m, Searched o <> Searched (Raise (LoginRequired m)).
Proof.
  intros (svc & provider & ->) m. unfold search_trains.
  destruct provider as [trains|msg]; [discriminate|].
  destruct (str_in _ _); discriminate.
Qed.

Lemma wrapped_reserved o :
  wrapped (Reserved o) -> forall m, Reserved o <> Reserved (Raise (LoginRequired m)).
Proof.
  intros (svc & a & provider & ->) m.
  unfold reserve_through, reserve_standby, reserve.
  destruct (a_is_standby a);
    (destruct (_ <=? _); [discriminate|]);
    (destruct (py_getitem _ _) as [train|x] eqn:Hg; cbn;
     [|unfold py_getitem in Hg;
       destruct (_ && _) in Hg; [destruct (nth_error _ _) in Hg|];
       try discriminate Hg; injection Hg as <-; discriminate]).
  - destruct (negb _); [discriminate|].
    destruct provider; [discriminate|].
    destruct (_ && _); [discriminate|]. destruct (_ || _); discriminate.
  - destruct provider; [discriminate|].
    destruct (_ || _); [discriminate|]. destruct (_ || _); discriminate.
Qed.

Lemma step_no_login l w w' effs :
  wrapped_label l -> step key l w = Some (w', effs) -> login_calls effs = [].
Proof.
  intros Hw. destruct l as [sid r j now|j e r|j now|sid]; cbn.
  - destruct (create_job _ _ _ _ _); [|discriminate]. now intros [= _ <-].
  - unfold engine_step. destruct (js_jobs w !! j) as [job|]; [|discriminate].
    destruct (must_cancel (task job)).
    + destruct (throw_cancelled _ _ _) as [[jd t]|]; [|discriminate].
      now intros [= _ <-].
    + destruct (sm_sessions w !! _) as [s|]; [|discriminate].
      destruct (resume_task _ _ _ _ _ _) as [[[[s' jd] t] effs']|] eqn:Hr;
        [|discriminate].
      intros [= _ <-]. eapply resume_task_no_login; [| |exact Hr].
      * destruct r; try discriminate. now apply wrapped_searched.
      * destruct r; try discriminate. now apply wrapped_reserved.
  - unfold cancel_job. destruct (js_jobs w !! j) as [job|];
      [|now intros [= _ <-]].
    destruct (negb _); now intros [= _ <-].
  - unfold destroy_session. destruct (sm_sessions w !! sid) as [s|];
      [|now intros [= _ <-]].
    intros [= _ <-]. rewrite login_calls_app.
    assert (Hc : forall l, login_calls (map CloseWebSocket l) = []).
    { induction l as [|x l IH]; [reflexivity|exact IH]. }
    rewrite Hc. now destruct (rail_client s).
Qed.

(** C7.  The re-authentication cycle is never entered.  [search_trains],
    [reserve] and [reserve_standby] catch every exception of the provider,
    the re-login condition included, and raise a [RailServiceError] in its
    place (or let an [IndexError] of their own through).  So along every
    schedule whose searches and reservations come out of these wrappers,
    as all those of [_run_booking_loop] do, no login call is made: when the
    provider asks for a re-login, the credentials are not read, the client
    handle is not replaced and the call is not repeated through a new
    handle; the search is slept over as an empty result, and the
    reservation is reported as [RESERVE_FAILED] or [STANDBY_FAILED]. *)
Theorem wrapped_loop_never_logs_in (ls : list label) (w : World)
    (ws : list World) (effs : list effect) :
  Forall wrapped_label ls ->
  run key ls w = Some (ws, effs) ->
  login_calls effs = [].
Proof.
  intros Hall. revert w ws effs.
  induction Hall as [|l ls Hl _ IH]; intros w ws effs; cbn.
  - now intros [= _ <-].
  - destruct (step key l w) as [[w1 effs1]|] eqn:E1; [|discriminate].
    destruct (run key ls w1) as [[ws' effs']|] eqn:E2; [|discriminate].
    intros [= _ <-]. rewrite login_calls_app.
    rewrite (step_no_login _ _ _ _ Hl E1), (IH _ _ _ E2). reflexivity.
Qed.
End BehindTheWrapper.


Lemma wrapped_loop_never_logs_in_witness :
  exists ws effs,
    run (F := toy_fernet) x2a refused_search_schedule demo_created
    = Some (ws, effs)
    /\ login_calls effs = [].
Proof.
  do 2 eexists. split; [vm_compute; reflexivity|].
  eapply (wrapped_loop_never_logs_in (F := toy_fernet) x2a
            refused_search_schedule demo_created).
  - unfold refused_search_schedule.
    repeat (apply List.Forall_cons;
            [cbv [wrapped_label wrapped];
             first [exact I|do 2 eexists; reflexivity]|]).
    apply List.Forall_nil.
  - vm_compute. reflexivity.
Defined.

(** ** RailService: card payment *)

Lemma find_reservation_some (number : string) (l : list ProviderReservation)
    (r : ProviderReservation) :
  find_reservation number l = Some r -> r ∈ l /\ pr_number r = number.
Proof.
  induction l as [|x l IH]; cbn; [discriminate|].
  destruct (String.eqb_spec (pr_number x) number) as [Heq|Hne].
  - intros [= <-]. split; [apply list_elem_of_here|exact Heq].
  - intros H. destruct (IH H) as [Hin Hn].
    split; [now apply list_elem_of_further|exact Hn].
Qed.

Lemma payment_error_code (msg : string) :
  exists code m,
    payment_error msg = RailServiceError code m
    /\ code ∈ ["PAYMENT_CARD_ERROR"; "PAYMENT_PASSWORD_ERROR"; "PAYMENT_FAILED"].
Proof.
  unfold payment_error.
  destruct (str_in "카드" msg); [|destruct (str_in "비밀번호" msg)];
    do 2 eexists; (split; [reflexivity|]);
    repeat first [apply list_elem_of_here|apply list_elem_of_further].
Qed.

(** X23.  [pay_with_card] asks the provider to charge at most one
    reservation: the first one of the provider's listing that carries the
    requested number, and only if it is not paid yet.  It returns a result
    exactly when that charge was made and came back true; the result then
    names the requested number and, as the amount paid, the cost of the
    charged reservation.  Every failure is a [RailServiceError] whose code
    is one of [PAYMENT_RESERVATION_NOT_FOUND], [PAYMENT_ALREADY_PAID],
    [PAYMENT_CARD_ERROR], [PAYMENT_PASSWORD_ERROR] and [PAYMENT_FAILED]. *)
Theorem pay_with_card_guards (number : string)
    (listing : answer (list ProviderReservation))
    (charge : ProviderReservation -> answer bool) :
  let result := fst (pay_with_card number listing charge) in
  let charged := snd (pay_with_card number listing charge) in
  (forall r, charged = Some r ->
             exists l, listing = Returned l
                       /\ find_reservation number l = Some r
                       /\ r ∈ l /\ pr_number r = number
                       /\ pr_is_paid r = false)
  /\ (forall res,
        result = Ok res
        <-> exists r, charged = Some r /\ charge r = Returned true
                      /\ res = {| pay_success := true;
                                  pay_reservation_number := number;
                                  amount_paid := pr_total_cost r;
                                  pay_message := "결제가 완료되었습니다." |})
  /\ (forall e,
        result = Raise e ->
        exists code m,
          e = RailServiceError code m
          /\ code ∈ ["PAYMENT_RESERVATION_NOT_FOUND"; "PAYMENT_ALREADY_PAID";
                     "PAYMENT_CARD_ERROR"; "PAYMENT_PASSWORD_ERROR";
                     "PAYMENT_FAILED"]).
Proof.
  assert (Hcodes : forall msg e, Raise (A := PaymentResult) (payment_error msg)
                                 = Raise e ->
            exists code m,
              e = RailServiceError code m
              /\ code ∈ ["PAYMENT_RESERVATION_NOT_FOUND"; "PAYMENT_ALREADY_PAID";
                         "PAYMENT_CARD_ERROR"; "PAYMENT_PASSWORD_ERROR";
                         "PAYMENT_FAILED"]).
  { intros msg e [= <-].
    destruct (payment_error_code msg) as (code & m & -> & Hin).
    exists code, m. split; [reflexivity|].
    do 2 apply list_elem_of_further. exact Hin. }
  unfold pay_with_card. destruct listing as [l|msg]; cbn.
  - destruct (find_reservation number l) as [r|] eqn:Hf; cbn.
    + destruct (find_reservation_some _ _ _ Hf) as [Hin Hn].
      destruct (pr_is_paid r) eqn:Hp; cbn.
      * split; [discriminate|]. split.
        -- intros res. split; [discriminate|]. now intros (r' & [=] & _).
        -- intros e [= <-]. do 2 eexists. split; [reflexivity|].
           apply list_elem_of_further, list_elem_of_here.
      * destruct (charge r) as [[|]|msg] eqn:Hc; cbn.
        -- split; [intros r' [= <-]; eauto 10|]. split.
           ++ intros res. split.
              ** intros [= <-]. exists r. auto.
              ** intros (r' & [= <-] & _ & ->). reflexivity.
           ++ discriminate.
        -- split; [intros r' [= <-]; eauto 10|]. split.
           ++ intros res. split; [discriminate|].
              intros (r' & [= <-] & Hc' & _). congruence.
           ++ intros e [= <-]. do 2 eexists. split; [reflexivity|].
              do 4 apply list_elem_of_further. apply list_elem_of_here.
        -- split; [intros r' [= <-]; eauto 10|]. split.
           ++ intros res. split; [discriminate|].
              intros (r' & [= <-] & Hc' & _). congruence.
           ++ apply Hcodes.
    + split; [discriminate|]. split.
      * intros res. split; [discriminate|]. now intros (r' & [=] & _).
      * intros e [= <-]. do 2 eexists. split; [reflexivity|].
        apply list_elem_of_here.
  - split; [discriminate|]. split.
    + intros res. split; [discriminate|]. now intros (r' & [=] & _).
    + apply Hcodes.
Qed.

(** ** ConnectionManager *)

Lemma connections_of_insert (sid sid' : string) (c : gset nat)
    (m : gmap string (gset nat)) :
  connections_of sid' (<[sid := c]> m)
  = if decide (sid = sid') then c else connections_of sid' m.
Proof.
  unfold connections_of. destruct (decide (sid = sid')) as [->|Hne].
  - now rewrite lookup_insert_eq.
  - now rewrite lookup_insert_ne.
Qed.

Lemma connections_of_delete (sid sid' : string) (m : gmap string (gset nat)) :
  connections_of sid' (delete sid m)
  = if decide (sid = sid') then ∅ else connections_of sid' m.
Proof.
  unfold connections_of. destruct (decide (sid = sid')) as [->|Hne].
  - now rewrite lookup_delete_eq.
  - now rewrite lookup_delete_ne.
Qed.

Lemma connections_of_disconnect (ws : nat) (sid sid' : string)
    (m : gmap string (gset nat)) :
  connections_of sid' (disconnect ws sid m)
  = if decide (sid = sid') then connections_of sid m ∖ {[ws]}
    else connections_of sid' m.
Proof.
  unfold disconnect. destruct (m !! sid) as [c|] eqn:Hc.
  - destruct (decide (c ∖ {[ws]} = ∅)) as [He|Hne].
    + rewrite connections_of_delete. destruct (decide (sid = sid')); [|done].
      unfold connections_of. now rewrite Hc.
    + rewrite connections_of_insert. destruct (decide (sid = sid')); [|done].
      unfold connections_of. now rewrite Hc.
  - destruct (decide (sid = sid')) as [<-|]; [|done].
    unfold connections_of. rewrite Hc. cbn.
    apply set_eq. intros x. rewrite elem_of_difference.
    split; [intros Hx; now apply not_elem_of_empty in Hx|].
    intros [Hx _]. now apply not_elem_of_empty in Hx.
Qed.

(** X24.  The connection registry tracks the websockets of each session.
    After [connect] the websocket is among the connections of its session
    and the other sessions are as before; [disconnect] removes it from its
    session only, and never leaves a session registered with no
    connection.  Connecting a websocket that was not registered and
    disconnecting it again gives every session the connections it had, and
    in between the session counts one connection more. *)
Theorem connect_disconnect_round_trip (ws : nat) (sid : string)
    (m : gmap string (gset nat)) :
  ws ∉ connections_of sid m ->
  connections_of sid (connect ws sid m) = connections_of sid m ∪ {[ws]}
  /\ get_connection_count sid (connect ws sid m)
     = S (get_connection_count sid m)
  /\ (forall sid', sid' <> sid ->
        connect ws sid m !! sid' = m !! sid'
        /\ disconnect ws sid m !! sid' = m !! sid')
  /\ (forall sid',
        connections_of sid' (disconnect ws sid (connect ws sid m))
        = connections_of sid' m)
  /\ disconnect ws sid m !! sid <> Some ∅
  /\ disconnect ws sid (connect ws sid m) !! sid <> Some ∅.
Proof.
  intros Hnew.
  assert (Hc : connections_of sid (connect ws sid m)
               = connections_of sid m ∪ {[ws]}).
  { unfold connect. rewrite connections_of_insert.
    now destruct (decide (sid = sid)). }
  split; [exact Hc|]. split.
  { unfold get_connection_count. rewrite Hc.
    rewrite size_union by (apply disjoint_singleton_r; exact Hnew).
    rewrite size_singleton. lia. }
  split.
  { intros sid' Hne. split.
    - unfold connect. now rewrite lookup_insert_ne.
    - unfold disconnect. destruct (m !! sid) as [c|]; [|reflexivity].
      destruct (decide _).
      + now rewrite lookup_delete_ne.
      + now rewrite lookup_insert_ne. }
  split.
  { intros sid'. rewrite connections_of_disconnect.
    destruct (decide (sid = sid')) as [<-|Hne].
    - unfold connect. rewrite connections_of_insert.
      destruct (decide (sid = sid)) as [_|]; [|done].
      apply set_eq. intros x.
      rewrite elem_of_difference, elem_of_union, !elem_of_singleton.
      split; [intros [[H|H] Hx]; [exact H|contradiction]|].
      intros Hx. split; [now left|]. intros ->. contradiction.
    - unfold connect. rewrite connections_of_insert.
      destruct (decide (sid = sid')); [contradiction|reflexivity]. }
  assert (Hd : forall m0 : gmap string (gset nat),
             disconnect ws sid m0 !! sid <> Some ∅).
  { intros m0. unfold disconnect. destruct (m0 !! sid) as [c|] eqn:Hm0.
    - destruct (decide _) as [He|Hne].
      + now rewrite lookup_delete_eq.
      + rewrite lookup_insert_eq. intros [= H]. contradiction.
    - now rewrite Hm0. }
  split; apply Hd.
Qed.

Lemma connect_disconnect_round_trip_witness :
  connections_of "s-1" (disconnect 7%nat "s-1" (connect 7%nat "s-1" ∅)) = ∅
  /\ get_connection_count "s-1" (connect 7%nat "s-1" ∅) = 1%nat.
Proof.
  destruct (connect_disconnect_round_trip 7%nat "s-1" ∅)
    as (_ & Hc & _ & Hr & _).
  - unfold connections_of. rewrite lookup_empty. apply not_elem_of_empty.
  - split; [exact (Hr "s-1")|exact Hc].
Defined.

(** X25.  A broadcast reaches exactly the registered websockets of the
    session whose [send_json] returns; the others are discarded, so that
    afterwards the session's registered connections are exactly those that
    got the message; the connections of other sessions are not touched. *)
Theorem broadcast_prunes_dead (sid : string) (delivers : nat -> bool)
    (m : gmap string (gset nat)) :
  let sent := fst (broadcast_to_session sid delivers m) in
  let m' := snd (broadcast_to_session sid delivers m) in
  (forall ws, ws ∈ sent <-> ws ∈ connections_of sid m /\ delivers ws = true)
  /\ connections_of sid m' = sent
  /\ (forall sid', sid' <> sid -> m' !! sid' = m !! sid').
Proof.
  unfold broadcast_to_session. cbn.
  split; [intros ws; rewrite elem_of_filter; tauto|].
  destruct (decide (filter (fun ws => delivers ws = false)
                      (connections_of sid m) = ∅)) as [He|Hne].
  - split; [|reflexivity].
    apply set_eq. intros x. rewrite elem_of_filter. split; [|tauto].
    intros Hx. split; [|exact Hx].
    destruct (delivers x) eqn:Hd; [reflexivity|].
    assert (Hin : x ∈ filter (fun ws => delivers ws = false)
                    (connections_of sid m))
      by (apply elem_of_filter; auto).
    rewrite He in Hin. now apply not_elem_of_empty in Hin.
  - destruct (m !! sid) as [c|] eqn:Hc.
    + split; [|intros sid' Hs; now rewrite lookup_insert_ne].
      rewrite connections_of_insert. destruct (decide (sid = sid)); [|done].
      unfold connections_of. rewrite Hc. cbn.
      apply set_eq. intros x.
      rewrite elem_of_difference, !elem_of_filter. split.
      * intros [Hx Hnd]. split; [|exact Hx].
        destruct (delivers x); [reflexivity|]. destruct Hnd. auto.
      * intros [Hd Hx]. split; [exact Hx|]. intros [Hf _]. congruence.
    + split; [|reflexivity]. exfalso. apply Hne.
      unfold connections_of. rewrite Hc. cbn.
      apply set_eq. intros x. rewrite elem_of_filter.
      split; [intros [_ Hx]; exact Hx|].
      intros Hx. now apply not_elem_of_empty in Hx.
Qed.

(** ** The authentication routes *)

(** X26.  [GET /auth/session] answers valid exactly when [get_session]
    returns the session for a non-empty id.  An invalid answer changes
    nothing and carries no expiry.  A valid answer reports the expiry and
    the rail type that the registered session has after the route's own
    refresh, which is the refresh time plus the TTL whenever the session
    had not expired by then; no job is touched.  After [POST /auth/logout]
    with a session id, the check for that id answers invalid. *)
Theorem check_session_contract (ttl now now' : Z)
    (x_session_id : option string) (w : World) :
  let resp := fst (route_check_session ttl now now' x_session_id w) in
  let w' := snd (route_check_session ttl now now' x_session_id w) in
  (sr_valid resp = true
   <-> exists sid s, x_session_id = Some sid /\ sid <> ""
                     /\ sm_sessions w !! sid = Some s /\ now <= expires_at s)
  /\ (sr_valid resp = false -> w' = w /\ sr_expires_at resp = None)
  /\ (sr_valid resp = true ->
      js_jobs w' = js_jobs w
      /\ exists sid s s',
           x_session_id = Some sid
           /\ sm_sessions w !! sid = Some s
           /\ sm_sessions w' !! sid = Some s'
           /\ sr_expires_at resp = Some (expires_at s')
           /\ sr_rail_type resp = Some (rail_type s')
           /\ (now' <= expires_at s -> expires_at s' = now' + ttl)
           /\ (expires_at s < now' -> s' = s))
  /\ (forall sid,
        sr_valid (fst (route_check_session ttl now now' (Some sid)
                         (snd (fst (route_logout (Some sid) w))))) = false).
Proof.
  cbn. split; [|split; [|split]].
  - unfold route_check_session.
    destruct x_session_id as [[|c sid]|]; cbn.
    + split; [discriminate|]. intros (sid & s & [= <-] & Hne & _).
      now destruct Hne.
    + destruct (fst (get_session now (String c sid) w)) as [s|] eqn:Hg.
      * destruct (refresh_session _ _ _ _) as [b w1]. cbn.
        split; [|reflexivity]. intros _.
        apply get_session_some in Hg as [Hs Hle].
        exists (String c sid), s. repeat split; auto; discriminate.
      * cbn. split; [discriminate|].
        intros (sid' & s & [= <-] & _ & Hs & Hle).
        assert (fst (get_session now (String c sid) w) = Some s) as Hg'
            by (apply get_session_some; now split).
        congruence.
    + split; [discriminate|]. now intros (sid & s & [=] & _).
  - unfold route_check_session.
    destruct x_session_id as [[|c sid]|]; cbn; auto.
    destruct (fst (get_session now (String c sid) w)) as [s|]; cbn; auto.
    destruct (refresh_session _ _ _ _) as [b w1]. cbn. discriminate.
  - unfold route_check_session.
    destruct x_session_id as [[|c sid]|]; cbn; try discriminate.
    destruct (fst (get_session now (String c sid) w)) as [s|] eqn:Hg; cbn;
      [|discriminate].
    apply get_session_some in Hg as [Hs Hle].
    pose proof (refresh_session_jobs ttl now' (String c sid) w) as Hjobs.
    pose proof (refresh_session_lookup ttl now' (String c sid) w
                  (String c sid)) as Hlook.
    assert (Hb : fst (refresh_session ttl now' (String c sid) w)
                 = negb (is_expired now' s)).
    { unfold refresh_session. rewrite Hs. now destruct (negb _). }
    destruct (refresh_session ttl now' (String c sid) w) as [b w1].
    cbn in *. subst b. intros _. split; [exact Hjobs|].
    rewrite Hs in Hlook. cbn in Hlook.
    rewrite bool_decide_eq_true_2 in Hlook by reflexivity. cbn in Hlook.
    exists (String c sid), s. eexists. split; [reflexivity|].
    split; [exact Hs|]. split; [exact Hlook|].
    unfold is_expired.
    destruct (Z.ltb_spec (expires_at s) now'); cbn.
    + repeat split; auto. intros; lia.
    + repeat split; auto. intros; lia.
  - intros sid. unfold route_logout, route_check_session.
    destruct sid as [|c sid]; [reflexivity|].
    pose proof (destroy_session_lookup (String c sid) (String c sid) w) as Hl.
    destruct (destroy_session (String c sid) w) as [[b w1] effs]. cbn in *.
    rewrite bool_decide_eq_true_2 in Hl by reflexivity.
    unfold get_session. now rewrite Hl.
Qed.
